(** * go-socks5: the SOCKS5 server core, embedded and verified

    The development follows the Go package [socks5]:
    - [datagram.go]: the UDP datagram codec
      ([NewDatagramFromByte], [NewDatagram], [toBytes], [Address]);
    - [auth.go]: method negotiation and the two built-in authenticators;
    - [socks5.go]: server construction ([New]) and the connection driver
      ([ServeConn]);
    - the BIND handler ([doBind]);
    - [associate.go]: the UDP ASSOCIATE handler and its flow table.

    Bytes are [Byte.byte], Go strings are Rocq strings (sequences of 8-bit
    characters), Go maps are [gmap]s, and functions that can fail return the
    error next to the value, as the Go code does. *)

From Stdlib Require Import List Arith ZArith NArith Lia Bool String Ascii.
From Stdlib Require Import Strings.Byte Init.Byte Numbers.DecimalString.
From stdpp Require Import base countable gmap strings list fin_maps.
Import ListNotations.

Local Open Scope string_scope.
Local Open Scope list_scope.
Local Open Scope nat_scope.

(* ===================================================================== *)
(** * Bytes and Go slices                                                  *)
(* ===================================================================== *)

Abbreviation byte := Byte.byte.

#[global] Instance byte_eq_dec : EqDecision byte := Byte.byte_eq_dec.

#[global] Instance byte_countable : Countable byte :=
  inj_countable Byte.to_N Byte.of_N Byte.of_to_N.

(** [int(b)] for a [uint8] value. *)
Definition int_of_byte (b : byte) : nat := Byte.to_nat b.

(** [byte(n)] for an [int]: the conversion keeps the low eight bits. *)
Definition byte_of_int (n : nat) : byte :=
  match Byte.of_nat (n mod 256) with
  | Some b => b
  | None => x00
  end.

(** [bs[lo:hi]]; the callers below only slice inside the bounds. *)
Definition slice (lo hi : nat) (bs : list byte) : list byte :=
  firstn (hi - lo) (skipn lo bs).

(** Go's builtin [copy(dst, src)]: the first [min (len dst) (len src)]
    elements of [dst] are overwritten, [dst] keeps its length. *)
Definition copy (dst src : list byte) : list byte :=
  firstn (length dst) src ++ skipn (length src) dst.

(** [buf[idx] = v]; an index outside the slice is a Go panic, [None] here. *)
Definition set_at (buf : list byte) (idx : nat) (v : byte) : option (list byte) :=
  if idx <? length buf then Some (<[idx := v]> buf) else None.

(** [copy(buf[idx:], src)] seen from [buf]; [buf[idx:]] panics when [idx]
    is beyond the length. *)
Definition copy_at (buf : list byte) (idx : nat) (src : list byte)
  : option (list byte) :=
  if idx <=? length buf then Some (firstn idx buf ++ copy (skipn idx buf) src)
  else None.

(** [string(bs)] and [[]byte(s)]. *)
Definition string_of_bytes (bs : list byte) : string := string_of_list_byte bs.
Definition bytes_of_string (s : string) : list byte := list_byte_of_string s.

(* ===================================================================== *)
(** * Errors                                                               *)
(* ===================================================================== *)

(** Go [error] values.  The sentinel errors of the package are constructors
    of their own, since the code compares them by identity;
    [fmt.Errorf] values keep their format string and the error, the byte
    or the byte slice that is formatted into it. *)
Inductive error : Type :=
| EOF                                   (* io.EOF *)
| ErrUnexpectedEOF                      (* io.ErrUnexpectedEOF *)
| ErrNet (msg : string)                 (* an error of package net *)
| UserAuthFailed
| NoSupportedAuth
| errUnrecognizedAddrType
| Errorf (msg : string)                 (* fmt.Errorf(msg) *)
| Errorf_v (format : string) (e : error)   (* fmt.Errorf(format, e) *)
| Errorf_b (format : string) (b : byte)    (* fmt.Errorf(format, b) *)
| Errorf_bs (format : string) (bs : list byte).  (* fmt.Errorf(format, bs), a []byte *)

#[global] Instance error_eq_dec : EqDecision error.
Proof. solve_decision. Defined.

Inductive result (A : Type) : Type :=
| Ok (a : A)
| Err (e : error).
Arguments Ok {A} a.
Arguments Err {A} e.

(* ===================================================================== *)
(** * The allocator                                                       *)
(* ===================================================================== *)

(** The [MemAllocation] interface.  [Free] has no effect that the server
    observes, so only [Alloc] is kept.  An allocator returns a slice of
    the requested size, as [Mem] does; the slices that the datagram
    constructors cut from it are within its bounds then. *)
Record MemAllocation : Type := { Alloc : nat -> list byte }.

(** [Mem.Alloc] is [make([]byte, size)]. *)
Definition Mem : MemAllocation := {| Alloc := fun size => repeat x00 size |}.

(* ===================================================================== *)
(** * datagram.go                                                          *)
(* ===================================================================== *)

(** Modelled from the spec: the address-type constants of the package
    (ATYP values IPv4=0x01, FQDN=0x03, IPv6=0x04). *)
Definition ipv4Address : byte := x01.
Definition fqdnAddress : byte := x03.
Definition ipv6Address : byte := x04.

Record Datagram : Type := mkDatagram {
  memCreater : MemAllocation;
  Rsv : list byte;
  Frag : byte;
  ATyp : byte;
  DstAddr : list byte;
  DstPort : list byte;
  Data : list byte
}.

Definition ErrDatagramIllegal : error := Errorf "Datagram Illegal".
Definition ErrDatagramSlice : error :=
  Errorf "Datagram Not Support Slice Transmission".
Definition ErrDatagramNoData : error := Errorf "Datagram Has No Data".

(** The [switch aTyp] of [NewDatagramFromByte]: the new [needLen] and the
    [dstAddr] sub-slice, or the error of the failing branch. *)
Definition parseDstAddr (bs : list byte) (aTyp : byte) (needLen : nat)
  : result (nat * list byte) :=
  let dataLen := length bs in
  if decide (aTyp = ipv4Address) then
    let needLen := needLen + 4 in
    if dataLen <? needLen then Err ErrDatagramIllegal
    else Ok (needLen, slice (needLen - 4) needLen bs)
  else if decide (aTyp = ipv6Address) then
    let needLen := needLen + 16 in
    if dataLen <? needLen then Err ErrDatagramIllegal
    else Ok (needLen, slice (needLen - 16) needLen bs)
  else if decide (aTyp = fqdnAddress) then
    let needLen := needLen + 1 in
    if dataLen <? needLen then Err ErrDatagramIllegal
    else
      let domainLen := int_of_byte (nth (needLen - 1) bs x00) in
      if domainLen =? 0 then Err ErrDatagramIllegal
      else
        let needLen := needLen + domainLen in
        if dataLen <? needLen then Err ErrDatagramIllegal
        else Ok (needLen, slice (needLen - domainLen) needLen bs)
  else Err ErrDatagramIllegal.

Definition NewDatagramFromByte (memCreater : MemAllocation) (bs : list byte)
  : result Datagram :=
  let needLen := 4 in
  let dataLen := length bs in
  if dataLen <=? needLen then Err ErrDatagramIllegal
  else
    let frag := nth 2 bs x00 in
    if negb (Byte.eqb frag x00) then Err ErrDatagramSlice
    else
      let aTyp := nth 3 bs x00 in
      match parseDstAddr bs aTyp needLen with
      | Err e => Err e
      | Ok (needLen, dstAddr) =>
          let needLen := needLen + 2 in
          if dataLen <? needLen then Err ErrDatagramIllegal
          else
            let dstPort := slice (needLen - 2) needLen bs in
            if Byte.eqb (nth 0 dstPort x00) x00 && Byte.eqb (nth 1 dstPort x00) x00
            then Err ErrDatagramIllegal
            else
              let rest := skipn needLen bs in
              if length rest =? 0 then Err ErrDatagramNoData
              else
                let buf :=
                  Alloc memCreater
                    (2 + length dstAddr + length dstPort + length rest) in
                let bufIdx := 0 in
                let rsv := copy (slice bufIdx (bufIdx + 2) buf) (firstn 2 bs) in
                let bufIdx := bufIdx + 2 in
                let addr :=
                  copy (slice bufIdx (bufIdx + length dstAddr) buf) dstAddr in
                let bufIdx := bufIdx + length dstAddr in
                let port :=
                  copy (slice bufIdx (bufIdx + length dstPort) buf) dstPort in
                let bufIdx := bufIdx + length dstPort in
                let data :=
                  copy (slice bufIdx (bufIdx + length rest) buf) rest in
                Ok {| memCreater := memCreater; Rsv := rsv; Frag := frag;
                      ATyp := aTyp; DstAddr := addr; DstPort := port;
                      Data := data |}
      end.

Definition NewDatagram (memCreater : MemAllocation) (aTyp : byte)
    (dstAddr dstPort data : list byte) : Datagram :=
  let dstAddr :=
    if decide (aTyp = fqdnAddress)
    then [byte_of_int (length dstAddr)] ++ dstAddr
    else dstAddr in
  let buf :=
    Alloc memCreater (2 + length dstAddr + length dstPort + length data) in
  let bufIdx := 0 in
  let rsv := slice bufIdx (bufIdx + 2) buf in
  let rsv := <[0 := x00]> rsv in
  let rsv := <[1 := x00]> rsv in
  let bufIdx := bufIdx + 2 in
  let addr := copy (slice bufIdx (bufIdx + length dstAddr) buf) dstAddr in
  let bufIdx := bufIdx + length dstAddr in
  let port := copy (slice bufIdx (bufIdx + length dstPort) buf) dstPort in
  let bufIdx := bufIdx + length dstPort in
  let payload := copy (slice bufIdx (bufIdx + length data) buf) data in
  {| memCreater := memCreater; Rsv := rsv; Frag := x00; ATyp := aTyp;
     DstAddr := addr; DstPort := port; Data := payload |}.

(** [toBytes] returns the length written, or [-1] when the datagram does not
    fit, next to the buffer after the writes.  An index outside the buffer
    is a Go panic, [None] here. *)
Definition toBytes (d : Datagram) (buf : list byte) : option (Z * list byte) :=
  let totalLen :=
    2 + 1 + 1 + length (DstAddr d) + length (DstPort d) + length (Data d) in
  if length buf <? totalLen then Some ((-1)%Z, buf)
  else
    let idx := 0 in
    let buf := copy buf (Rsv d) in
    let idx := idx + length (Rsv d) in
    buf ← set_at buf idx (Frag d);
    let idx := idx + 1 in
    buf ← set_at buf idx (ATyp d);
    let idx := idx + 1 in
    buf ← copy_at buf idx (DstAddr d);
    let idx := idx + length (DstAddr d) in
    buf ← copy_at buf idx (DstPort d);
    let idx := idx + length (DstPort d) in
    buf ← copy_at buf idx (Data d);
    Some (Z.of_nat totalLen, buf).

(** The bytes a caller sends after [n = d.toBytes(ctx, bs)]: [bs[:n]], as in
    [readFromDst], which gives up when [n <= 0]. *)
Definition encode (d : Datagram) (buf : list byte) : option (list byte) :=
  match toBytes d buf with
  | Some (n, buf') =>
      if (n <=? 0)%Z then None else Some (firstn (Z.to_nat n) buf')
  | None => None
  end.


(** ** [Datagram.Address] and the library functions it calls *)

(** Functions of Go's [net] package that the server calls and whose bodies
    are outside the repository. *)
Class NetLib : Type := {
  (** [net.IP(b).String()] *)
  IP_String : list byte -> string;
  (** [net.ParseIP(s)], [nil] (the empty slice) when [s] is no IP literal *)
  ParseIP : string -> list byte;
  (** [net.SplitHostPort(s)] *)
  SplitHostPort : string -> result (string * string);
  (** [strconv.Atoi(s)] with the error dropped, as every caller does *)
  Atoi : string -> nat;
  (** [net.ResolveIPAddr("ip", name)], the IP of the result *)
  ResolveIPAddr : string -> result (list byte)
}.

(** [binary.BigEndian.Uint16(b)]; it panics on fewer than two bytes. *)
Definition Uint16 (b : list byte) : option nat :=
  match b with
  | b0 :: b1 :: _ => Some (int_of_byte b1 + int_of_byte b0 * 256)
  | _ => None
  end.

(** [strconv.Itoa] on a non-negative [int]. *)
Definition Itoa (n : nat) : string := NilEmpty.string_of_uint (Nat.to_uint n).

Fixpoint has_colon (s : string) : bool :=
  match s with
  | EmptyString => false
  | String c s' => if Ascii.eqb c ":"%char then true else has_colon s'
  end.

(** [net.JoinHostPort]: a host with a colon is put in brackets. *)
Definition JoinHostPort (host port : string) : string :=
  if has_colon host then ("[" ++ host ++ "]:" ++ port)%string
  else (host ++ ":" ++ port)%string.

(** [d.DstAddr[1:]] panics on an empty slice, [Uint16] on a short one:
    [None] stands for the panic. *)
Definition Address `{NetLib} (d : Datagram) : option string :=
  s ← (if decide (ATyp d = fqdnAddress) then
         match DstAddr d with
         | [] => None
         | _ :: tl => Some (string_of_bytes tl)
         end
       else Some (IP_String (DstAddr d)));
  p ← Uint16 (DstPort d);
  Some (JoinHostPort s (Itoa p)).

(* ===================================================================== *)
(** * The control connection                                               *)
(* ===================================================================== *)

(** What happens on and around one accepted TCP connection, in order. *)
Inductive event : Type :=
| EvSend (bs : list byte)          (* one successful Write on the connection *)
| EvClose                          (* conn.Close() *)
| EvListen (addr : string)         (* BIND: the listener is open on addr *)
| EvCallBack (addr : string)       (* BIND: BindCallBack(addr) *)
| EvAccept (remote : string)       (* BIND: one connection accepted *)
| EvListenerClose                  (* BIND: listenTcp.Close() *)
| EvPeerSend (bs : list byte)      (* BIND: bytes written to the accepted peer *)
| EvPeerClose.                     (* BIND: tcpConn.Close() *)

(** The state of the control connection as the server sees it.  [reader]
    and [writer] arguments of the Go functions are the two halves of one
    such connection.
    - [c_in]: the bytes the client still sends; after them reads give EOF;
    - [c_writes]: how many further [Write] calls succeed before the
      connection is broken;
    - [c_trace]: the events so far, oldest first. *)
Record Conn : Type := mkConn {
  c_in : list byte;
  c_writes : nat;
  c_trace : list event
}.

Definition log_event (e : event) (c : Conn) : Conn :=
  {| c_in := c_in c; c_writes := c_writes c; c_trace := c_trace c ++ [e] |}.

(** Computations on the connection: state passing. *)
Definition IO (A : Type) : Type := Conn -> Conn * A.

Definition ret {A} (a : A) : IO A := fun c => (c, a).
Definition bind {A B} (m : IO A) (k : A -> IO B) : IO B :=
  fun c => let '(c', a) := m c in k a c'.

Declare Scope io_scope.
Delimit Scope io_scope with io.
Notation "x <- m ;; k" := (bind m (fun x => k))
  (at level 100, m at next level, right associativity) : io_scope.

Definition ErrBrokenPipe : error := ErrNet "write: broken pipe".

(** [w.Write(p)]: the error result ([nil] is [None]). *)
Definition Write (p : list byte) : IO (option error) := fun c =>
  match c_writes c with
  | 0 => (c, Some ErrBrokenPipe)
  | S k =>
      ({| c_in := c_in c; c_writes := k; c_trace := c_trace c ++ [EvSend p] |},
       None)
  end.

(** [r.Read(p)] with [len(p) = 1], on a buffered reader: one byte, or EOF. *)
Definition Read1 : IO (result byte) := fun c =>
  match c_in c with
  | [] => (c, Err EOF)
  | b :: rest =>
      ({| c_in := rest; c_writes := c_writes c; c_trace := c_trace c |}, Ok b)
  end.

(** [io.ReadAtLeast(r, buf, n)] with [len(buf) = n]: exactly [n] bytes, or
    an error after the stream is exhausted: [io.EOF] when nothing was read,
    [io.ErrUnexpectedEOF] otherwise.  With [n = 0] nothing is read. *)
Definition ReadAtLeast (n : nat) : IO (result (list byte)) := fun c =>
  if n <=? length (c_in c) then
    ({| c_in := skipn n (c_in c); c_writes := c_writes c;
        c_trace := c_trace c |}, Ok (firstn n (c_in c)))
  else
    ({| c_in := []; c_writes := c_writes c; c_trace := c_trace c |},
     Err (match c_in c with [] => EOF | _ => ErrUnexpectedEOF end)).

Definition Close : IO unit := fun c => (log_event EvClose c, tt).

(* ===================================================================== *)
(** * The credential store                                                *)
(* ===================================================================== *)

(** The [CredentialStore] interface. *)
Record CredentialStore : Type := { Valid : string -> string -> bool }.

(** [StaticCredentials] is a map from user to password. *)
Definition StaticCredentials (s : gmap string string) : CredentialStore :=
  {| Valid := fun user password =>
       match s !! user with
       | None => false
       | Some pass => bool_decide (password = pass)
       end |}.

(* ===================================================================== *)
(** * auth.go                                                              *)
(* ===================================================================== *)

Definition socks5Version : byte := x05.

Definition NoAuth : byte := x00.
Definition noAcceptable : byte := xff.
Definition UserPassAuth : byte := x02.
Definition userAuthVersion : byte := x01.
Definition authSuccess : byte := x00.
Definition authFailure : byte := x01.

(** [Payload] is a Go map; the nil map reads as the empty one. *)
Record AuthContext : Type := mkAuthContext {
  Method : byte;
  Payload : gmap string string
}.

(** The pair of an [AuthContext] pointer and an [error] that an
    authenticator returns; either component may be nil. *)
Definition AuthResult : Type := option AuthContext * option error.

(** The [Authenticator] interface. *)
Record Authenticator : Type := mkAuthenticator {
  Authenticate : IO AuthResult;
  GetCode : byte
}.

Definition NoAuth_Authenticate : IO AuthResult :=
  (err <- Write [socks5Version; NoAuth] ;;
   ret (Some {| Method := NoAuth; Payload := ∅ |}, err))%io.

Definition NoAuthAuthenticator : Authenticator :=
  {| Authenticate := NoAuth_Authenticate; GetCode := NoAuth |}.

Definition UserPass_Authenticate (Credentials : CredentialStore)
  : IO AuthResult :=
  ((* Tell the client to use user/pass auth *)
   err <- Write [socks5Version; UserPassAuth] ;;
   match err with
   | Some err => ret (None, Some err)
   | None =>
   (* Get the version and username length *)
   r <- ReadAtLeast 2 ;;
   match r with
   | Err err => ret (None, Some err)
   | Ok header =>
   (* Ensure we are compatible *)
   if decide (nth 0 header x00 ≠ userAuthVersion)
   then ret (None, Some (Errorf_b "Unsupported auth version: %v" (nth 0 header x00)))
   else
   (* Get the user name *)
   let userLen := int_of_byte (nth 1 header x00) in
   r <- ReadAtLeast userLen ;;
   match r with
   | Err err => ret (None, Some err)
   | Ok user =>
   (* Get the password length *)
   r <- Read1 ;;
   match r with
   | Err err => ret (None, Some err)
   | Ok header0 =>
   (* Get the password *)
   let passLen := int_of_byte header0 in
   r <- ReadAtLeast passLen ;;
   match r with
   | Err err => ret (None, Some err)
   | Ok pass =>
   (* Verify the password *)
   if Valid Credentials (string_of_bytes user) (string_of_bytes pass) then
     err <- Write [userAuthVersion; authSuccess] ;;
     match err with
     | Some err => ret (None, Some err)
     | None =>
         ret (Some {| Method := UserPassAuth;
                      Payload := {[ "Username" := string_of_bytes user ]} |},
              None)
     end
   else
     err <- Write [userAuthVersion; authFailure] ;;
     match err with
     | Some err => ret (None, Some err)
     | None => ret (None, Some UserAuthFailed)
     end
   end end end end end)%io.

Definition UserPassAuthenticator (Credentials : CredentialStore)
  : Authenticator :=
  {| Authenticate := UserPass_Authenticate Credentials;
     GetCode := UserPassAuth |}.

(** [noAcceptableAuth] drops the error of its write. *)
Definition noAcceptableAuth : IO error :=
  (_ <- Write [socks5Version; noAcceptable] ;; ret NoSupportedAuth)%io.

(** [readMethods] returns the slice next to the error. *)
Definition readMethods : IO (result (list byte)) :=
  (r <- Read1 ;;
   match r with
   | Err err => ret (Err err)
   | Ok header0 =>
       let numMethods := int_of_byte header0 in
       ReadAtLeast numMethods
   end)%io.

(** The [for _, method := range methods] loop of [authenticate], over the
    server's [authMethods] map. *)
Fixpoint selectMethod (authMethods : gmap byte Authenticator)
    (methods : list byte) : IO AuthResult :=
  match methods with
  | [] =>
      (* No usable method found *)
      (err <- noAcceptableAuth ;; ret (None, Some err))%io
  | method :: methods' =>
      match authMethods !! method with
      | Some cator => Authenticate cator
      | None => selectMethod authMethods methods'
      end
  end.

Definition authenticate_with (authMethods : gmap byte Authenticator)
  : IO AuthResult :=
  ((* Get the methods *)
   r <- readMethods ;;
   match r with
   | Err err => ret (None, Some (Errorf_v "Failed to get auth methods: %v" err))
   | Ok methods =>
       (* Select a usable method *)
       selectMethod authMethods methods
   end)%io.

(* ===================================================================== *)
(** * Requests and replies                                                *)
(* ===================================================================== *)

(** Modelled from the spec: the command codes of the package
    (CONNECT=1, BIND=2, ASSOCIATE=3). *)
Definition ConnectCommand : byte := x01.
Definition BindCommand : byte := x02.
Definition AssociateCommand : byte := x03.

(** Modelled from the spec: the REP codes that the handlers below use (success=0x00, server-failure=0x01,
    address-type-not-supported=0x08). *)
Definition successReply : byte := x00.
Definition serverFailure : byte := x01.
Definition addrTypeNotSupported : byte := x08.

(** Modelled from the spec: the [AddrSpec] struct.  The callers in
    [ServeConn], [doBind] and [doAssociate] fill [IP] and
    [Port]; [FQDN] is the domain name of the spec's AddressSpec. *)
Record AddrSpec : Type := mkAddrSpec {
  FQDN : string;
  IP : list byte;
  Port : nat
}.

(** Modelled from the spec: the [Request] struct.  The
    buffered reader of the spec's data model is the [c_in] of the
    connection state. *)
Record Request : Type := mkRequest {
  Version : byte;
  Command : byte;
  ReqAuthContext : option AuthContext;
  RemoteAddr : option AddrSpec;
  DestAddr : AddrSpec
}.

(** [ip.To4()]: the four-byte form of an IPv4 address, given as four bytes
    or as sixteen bytes with the IPv4-in-IPv6 prefix. *)
Definition To4 (ip : list byte) : option (list byte) :=
  if length ip =? 4 then Some ip
  else if (length ip =? 16)
          && bool_decide (firstn 12 ip = repeat x00 10 ++ [xff; xff])
  then Some (skipn 12 ip)
  else None.

(** Big-endian [uint16(port)]. *)
Definition port_bytes (port : nat) : list byte :=
  [byte_of_int ((port mod 65536) / 256); byte_of_int (port mod 256)].

Definition ErrFormatAddress : error := Errorf "Failed to format address".

(** Modelled from the spec: the reply frame that [sendReply] writes,
    [[VER=5][REP][RSV=0][ATYP][BND.ADDR][BND.PORT]];
    a reply without address carries ATYP=IPv4 with a zero address and a
    zero port.  The spec gives no frame for an address that is neither a
    name nor an IP of four or sixteen bytes: it is an error here. *)
Definition replyFrame (resp : byte) (addr : option AddrSpec)
  : result (list byte) :=
  let body :=
    match addr with
    | None => Ok (ipv4Address, [x00; x00; x00; x00], 0)
    | Some a =>
        if negb (String.eqb (FQDN a) EmptyString) then
          Ok (fqdnAddress,
              [byte_of_int (String.length (FQDN a))] ++ bytes_of_string (FQDN a),
              Port a)
        else
          match To4 (IP a) with
          | Some ip4 => Ok (ipv4Address, ip4, Port a)
          | None =>
              if length (IP a) =? 16 then Ok (ipv6Address, IP a, Port a)
              else Err ErrFormatAddress
          end
    end in
  match body with
  | Err e => Err e
  | Ok (addrType, addrBody, addrPort) =>
      Ok ([socks5Version; resp; x00; addrType] ++ addrBody ++ port_bytes addrPort)
  end.

(** Modelled from the spec: [sendReply] writes the frame
    in one [Write]. *)
Definition sendReply (resp : byte) (addr : option AddrSpec) : IO (option error) :=
  match replyFrame resp addr with
  | Err e => ret (Some e)
  | Ok msg => Write msg
  end.

(** Modelled from the spec: the address part of a request, read by the
    ATYP rules IPv4 (4 bytes), FQDN (1 length byte and that many bytes),
    IPv6 (16 bytes), then a two-byte big-endian port; any other ATYP is the
    distinguished address-type-not-supported error. *)
Definition readAddrSpec (atyp : byte) : IO (result AddrSpec) :=
  (r <- (if decide (atyp = ipv4Address) then
           r <- ReadAtLeast 4 ;;
           match r with
           | Err e => ret (Err e)
           | Ok addr => ret (Ok (EmptyString, addr))
           end
         else if decide (atyp = ipv6Address) then
           r <- ReadAtLeast 16 ;;
           match r with
           | Err e => ret (Err e)
           | Ok addr => ret (Ok (EmptyString, addr))
           end
         else if decide (atyp = fqdnAddress) then
           r <- Read1 ;;
           match r with
           | Err e => ret (Err e)
           | Ok n =>
               r <- ReadAtLeast (int_of_byte n) ;;
               match r with
               | Err e => ret (Err e)
               | Ok name => ret (Ok (string_of_bytes name, []))
               end
           end
         else ret (Err errUnrecognizedAddrType)) ;;
   match r with
   | Err e => ret (Err e)
   | Ok (fqdn, ip) =>
       r <- ReadAtLeast 2 ;;
       match r with
       | Err e => ret (Err e)
       | Ok port =>
           ret (Ok {| FQDN := fqdn; IP := ip;
                      Port := int_of_byte (nth 0 port x00) * 256
                              + int_of_byte (nth 1 port x00) |})
       end
   end)%io.

(** Modelled from the spec: [NewRequest] reads the four
    header bytes VER, CMD, RSV, ATYP, fails if VER is not 5, then reads
    the destination. *)
Definition NewRequest : IO (result Request) :=
  (r <- ReadAtLeast 4 ;;
   match r with
   | Err e => ret (Err (Errorf_v "Failed to get command version: %v" e))
   | Ok header =>
       if decide (nth 0 header x00 ≠ socks5Version)
       then ret (Err (Errorf_b "Unsupported command version: %v" (nth 0 header x00)))
       else
         r <- readAddrSpec (nth 3 header x00) ;;
         match r with
         | Err e => ret (Err e)
         | Ok dest =>
             ret (Ok {| Version := socks5Version;
                        Command := nth 1 header x00;
                        ReqAuthContext := None;
                        RemoteAddr := None;
                        DestAddr := dest |})
         end
   end)%io.

(* ===================================================================== *)
(** * Rule sets and resolvers                                             *)
(* ===================================================================== *)

(** The [RuleSet] interface; the context it threads is not modelled. *)
Record RuleSet : Type := { Allow : Request -> bool }.

Definition PermitCommand (EnableConnect EnableBind EnableAssociate : bool)
  : RuleSet :=
  {| Allow := fun req =>
       if decide (Command req = ConnectCommand) then EnableConnect
       else if decide (Command req = BindCommand) then EnableBind
       else if decide (Command req = AssociateCommand) then EnableAssociate
       else false |}.

Definition PermitAll : RuleSet := PermitCommand true true true.
Definition PermitNone : RuleSet := PermitCommand false false false.

(** The [NameResolver] interface. *)
Record NameResolver : Type := { Resolve : string -> result (list byte) }.

Definition DNSResolver `{NetLib} : NameResolver :=
  {| Resolve := fun name => ResolveIPAddr name |}.

(* ===================================================================== *)
(** * socks5.go                                                            *)
(* ===================================================================== *)

(** [*log.Logger]: where it writes, its prefix and flags.  What the server
    logs is not part of the model. *)
Record Logger : Type := { log_out : string; log_prefix : string; log_flags : nat }.

(** [log.New(os.Stdout, EmptyString, log.LstdFlags)] *)
Definition stdLogger : Logger :=
  {| log_out := "os.Stdout"; log_prefix := EmptyString; log_flags := 3 |}.

(** [Config.Dial]: network and address to the error of the dial. *)
Definition Dialer : Type := string -> string -> option error.

(** The [MemMgr] interface. *)
Record MemMgr : Type := { Create : MemAllocation }.

(** The [AddressRewriter] interface. *)
Record AddressRewriter : Type := { Rewrite : Request -> AddrSpec }.

(** Interface-typed and pointer-typed fields are [option]s, [None] for nil. *)
Record Config : Type := mkConfig {
  AuthMethods : list Authenticator;
  Credentials : option CredentialStore;
  Resolver : option NameResolver;
  Rules : option RuleSet;
  Rewriter : option AddressRewriter;
  BindIP : list byte;
  CfgLogger : option Logger;
  Dial : option Dialer;
  CfgMem : option MemMgr
}.

Record Server : Type := mkServer {
  config : Config;
  authMethods : gmap byte Authenticator;
  isIPAllowed : list byte -> bool
}.

(** The [for _, a := range conf.AuthMethods] loop of [New]. *)
Definition indexAuthMethods (l : list Authenticator) : gmap byte Authenticator :=
  foldl (fun m a => <[GetCode a := a]> m) ∅ l.

(** [New] writes the defaults into [conf], which the server then holds. *)
Definition New `{NetLib} (conf : Config) : Server * option error :=
  (* Ensure we have at least one authentication method enabled *)
  let authMethods0 :=
    if length (AuthMethods conf) =? 0 then
      match Credentials conf with
      | Some creds => [UserPassAuthenticator creds]
      | None => [NoAuthAuthenticator]
      end
    else AuthMethods conf in
  (* Ensure we have a DNS resolver *)
  let resolver :=
    match Resolver conf with
    | None => Some DNSResolver
    | Some r => Some r
    end in
  (* Ensure we have a rule set *)
  let rules :=
    match Rules conf with
    | None => Some PermitAll
    | Some r => Some r
    end in
  (* Ensure a log target is configured *)
  let logger :=
    match CfgLogger conf with
    | None => Some stdLogger
    | Some l => Some l
    end in
  let conf :=
    {| AuthMethods := authMethods0; Credentials := Credentials conf;
       Resolver := resolver; Rules := rules; Rewriter := Rewriter conf;
       BindIP := BindIP conf; CfgLogger := logger; Dial := Dial conf;
       CfgMem := CfgMem conf |} in
  ({| config := conf;
      (* Populate the authentication methods map *)
      authMethods := indexAuthMethods (AuthMethods conf);
      (* By default, allow all IPs *)
      isIPAllowed := fun ip => true |},
   None).

(** [ip.Equal(x)]: the same address, an IPv4 address and its sixteen-byte
    form being equal. *)
Definition IP_Equal (ip x : list byte) : bool :=
  if (length ip =? length x) then bool_decide (ip = x)
  else if (length ip =? 4) && (length x =? 16) then bool_decide (To4 x = Some ip)
  else if (length ip =? 16) && (length x =? 4) then bool_decide (To4 ip = Some x)
  else false.

Definition SetIPAllowlist (s : Server) (allowedIPs : list (list byte)) : Server :=
  {| config := config s; authMethods := authMethods s;
     isIPAllowed := fun ip => existsb (fun allowedIP => IP_Equal ip allowedIP) allowedIPs |}.

Definition authenticate (s : Server) : IO AuthResult :=
  authenticate_with (authMethods s).

(** [conn.RemoteAddr()]: its [String()], and the IP and port when it is a
    [*net.TCPAddr]. *)
Record Addr : Type := { addr_String : string; addr_TCP : option (list byte * nat) }.

Section ServeConn.
Context `{NetLib}.

(** [handleRequest], the policy pipeline and the dispatch to the command
    handlers, is a parameter of the driver. *)
Variable handleRequest : Server -> Request -> IO (option error).

Definition ServeConn (s : Server) (remoteAddr : Addr) : IO (option error) :=
  (err <-
     ((* Check client IP against allowlist *)
      match SplitHostPort (addr_String remoteAddr) with
      | Err err => ret (Some err)
      | Ok (clientIP, _) =>
      let ip := ParseIP clientIP in
      if negb (isIPAllowed s ip)
      then ret (Some (Errorf "connection from not allowed IP address"))
      else
      (* Read the version byte *)
      r <- Read1 ;;
      match r with
      | Err err => ret (Some err)
      | Ok version =>
      (* Ensure we are compatible with SOCKS5; the error formats the
         one-byte slice that was read into, not the byte *)
      if decide (version ≠ socks5Version)
      then ret (Some (Errorf_bs "unsupported SOCKS version: %v" [version]))
      else
      (* Authenticate the connection *)
      a <- authenticate s ;;
      match a with
      | (_, Some err) => ret (Some (Errorf_v "failed to authenticate: %v" err))
      | (authContext, None) =>
      (* Read the client's request *)
      r <- NewRequest ;;
      match r with
      | Err err =>
          if decide (err = errUnrecognizedAddrType) then
            e <- sendReply addrTypeNotSupported None ;;
            match e with
            | Some err' => ret (Some (Errorf_v "failed to send reply: %v" err'))
            | None =>
                ret (Some (Errorf_v "failed to read destination address: %v" err))
            end
          else ret (Some (Errorf_v "failed to read destination address: %v" err))
      | Ok request =>
          let request :=
            {| Version := Version request; Command := Command request;
               ReqAuthContext := authContext;
               RemoteAddr :=
                 match addr_TCP remoteAddr with
                 | Some (ip, port) => Some {| FQDN := EmptyString; IP := ip; Port := port |}
                 | None => RemoteAddr request
                 end;
               DestAddr := DestAddr request |} in
          (* Process the client request *)
          e <- handleRequest s request ;;
          match e with
          | Some err => ret (Some (Errorf_v "failed to handle request: %v" err))
          | None => ret None
          end
      end end end end) ;;
   (* defer conn.Close() *)
   _ <- Close ;;
   ret err)%io.
End ServeConn.

(* ===================================================================== *)
(** * The BIND handler                                                    *)
(* ===================================================================== *)

(** How a handler ends: it returns its error, or it waits for ever on an
    operation that the environment never completes. *)
Inductive outcome : Type :=
| Returned (err : option error)
| Blocked.

(** A connection that [Accept] returns: its [RemoteAddr().String()] and the
    bytes the peer sends on it before closing. *)
Record TCPPeer : Type := { peer_remote : string; peer_in : list byte }.

(** What the network does during one BIND:
    - [env_listen]: the result of [net.Listen("tcp", "0.0.0.0:0")], the
      [Addr().String()] of the listener or the error;
    - [env_accept]: the results of the successive [Accept] calls; when
      the list is used up, [Accept] does not return. *)
Record BindEnv : Type := {
  env_listen : result string;
  env_accept : list (result TCPPeer)
}.

(** A deferred call runs when the function returns. *)
Definition defer (cleanup : IO unit) (body : IO outcome) : IO outcome :=
  (r <- body ;;
   match r with
   | Blocked => ret Blocked
   | Returned err => _ <- cleanup ;; ret (Returned err)
   end)%io.

Definition log (e : event) : IO unit := fun c => (log_event e c, tt).

(** Modelled from the spec: the two [proxy] tasks relay
    the bytes of each side to the other until the source is at its end.
    [io.Copy] makes no [Write] for an empty source. *)
Definition proxy_to_peer : IO (option error) := fun c =>
  match c_in c with
  | [] => (c, None)
  | bs =>
      ({| c_in := []; c_writes := c_writes c;
          c_trace := c_trace c ++ [EvPeerSend bs] |}, None)
  end.

Definition proxy_to_client (peer : TCPPeer) : IO (option error) :=
  match peer_in peer with
  | [] => ret None
  | bs => Write bs
  end.

Section Bind.
Context `{NetLib}.

(** The global [BindCallBack] is set or nil. *)
Variable BindCallBack : bool.

Definition doBind (s : Server) (env : BindEnv) (req : Request) : IO outcome :=
  ((* Listen on a random TCP port. *)
   match env_listen env with
   | Err err =>
       _ <- sendReply serverFailure None ;;
       ret (Returned (Some err))
   | Ok listenAddr =>
   defer (log EvListenerClose)
   (_ <- log (EvListen listenAddr) ;;
    _ <- (if BindCallBack then log (EvCallBack listenAddr) else ret tt) ;;
    (* Extract the bound port from the listener address. *)
    match SplitHostPort listenAddr with
    | Err err =>
        ret (Returned (Some (Errorf_v "doBind Failed to SplitHostPort: %v" err)))
    | Ok (_, port) =>
    let bindPort := Atoi port in
    (* Send the bind address back to the client. *)
    let bindAddr := {| FQDN := EmptyString; IP := BindIP (config s); Port := bindPort |} in
    e <- sendReply successReply (Some bindAddr) ;;
    match e with
    | Some err =>
        ret (Returned (Some (Errorf_v "doBind Failed to send reply: %v" err)))
    | None =>
    (* Accept an incoming connection: the loop body runs once, it
       returns on an error and breaks otherwise. *)
    match env_accept env with
    | [] => ret Blocked
    | Err err :: _ =>
        _ <- sendReply serverFailure None ;;
        ret (Returned (Some err))
    | Ok tcpConn :: _ =>
    _ <- log (EvAccept (peer_remote tcpConn)) ;;
    defer (log EvPeerClose)
    ((* Extract the remote IP and port from the accepted connection. *)
     match SplitHostPort (peer_remote tcpConn) with
     | Err err =>
         _ <- sendReply serverFailure None ;;
         ret (Returned (Some err))
     | Ok (remoteIp, port) =>
     let remotePort := Atoi port in
     (* Send the accepted connection address back to the client. *)
     let acceptAddr :=
       {| FQDN := EmptyString; IP := ParseIP remoteIp; Port := remotePort |} in
     e <- sendReply successReply (Some acceptAddr) ;;
     match e with
     | Some err =>
         ret (Returned (Some (Errorf_v "doBind Failed to send reply: %v" err)))
     | None =>
     (* The two proxy tasks, then the wait for both. *)
     e1 <- proxy_to_peer ;;
     e2 <- proxy_to_client tcpConn ;;
     match e1, e2 with
     | Some e, _ => ret (Returned (Some e))
     | None, Some e => ret (Returned (Some e))
     | None, None => ret (Returned None)
     end
     end end)
    end end end)
   end)%io.
End Bind.

(* ===================================================================== *)
(** * associate.go                                                         *)
(* ===================================================================== *)

(** The client's [*net.UDPAddr], by its [String()]. *)
Definition UDPAddr : Type := string.

(** A [UdpPeer].  [dst] is the outbound socket, named by the order in which
    the sockets were dialled; the [udpServer] and [req] pointers are the
    handler's own and are left out. *)
Record UdpPeer : Type := mkUdpPeer {
  updateTime : Z;
  from : UDPAddr;
  dst : nat;
  atyp : byte;
  dstAddr : list byte;
  dstPort : list byte
}.

Definition touch (now : Z) (p : UdpPeer) : UdpPeer :=
  {| updateTime := now; from := from p; dst := dst p; atyp := atyp p;
     dstAddr := dstAddr p; dstPort := dstPort p |}.

(** What the handler does to its sockets, in order. *)
Inductive uevent : Type :=
| UDial (sock : nat) (addr : string)        (* a socket connected to addr *)
| USockWrite (sock : nat) (data : list byte)
| USockClose (sock : nat)                   (* dst.Close() *)
| UClientSend (to : UDPAddr) (bs : list byte) (* udpServer.WriteToUDP *)
| UServerClose.                             (* udpServer.Close() *)

(** The state of one UDP ASSOCIATE handler.
    - [peers]: the map [UdpAssociate.m], from key to [*UdpPeer];
    - [heap]: the [UdpPeer] structs behind the pointers.  A struct is
      shared by the table and by the [readFromDst] task of its flow; one
      struct is made per socket, so the socket number names it;
    - [tasks]: the sockets whose [readFromDst] task is running;
    - [nsock]: how many sockets were dialled so far;
    - [drained]: the task that discards the control connection's bytes
      has returned;
    - [utrace]: the events so far, oldest first. *)
Record Relay : Type := mkRelay {
  peers : gmap string nat;
  heap : gmap nat UdpPeer;
  tasks : gset nat;
  nsock : nat;
  drained : bool;
  utrace : list uevent
}.

Definition NewUdpAssociate : Relay :=
  {| peers := ∅; heap := ∅; tasks := ∅; nsock := 0; drained := false;
     utrace := [] |}.

Definition ulog (es : list uevent) (st : Relay) : Relay :=
  {| peers := peers st; heap := heap st; tasks := tasks st;
     nsock := nsock st; drained := drained st; utrace := utrace st ++ es |}.

(** [ua.Set(key, u)] *)
Definition UA_Set (key : string) (u : nat) (st : Relay) : Relay :=
  {| peers := <[key := u]> (peers st); heap := heap st; tasks := tasks st;
     nsock := nsock st; drained := drained st; utrace := utrace st |}.

(** [ua.Get(key)]: the pointer in the table, if any. *)
Definition UA_Get (key : string) (st : Relay) : option nat :=
  peers st !! key.

(** [ua.Del(key)] *)
Definition UA_Del (key : string) (st : Relay) : Relay :=
  {| peers := delete key (peers st); heap := heap st; tasks := tasks st;
     nsock := nsock st; drained := drained st; utrace := utrace st |}.

(** [ua.CloseAll()]: every socket in the table is closed; the entries stay.
    Go ranges over a map in no fixed order, here it is the order of
    [map_to_list]. *)
Definition CloseAll (st : Relay) : Relay :=
  ulog (USockClose <$> (map_to_list (peers st)).*2) st.

(** A write through a [*UdpPeer]. *)
Definition setUpdateTime (p : nat) (now : Z) (st : Relay) : Relay :=
  {| peers := peers st; heap := alter (touch now) p (heap st);
     tasks := tasks st; nsock := nsock st; drained := drained st; utrace := utrace st |}.

(** What the environment does in one step of a UDP ASSOCIATE:
    - [InCtrl]: the read on the TCP control connection returns EOF or an
      error, so that the task discarding its bytes returns;
    - [InUdp r dialErr writeErr now]: [udpServer.ReadFromUdp] returns [r],
      the source and the bytes of a datagram, or an error; [dialErr] is
      what [net.Dial] returns if the handler dials, [writeErr] what the
      write to the outbound socket returns, [now] the clock;
    - [InDst sock r sendErr now]: the read on outbound socket [sock]
      returns [r]; [sendErr] is what [WriteToUDP] returns. *)
Inductive step_input : Type :=
| InCtrl
| InUdp (r : result (UDPAddr * list byte)) (dialErr writeErr : option error)
        (now : Z)
| InDst (sock : nat) (r : result (list byte)) (sendErr : option error)
        (now : Z).

Inductive routcome : Type :=
| RReturned (st : Relay) (err : error)
| RBlocked (st : Relay)       (* the handler waits for the next datagram *)
| RPanic.

(** The size of the two receive buffers, [make([]byte, 65536)]. *)
Definition udpBufSize : nat := 65536.
Arguments udpBufSize : simpl never.

Section Associate.
Context `{NetLib}.

(** The tail of [handleDatagram]: the write to the target. *)
Definition writeToDst (st : Relay) (key : string) (udpPeer : UdpPeer)
    (data : list byte) (writeErr : option error) (now : Z) : Relay :=
  match writeErr with
  | Some err =>
      (* This should generally not happen *)
      UA_Del key (ulog [USockClose (dst udpPeer)] st)
  | None =>
      (* Update the timestamp *)
      setUpdateTime (dst udpPeer) now (ulog [USockWrite (dst udpPeer) data] st)
  end.

(** [handleDatagram]: the new state and the returned error; [None] is a
    panic, in [datagram.Address()] or on a pointer without struct. *)
Definition handleDatagram (s : Server) (st : Relay) (from : UDPAddr)
    (datagram : Datagram) (dialErr writeErr : option error) (now : Z)
  : option (Relay * option error) :=
  (* Calculate the key *)
  addr ← Address datagram;
  let key := (from ++ "-" ++ addr)%string in
  match UA_Get key st with
  | None =>
      (* New connection: attempt to connect *)
      let dial :=
        match Dial (config s) with
        | Some dial => dial
        | None => fun _ _ => dialErr
        end in
      match dial "udp" addr with
      | Some err =>
          (* the message also prints req.DestAddr, which is not kept *)
          Some (st, Some (Errorf_v "Connect to %v failed: %v" err))
      | None =>
          let sock := nsock st in
          (* Create a new connection *)
          let udpPeer :=
            {| updateTime := now; from := from; dst := sock;
               atyp := ATyp datagram;
               dstAddr := copy (repeat x00 (length (DstAddr datagram)))
                               (DstAddr datagram);
               dstPort := copy (repeat x00 (length (DstPort datagram)))
                               (DstPort datagram) |} in
          let st :=
            {| peers := peers st; heap := <[sock := udpPeer]> (heap st);
               tasks := {[sock]} ∪ tasks st; nsock := S (nsock st);
               drained := drained st;
               utrace := utrace st ++ [UDial sock addr] |} in
          let st := UA_Set key sock st in
          Some (writeToDst st key udpPeer (Data datagram) writeErr now, None)
      end
  | Some ptr =>
      udpPeer ← heap st !! ptr;
      Some (writeToDst st key udpPeer (Data datagram) writeErr now, None)
  end.

(** One round of the loop of [readFromDst] for the task of socket
    [sock]; the task ends on every error.  [None] is a panic of the
    task, an index outside the buffer in [toBytes]; a step for a socket
    without a running task changes nothing. *)
Definition readFromDst (memCreater : MemAllocation) (st : Relay) (sock : nat)
    (r : result (list byte)) (sendErr : option error) (now : Z)
  : option Relay :=
  let exit :=
    {| peers := peers st; heap := heap st; tasks := tasks st ∖ {[sock]};
       nsock := nsock st; drained := drained st; utrace := utrace st |} in
  if negb (bool_decide (sock ∈ tasks st)) then Some st
  else
    match heap st !! sock, r with
    | None, _ => Some st
    | Some udpPeer, Err err => Some exit
    | Some udpPeer, Ok data =>
        let bs := copy (repeat x00 udpBufSize) data in
        let n := Nat.min (length data) udpBufSize in
        let datagram :=
          NewDatagram memCreater (atyp udpPeer) (dstAddr udpPeer)
                      (dstPort udpPeer) (firstn n bs) in
        match toBytes datagram bs with
        | None => None
        | Some (n, bs) =>
            if (n <=? 0)%Z then Some exit
            else
              match sendErr with
              | Some err => Some exit
              | None =>
                  Some (setUpdateTime sock now
                          (ulog [UClientSend (from udpPeer)
                                   (firstn (Z.to_nat n) bs)] st))
              end
        end
    end.

(** The task started by [doAssociate] that copies the control connection
    to [io.Discard]: when the copy ends the task returns. *)
Definition drainReturns (st : Relay) : Relay :=
  {| peers := peers st; heap := heap st; tasks := tasks st;
     nsock := nsock st; drained := true; utrace := utrace st |}.

(** The loop of [readFromSrc], interleaved with the other tasks of the
    handler in the order the environment's steps arrive. *)
Fixpoint readFromSrc_loop (s : Server) (memCreater : MemAllocation)
    (script : list step_input) (st : Relay) : routcome :=
  match script with
  | [] => RBlocked st
  | InCtrl :: script' =>
      readFromSrc_loop s memCreater script' (drainReturns st)
  | InDst sock r sendErr now :: script' =>
      (* a panic in a task ends the process *)
      match readFromDst memCreater st sock r sendErr now with
      | None => RPanic
      | Some st' => readFromSrc_loop s memCreater script' st'
      end
  | InUdp r dialErr writeErr now :: script' =>
      (* Read data from the client *)
      match r with
      | Err err => RReturned (CloseAll st) err
      | Ok (from, bs) =>
          (* Parse the data *)
          match NewDatagramFromByte memCreater (firstn udpBufSize bs) with
          | Err err => RReturned (CloseAll st) err
          | Ok datagram =>
              (* Process the data; the error it returns is dropped *)
              match handleDatagram s st from datagram dialErr writeErr now with
              | None => RPanic
              | Some (st', _) => readFromSrc_loop s memCreater script' st'
              end
          end
      end
  end.

Definition readFromSrc (s : Server) (memCreater : MemAllocation)
    (script : list step_input) : routcome :=
  readFromSrc_loop s memCreater script NewUdpAssociate.

(** [doAssociate]; [udpListen] is the result of binding the UDP socket,
    its [LocalAddr().String()] or the error. *)
Definition doAssociate (s : Server) (udpListen : result string)
    (script : list step_input) : IO routcome :=
  (match udpListen with
   | Err err =>
       ret (RReturned NewUdpAssociate
              (Errorf_v "doAssociate Failed to bind UDP server: %v" err))
   | Ok localAddr =>
   match SplitHostPort localAddr with
   | Err err =>
       ret (RReturned NewUdpAssociate
              (Errorf_v "doAssociate Failed to SplitHostPort: %v" err))
   | Ok (_, port) =>
   let bindPort := Atoi port in
   (* defer udpServer.Close() *)
   let deferred (o : routcome) :=
     match o with
     | RReturned st err => RReturned (ulog [UServerClose] st) err
     | o => o
     end in
   (* Create a memory allocator *)
   let memCreater :=
     match CfgMem (config s) with
     | Some mem => Create mem
     | None => Mem
     end in
   (* go func() { io.Copy(io.Discard, conn) }() *)
   (* Send success response *)
   let bindAddr := {| FQDN := EmptyString; IP := BindIP (config s); Port := bindPort |} in
   e <- sendReply successReply (Some bindAddr) ;;
   match e with
   | Some err =>
       ret (deferred (RReturned NewUdpAssociate
              (Errorf_v "doAssociate Failed to send reply: %v" err)))
   | None => ret (deferred (readFromSrc s memCreater script))
   end
   end end)%io.
End Associate.

(* ===================================================================== *)
(** * A [NetLib] for the examples                                          *)
(* ===================================================================== *)

(** The examples below run the handlers on IPv4 literals.  [exampleNet]
    implements the library functions for them: dotted-quad addresses,
    decimal ports, [host:port] pairs. *)

(** The fields of [s] between the separators [sep]. *)
Fixpoint split_on (sep : ascii) (s : string) : list string :=
  match s with
  | EmptyString => [EmptyString]
  | String c s' =>
      if Ascii.eqb c sep then EmptyString :: split_on sep s'
      else
        match split_on sep s' with
        | [] => [String c EmptyString]
        | f :: fs => String c f :: fs
        end
  end.

Definition join_with (sep : string) (l : list string) : string :=
  String.concat sep l.

Definition example_Atoi (s : string) : nat :=
  match NilEmpty.uint_of_string s with
  | Some u => Nat.of_uint u
  | None => 0
  end.

Definition example_SplitHostPort (s : string) : result (string * string) :=
  match reverse (split_on ":" s) with
  | port :: (_ :: _) as host =>
      Ok (join_with ":" (reverse host), port)
  | _ => Err (ErrNet "missing port in address")
  end.

(** An IPv4 literal in the sixteen-byte form, as [net.ParseIP] gives it;
    [[]] (nil) for anything else. *)
Definition example_ParseIP (s : string) : list byte :=
  let fields := split_on "." s in
  if (length fields =? 4)
     && forallb (fun f => match NilEmpty.uint_of_string f with
                          | Some _ => (0 <? String.length f) && (example_Atoi f <=? 255)
                          | None => false
                          end) fields
  then repeat x00 10 ++ [xff; xff] ++ map (fun f => byte_of_int (example_Atoi f)) fields
  else [].

Definition example_IP_String (ip : list byte) : string :=
  match To4 ip with
  | Some ip4 => join_with "." (map (fun b => Itoa (int_of_byte b)) ip4)
  | None => "?"
  end.

Definition example_ResolveIPAddr (name : string) : result (list byte) :=
  match example_ParseIP name with
  | [] => Err (ErrNet "no such host")
  | ip => Ok ip
  end.

Definition exampleNet : NetLib :=
  {| IP_String := example_IP_String;
     ParseIP := example_ParseIP;
     SplitHostPort := example_SplitHostPort;
     Atoi := example_Atoi;
     ResolveIPAddr := example_ResolveIPAddr |}.

(* ===================================================================== *)
(** * Notions used in the statements                                       *)
(* ===================================================================== *)

(** The DST.ADDR field on the wire for an address [addr]: a name is
    preceded by its length byte. *)
Definition wire_addr (aTyp : byte) (addr : list byte) : list byte :=
  if decide (aTyp = fqdnAddress) then [byte_of_int (length addr)] ++ addr
  else addr.

(** The address has the size its type asks for: 4 bytes for IPv4, 16 for
    IPv6, 1 to 255 for a name. *)
Definition valid_addr (aTyp : byte) (addr : list byte) : bool :=
  if decide (aTyp = ipv4Address) then length addr =? 4
  else if decide (aTyp = ipv6Address) then length addr =? 16
  else if decide (aTyp = fqdnAddress) then
    (1 <=? length addr) && (length addr <=? 255)
  else false.

(** A computation that only reads leaves the trace and the writer alone. *)
Definition reads_only {A} (m : IO A) : Prop :=
  forall c, c_trace (fst (m c)) = c_trace c
            /\ c_writes (fst (m c)) = c_writes c.

(** The events of the BIND relay after the second reply: what the client
    still sends goes to the peer, what the peer sends to the client. *)
Definition relay_events (clientIn peerIn : list byte) : list event :=
  match clientIn with [] => [] | bs => [EvPeerSend bs] end
  ++ match peerIn with [] => [] | bs => [EvSend bs] end.

(* ===================================================================== *)
(** * The inputs of the examples                                           *)
(* ===================================================================== *)

(** A server with the default configuration and bind IP 127.0.0.1: the
    only method is no-auth. *)
Definition exServer : Server :=
  fst (@New exampleNet
         (mkConfig [] None None None None [x7f; x00; x00; x01] None None None)).

(** The credentials of the tests, user [foo] with password [bar], and a
    server that asks for them. *)
Definition exCreds : CredentialStore := StaticCredentials {[ "foo" := "bar" ]}.

Definition exAuthServer : Server :=
  fst (@New exampleNet
         (mkConfig [UserPassAuthenticator exCreds] None None None None
                   [x7f; x00; x00; x01] None None None)).

Definition exClient : Addr :=
  {| addr_String := "127.0.0.1:5000";
     addr_TCP := Some ([x7f; x00; x00; x01], 5000) |}.

Definition exHandleRequest : Server -> Request -> IO (option error) :=
  fun _ _ => ret None.

(** A BIND on which the listener gets port 40001 and a peer connects from
    10.0.0.5:54321 and sends [hi]. *)
Definition exPeer : TCPPeer :=
  {| peer_remote := "10.0.0.5:54321"; peer_in := [x68; x69] |}.

Definition exBindEnv : BindEnv :=
  {| env_listen := Ok "0.0.0.0:40001"; env_accept := [Ok exPeer] |}.

(** BIND 192.168.1.2:8080 *)
Definition exBindRequest : Request :=
  {| Version := x05; Command := BindCommand; ReqAuthContext := None;
     RemoteAddr := None;
     DestAddr := {| FQDN := EmptyString; IP := [xc0; xa8; x01; x02]; Port := 8080 |} |}.

(** What [readFromDst] builds for a flow to the name [ab], port 8888, when
    the target answers [po]. *)
Definition exNameDatagram : Datagram :=
  NewDatagram Mem fqdnAddress [x61; x62] [x22; xb8] [x70; x6f].

(** The frame of a datagram for the name [ab], port 8888, payload [po]. *)
Definition exNameFrame : list byte :=
  [x00; x00; x00; x03; x02; x61; x62; x22; xb8; x70; x6f].

(** The datagram [ping] for 127.0.0.1:8888. *)
Definition exPing : list byte :=
  [x00; x00; x00; x01; x7f; x00; x00; x01; x22; xb8; x70; x69; x6e; x67].

Definition exPingDatagram : Datagram :=
  {| memCreater := Mem; Rsv := [x00; x00]; Frag := x00; ATyp := ipv4Address;
     DstAddr := [x7f; x00; x00; x01]; DstPort := [x22; xb8];
     Data := [x70; x69; x6e; x67] |}.

Definition exFrom : UDPAddr := "10.0.0.9:4000".

(** The handler state after the first [ping] of [exFrom]: one flow. *)
Definition exOneFlow : Relay :=
  {| peers := {[ "10.0.0.9:4000-127.0.0.1:8888" := 0 ]};
     heap := {[ 0 := {| updateTime := 0; from := exFrom; dst := 0;
                        atyp := ipv4Address;
                        dstAddr := [x7f; x00; x00; x01];
                        dstPort := [x22; xb8] |} ]};
     tasks := {[ 0 ]};
     nsock := 1;
     drained := false;
     utrace := [UDial 0 "127.0.0.1:8888";
                USockWrite 0 [x70; x69; x6e; x67]] |}.

(** The datagram [ping] for 127.0.0.1:9999. *)
Definition exPing2 : list byte :=
  [x00; x00; x00; x01; x7f; x00; x00; x01; x27; x0f; x70; x69; x6e; x67].

Definition exPing2Datagram : Datagram :=
  {| memCreater := Mem; Rsv := [x00; x00]; Frag := x00; ATyp := ipv4Address;
     DstAddr := [x7f; x00; x00; x01]; DstPort := [x27; x0f];
     Data := [x70; x69; x6e; x67] |}.

(** The handler state after [exFrom] has sent [ping] to 127.0.0.1:8888
    and to 127.0.0.1:9999: two flows. *)
Definition exTwoFlows : Relay :=
  {| peers := {[ "10.0.0.9:4000-127.0.0.1:8888" := 0;
                 "10.0.0.9:4000-127.0.0.1:9999" := 1 ]};
     heap := {[ 0 := {| updateTime := 0; from := exFrom; dst := 0;
                        atyp := ipv4Address;
                        dstAddr := [x7f; x00; x00; x01];
                        dstPort := [x22; xb8] |};
                1 := {| updateTime := 0; from := exFrom; dst := 1;
                        atyp := ipv4Address;
                        dstAddr := [x7f; x00; x00; x01];
                        dstPort := [x27; x0f] |} ]};
     tasks := {[ 0; 1 ]};
     nsock := 2;
     drained := false;
     utrace := [UDial 0 "127.0.0.1:8888";
                USockWrite 0 [x70; x69; x6e; x67];
                UDial 1 "127.0.0.1:9999";
                USockWrite 1 [x70; x69; x6e; x67]] |}.

(* ===================================================================== *)
(** * client_datagram.go                                                   *)
(* ===================================================================== *)

Module Client.

(** Modelled from the spec: the address-type constants that the client
    code names [ATYPIPv4], [ATYPDomain] and [ATYPIPv6] (ATYP values
    IPv4=0x01, FQDN=0x03, IPv6=0x04). *)
Definition ATYPIPv4 : byte := x01.
Definition ATYPDomain : byte := x03.
Definition ATYPIPv6 : byte := x04.

(** The [DatagramC] struct, with the fields that the constructors fill. *)
Record DatagramC : Type := mkDatagramC {
  Rsv : list byte;
  Frag : byte;
  Atyp : byte;
  DstAddr : list byte;
  DstPort : list byte;
  Data : list byte
}.

(** The address branch of [NewDatagramFromBytes]: the new [minl] and the
    address, [None] where the code returns [ErrBadRequest]. *)
Definition parseAddr (bb : list byte) (minl : nat) : option (nat * list byte) :=
  let n := length bb in
  if decide (nth 3 bb x00 = ATYPIPv4) then
    let minl := minl + 4 in
    if n <? minl then None
    else Some (minl, slice (minl - 4) minl bb)
  else if decide (nth 3 bb x00 = ATYPIPv6) then
    let minl := minl + 16 in
    if n <? minl then None
    else Some (minl, slice (minl - 16) minl bb)
  else if decide (nth 3 bb x00 = ATYPDomain) then
    let minl := minl + 1 in
    if n <? minl then None
    else
      let l := nth 4 bb x00 in
      if decide (l = x00) then None
      else
        let minl := minl + int_of_byte l in
        if n <? minl then None
        else
          let addr := slice (minl - int_of_byte l) minl bb in
          Some (minl, [l] ++ addr)
  else None.

(** [NewDatagramFromBytes]; its only error is [ErrBadRequest], [None]
    here.  The debug print is not part of the model. *)
Definition NewDatagramFromBytes (bb : list byte) : option DatagramC :=
  let n := length bb in
  let minl := 4 in
  if n <? minl then None
  else
    match parseAddr bb minl with
    | None => None
    | Some (minl, addr) =>
        let minl := minl + 2 in
        if n <=? minl then None
        else
          let port := slice (minl - 2) minl bb in
          let data := skipn minl bb in
          Some {| Rsv := slice 0 2 bb; Frag := nth 2 bb x00;
                  Atyp := nth 3 bb x00; DstAddr := addr; DstPort := port;
                  Data := data |}
    end.

(** [NewDatagramC]: [dstaddr] comes without the length byte of a name. *)
Definition NewDatagramC (atyp : byte) (dstaddr dstport data : list byte)
  : DatagramC :=
  let dstaddr :=
    if decide (atyp = ATYPDomain)
    then [byte_of_int (length dstaddr)] ++ dstaddr
    else dstaddr in
  {| Rsv := [x00; x00]; Frag := x00; Atyp := atyp; DstAddr := dstaddr;
     DstPort := dstport; Data := data |}.

(** [d.Bytes()] *)
Definition Bytes (d : DatagramC) : list byte :=
  let b := [] in
  let b := b ++ Rsv d in
  let b := b ++ [Frag d] in
  let b := b ++ [Atyp d] in
  let b := b ++ DstAddr d in
  let b := b ++ DstPort d in
  let b := b ++ Data d in
  b.

End Client.

(* ===================================================================== *)
(** * More notions used in the statements                                  *)
(* ===================================================================== *)

(** No write in the trace follows a close of its socket, and every write
    follows a dial of its socket. *)
Definition trace_ok (tr : list uevent) : Prop :=
  forall pre post sock data,
    tr = pre ++ USockWrite sock data :: post ->
    (USockClose sock ∉ pre) /\ exists addr, UDial sock addr ∈ pre.

(** The invariant of the relay loop.  Every flow of the table has a
    struct whose socket is the one the table names, a socket that was
    dialled and is not closed; no two flows share a socket; the sockets
    that were closed were handed out before [nsock]; and the trace is as
    [trace_ok] says. *)
Definition relay_inv (st : Relay) : Prop :=
  (forall key sock, peers st !! key = Some sock ->
     sock < nsock st
     /\ (USockClose sock ∉ utrace st)
     /\ (exists addr, UDial sock addr ∈ utrace st)
     /\ exists p, heap st !! sock = Some p /\ dst p = sock)
  /\ (forall k1 k2 sock,
        peers st !! k1 = Some sock -> peers st !! k2 = Some sock -> k1 = k2)
  /\ (forall sock, USockClose sock ∈ utrace st -> sock < nsock st)
  /\ trace_ok (utrace st).

(** The frame of a datagram: RSV, FRAG, ATYP, the DST.ADDR field of
    [addr], the port and the payload. *)
Definition frame (rsv : list byte) (frag aTyp : byte)
    (addr port data : list byte) : list byte :=
  rsv ++ [frag; aTyp] ++ wire_addr aTyp addr ++ port ++ data.

(** The events that record an accepted connection. *)
Definition is_accept (e : event) : bool :=
  match e with EvAccept _ => true | _ => false end.
(* ===================================================================== *)
(** * Properties of the slice helpers                                      *)
(* ===================================================================== *)

Lemma int_of_byte_of_int (n : nat) : n <= 255 -> int_of_byte (byte_of_int n) = n.
Proof.
  intros Hn. unfold int_of_byte, byte_of_int.
  rewrite Nat.mod_small by lia.
  destruct (Byte.of_nat n) as [b|] eqn:E.
  - now apply Byte.to_of_nat.
  - apply Byte.of_nat_None_iff in E. lia.
Qed.

Lemma int_of_byte_bound (b : byte) : int_of_byte b <= 255.
Proof. apply Byte.to_nat_bounded. Qed.

Lemma byte_eqb_eq (a b : byte) : Byte.eqb a b = true <-> a = b.
Proof.
  split; [apply Byte.byte_dec_bl | apply Byte.byte_dec_lb].
Qed.

Lemma byte_eqb_neq (a b : byte) : Byte.eqb a b = false <-> a <> b.
Proof.
  split.
  - apply Byte.eqb_false.
  - intros Hne. destruct (Byte.eqb a b) eqn:E; [|reflexivity].
    apply byte_eqb_eq in E. contradiction.
Qed.

Lemma copy_same_length (dst src : list byte) :
  length dst = length src -> copy dst src = src.
Proof.
  intros Hlen. unfold copy.
  rewrite Hlen, firstn_all, skipn_all2 by lia.
  apply app_nil_r.
Qed.

Lemma length_copy (dst src : list byte) : length (copy dst src) = length dst.
Proof.
  unfold copy. rewrite length_app, length_take, length_drop. lia.
Qed.

Lemma length_slice (lo n : nat) (bs : list byte) :
  lo + n <= length bs -> length (slice lo (lo + n) bs) = n.
Proof.
  intros Hle. unfold slice.
  rewrite length_take, length_drop. lia.
Qed.

Lemma slice_mid (a b c : list byte) (lo hi : nat) :
  lo = length a -> hi = lo + length b -> slice lo hi (a ++ b ++ c) = b.
Proof.
  intros -> ->. unfold slice.
  rewrite drop_app_length.
  replace (length a + length b - length a) with (length b) by lia.
  apply take_app_length.
Qed.

Lemma skipn_mid (a b : list byte) (n : nat) :
  n = length a -> skipn n (a ++ b) = b.
Proof. intros ->. apply drop_app_length. Qed.

Lemma nth_mid (a c : list byte) (x d : byte) (n : nat) :
  n = length a -> nth n (a ++ x :: c) d = x.
Proof. intros ->. apply nth_middle. Qed.

(** With the default allocator a field of the parsed datagram is a copy of
    the bytes it was cut from. *)
Lemma copy_slice_Mem (x : list byte) (i size : nat) :
  i + length x <= size ->
  copy (slice i (i + length x) (Alloc Mem size)) x = x.
Proof.
  intros Hle. apply copy_same_length, length_slice.
  simpl. rewrite repeat_length. exact Hle.
Qed.
(* ===================================================================== *)
(** * The datagram codec                                                   *)
(* ===================================================================== *)

Lemma length_wire_addr (aTyp : byte) (addr : list byte) :
  length (wire_addr aTyp addr)
  = if decide (aTyp = fqdnAddress) then S (length addr) else length addr.
Proof. unfold wire_addr. case_decide; reflexivity. Qed.

(** Decide the length tests of the code by arithmetic. *)
Ltac nat_test :=
  match goal with
  | |- context [?a <? ?b] =>
      destruct (Nat.ltb_spec a b); [try (exfalso; lia) | try (exfalso; lia)]
  | |- context [?a <=? ?b] =>
      destruct (Nat.leb_spec a b); [try (exfalso; lia) | try (exfalso; lia)]
  | |- context [?a =? ?b] =>
      destruct (Nat.eqb_spec a b); [try (exfalso; lia) | try (exfalso; lia)]
  end.
Ltac nat_tests := repeat nat_test.

(** Push [length] through concatenations. *)
Ltac list_len := repeat (progress (rewrite ?length_app; simpl length)).

(** The address switch of the parser on a well-formed DST.ADDR field. *)
Lemma parseDstAddr_wire (hdr tl addr : list byte) (aTyp : byte) :
  length hdr = 4 ->
  valid_addr aTyp addr = true ->
  parseDstAddr (hdr ++ wire_addr aTyp addr ++ tl) aTyp 4
  = Ok (4 + length (wire_addr aTyp addr), addr).
Proof.
  intros Hhdr Hvalid.
  unfold valid_addr in Hvalid. unfold parseDstAddr, wire_addr.
  repeat case_decide; subst; try discriminate.
  - apply Nat.eqb_eq in Hvalid.
    rewrite !length_app, Hhdr, Hvalid.
    nat_tests.
    f_equal. f_equal. apply slice_mid; simpl; lia.
  - apply Nat.eqb_eq in Hvalid.
    rewrite !length_app, Hhdr, Hvalid.
    nat_tests.
    f_equal. f_equal. apply slice_mid; simpl; lia.
  - apply andb_true_iff in Hvalid as [Hlo Hhi].
    apply Nat.leb_le in Hlo, Hhi.
    replace (4 + 1 - 1) with (length hdr) by lia.
    change ([byte_of_int (length addr)] ++ addr)
      with (byte_of_int (length addr) :: addr).
    rewrite <- !app_comm_cons.
    rewrite (nth_mid hdr (addr ++ tl)), int_of_byte_of_int by (reflexivity || lia).
    list_len. rewrite Hhdr.
    nat_tests.
    f_equal. f_equal; try lia.
    change (hdr ++ byte_of_int (length addr) :: addr ++ tl)
      with (hdr ++ [byte_of_int (length addr)] ++ addr ++ tl).
    rewrite app_assoc. apply slice_mid; rewrite ?length_app; simpl; lia.
Qed.

(** The parser on a frame RSV, FRAG, ATYP, a well-sized DST.ADDR field,
    two port bytes and the payload: it refuses a fragment, then a zero
    port, then an empty payload, and otherwise returns the fields. *)
Lemma NewDatagramFromByte_frame (rsv addr port data : list byte)
    (frag aTyp : byte) :
  length rsv = 2 ->
  valid_addr aTyp addr = true ->
  length port = 2 ->
  NewDatagramFromByte Mem
    (rsv ++ [frag; aTyp] ++ wire_addr aTyp addr ++ port ++ data)
  = if negb (Byte.eqb frag x00) then Err ErrDatagramSlice
    else if bool_decide (port = [x00; x00]) then Err ErrDatagramIllegal
    else if bool_decide (data = []) then Err ErrDatagramNoData
    else Ok {| memCreater := Mem; Rsv := rsv; Frag := frag; ATyp := aTyp;
               DstAddr := addr; DstPort := port; Data := data |}.
Proof.
  intros Hrsv Hvalid Hport.
  destruct rsv as [|r0 [|r1 [|]]]; try discriminate.
  destruct port as [|p0 [|p1 [|]]]; try discriminate.
  set (W := wire_addr aTyp addr).
  pose proof (parseDstAddr_wire [r0; r1; frag; aTyp] ([p0; p1] ++ data) addr aTyp
                eq_refl Hvalid) as Hswitch.
  fold W in Hswitch.
  unfold NewDatagramFromByte.
  change ([r0; r1] ++ [frag; aTyp] ++ W ++ [p0; p1] ++ data)
    with ([r0; r1; frag; aTyp] ++ W ++ [p0; p1] ++ data).
  assert (HW : 0 < length W).
  { unfold W. rewrite length_wire_addr. unfold valid_addr in Hvalid.
    repeat case_decide; try discriminate; try lia.
    - apply Nat.eqb_eq in Hvalid. lia.
    - apply Nat.eqb_eq in Hvalid. lia. }
  clearbody W.
  remember ([r0; r1; frag; aTyp] ++ W ++ [p0; p1] ++ data) as bs eqn:Hbs.
  assert (Hlen : length bs = 4 + length W + 2 + length data).
  { rewrite Hbs. list_len. lia. }
  destruct (Nat.leb_spec (length bs) 4); [lia|].
  replace (nth 2 bs x00) with frag by (rewrite Hbs; reflexivity).
  replace (nth 3 bs x00) with aTyp by (rewrite Hbs; reflexivity).
  destruct (negb (Byte.eqb frag x00)); [reflexivity|].
  rewrite Hswitch.
  destruct (Nat.ltb_spec (length bs) (4 + length W + 2)); [lia|].
  assert (Hp : slice (4 + length W + 2 - 2) (4 + length W + 2) bs = [p0; p1]).
  { rewrite Hbs, (app_assoc _ W).
    apply slice_mid; rewrite ?length_app; simpl; lia. }
  rewrite Hp.
  assert (Hr : skipn (4 + length W + 2) bs = data).
  { rewrite Hbs, (app_assoc _ W), (app_assoc _ [p0; p1]).
    apply skipn_mid. rewrite !length_app. simpl. lia. }
  rewrite Hr.
  assert (Hz : Byte.eqb (nth 0 [p0; p1] x00) x00
               && Byte.eqb (nth 1 [p0; p1] x00) x00
               = bool_decide ([p0; p1] = [x00; x00])).
  { simpl. case_bool_decide as Hd.
    - injection Hd as -> ->. reflexivity.
    - apply andb_false_iff.
      destruct (Byte.eqb p0 x00) eqn:E0; [|now left].
      destruct (Byte.eqb p1 x00) eqn:E1; [|now right].
      apply byte_eqb_eq in E0, E1. subst. congruence. }
  rewrite Hz. case_bool_decide; [reflexivity|].
  case_bool_decide as Hdata.
  { rewrite Hdata. reflexivity. }
  assert (Hd : 0 < length data) by (destruct data; [congruence | simpl; lia]).
  destruct (Nat.eqb_spec (length data) 0); [lia|].
  f_equal. f_equal.
  - replace (firstn 2 bs) with [r0; r1] by (rewrite Hbs; reflexivity).
    apply (copy_slice_Mem [r0; r1] 0). simpl. lia.
  - rewrite Nat.add_0_l. apply copy_slice_Mem. simpl. lia.
  - rewrite Nat.add_0_l. apply copy_slice_Mem. simpl. lia.
  - rewrite Nat.add_0_l. apply copy_slice_Mem. simpl. lia.
Qed.

(** Parsing a well-formed frame: FRAG=0, a non-zero port and a non-empty
    payload. *)
Lemma NewDatagramFromByte_wire (rsv addr port data : list byte) (aTyp : byte) :
  length rsv = 2 ->
  valid_addr aTyp addr = true ->
  length port = 2 ->
  port <> [x00; x00] ->
  data <> [] ->
  NewDatagramFromByte Mem
    (rsv ++ [x00; aTyp] ++ wire_addr aTyp addr ++ port ++ data)
  = Ok {| memCreater := Mem; Rsv := rsv; Frag := x00; ATyp := aTyp;
          DstAddr := addr; DstPort := port; Data := data |}.
Proof.
  intros Hrsv Hvalid Hport Hnz Hdata.
  rewrite NewDatagramFromByte_frame by assumption.
  simpl. rewrite !bool_decide_eq_false_2 by assumption. reflexivity.
Qed.

Lemma byte_of_int_of_byte (b : byte) : byte_of_int (int_of_byte b) = b.
Proof.
  unfold byte_of_int, int_of_byte.
  rewrite Nat.mod_small by (pose proof (Byte.to_nat_bounded b); lia).
  now rewrite Byte.of_to_nat.
Qed.

Lemma take_slice (lo hi : nat) (bs : list byte) :
  lo <= hi -> firstn hi bs = firstn lo bs ++ slice lo hi bs.
Proof.
  intros Hle. unfold slice. rewrite take_take_drop. f_equal. lia.
Qed.

Lemma take_S_nth (n : nat) (bs : list byte) :
  n < length bs -> firstn (S n) bs = firstn n bs ++ [nth n bs x00].
Proof.
  intros Hlt.
  destruct (lookup_lt_is_Some_2 bs n Hlt) as [x Hx].
  rewrite (take_S_r _ _ _ Hx).
  now rewrite (nth_lookup_Some _ _ x00 _ Hx).
Qed.

(** What the address switch accepts: a DST.ADDR field of the right size,
    directly after the four header bytes. *)
Lemma parseDstAddr_inv (bs addr : list byte) (aTyp : byte) (n : nat) :
  parseDstAddr bs aTyp 4 = Ok (n, addr) ->
  valid_addr aTyp addr = true
  /\ n = 4 + length (wire_addr aTyp addr)
  /\ n <= length bs
  /\ firstn n bs = firstn 4 bs ++ wire_addr aTyp addr.
Proof.
  unfold parseDstAddr, valid_addr, wire_addr.
  repeat case_decide; subst; try discriminate.
  - nat_test; [discriminate|]. intros [= <- <-].
    assert (Hl : length (slice 4 8 bs) = 4)
      by (apply (length_slice 4 4); lia).
    rewrite Hl. repeat split; try lia.
    apply (take_slice 4 8). lia.
  - nat_test; [discriminate|]. intros [= <- <-].
    assert (Hl : length (slice 4 20 bs) = 16)
      by (apply (length_slice 4 16); lia).
    rewrite Hl. repeat split; try lia.
    apply (take_slice 4 20). lia.
  - destruct (Nat.ltb_spec (length bs) (4 + 1)) as [|H5]; [discriminate|].
    set (lb := nth (4 + 1 - 1) bs x00).
    pose proof (int_of_byte_bound lb) as Hb.
    destruct (Nat.eqb_spec (int_of_byte lb) 0) as [|Hnz]; [discriminate|].
    destruct (Nat.ltb_spec (length bs) (4 + 1 + int_of_byte lb)) as [|Hn];
      [discriminate|].
    intros [= <- <-].
    assert (Hl : length (slice (4 + 1 + int_of_byte lb - int_of_byte lb)
                               (4 + 1 + int_of_byte lb) bs) = int_of_byte lb).
    { replace (4 + 1 + int_of_byte lb - int_of_byte lb) with 5 by lia.
      apply (length_slice 5). lia. }
    simpl in Hl. rewrite Hl, byte_of_int_of_byte.
    destruct (Nat.leb_spec 1 (int_of_byte lb)); [|lia].
    destruct (Nat.leb_spec (int_of_byte lb) 255); [|lia].
    repeat split; simpl; try lia.
    replace (S (S (S (S (S (int_of_byte lb))))) - int_of_byte lb) with 5 by lia.
    change (S (S (S (S (S (int_of_byte lb)))))) with (5 + int_of_byte lb).
    rewrite (take_slice 5 (5 + int_of_byte lb)) by lia.
    rewrite (take_S_nth 4) by lia.
    rewrite <- app_assoc. reflexivity.
Qed.

(** What the parser accepts: exactly the well-formed frames.  The datagram
    it returns holds the fields of the frame, the name of an FQDN address
    without its length byte. *)
Lemma NewDatagramFromByte_inv (bs : list byte) (d : Datagram) :
  NewDatagramFromByte Mem bs = Ok d ->
  memCreater d = Mem
  /\ Frag d = x00
  /\ length (Rsv d) = 2
  /\ valid_addr (ATyp d) (DstAddr d) = true
  /\ length (DstPort d) = 2
  /\ DstPort d <> [x00; x00]
  /\ Data d <> []
  /\ bs = Rsv d ++ [x00; ATyp d] ++ wire_addr (ATyp d) (DstAddr d)
             ++ DstPort d ++ Data d.
Proof.
  unfold NewDatagramFromByte.
  destruct (Nat.leb_spec (length bs) 4) as [|H4]; [discriminate|].
  destruct (Byte.eqb (nth 2 bs x00) x00) eqn:Hfrag; [|discriminate].
  apply byte_eqb_eq in Hfrag. simpl negb. cbv iota.
  destruct (parseDstAddr bs (nth 3 bs x00) 4) as [[n addr]|] eqn:Hswitch;
    [|discriminate].
  apply parseDstAddr_inv in Hswitch as (Hvalid & Hn & Hle & Htake).
  destruct (Nat.ltb_spec (length bs) (n + 2)) as [|Hn2]; [discriminate|].
  set (port := slice (n + 2 - 2) (n + 2) bs).
  assert (Hport : length port = 2).
  { unfold port. replace (n + 2 - 2) with n by lia. apply length_slice. lia. }
  destruct (Byte.eqb (nth 0 port x00) x00 && Byte.eqb (nth 1 port x00) x00)
    eqn:Hz; [discriminate|].
  set (data := skipn (n + 2) bs).
  destruct (Nat.eqb_spec (length data) 0) as [|Hdata]; [discriminate|].
  rewrite Nat.add_0_l.
  rewrite (copy_slice_Mem addr), (copy_slice_Mem port), (copy_slice_Mem data)
    by (simpl; lia).
  assert (Hrsv : length (firstn 2 bs) = 2) by (rewrite length_take; lia).
  rewrite <- Hrsv at 1.
  rewrite (copy_slice_Mem (firstn 2 bs) 0) by (simpl; lia).
  intros [= <-]. simpl.
  repeat split; auto.
  - intros Heq. rewrite Heq in Hz. discriminate.
  - intros Heq. rewrite Heq in Hdata. simpl in Hdata. congruence.
  - rewrite <- (take_drop (n + 2) bs) at 1. fold data. 
    rewrite (take_slice n (n + 2)) by lia.
    replace (slice n (n + 2) bs) with port
      by (unfold port; f_equal; lia).
    rewrite Htake.
    rewrite (take_S_nth 3), (take_S_nth 2) by lia.
    rewrite Hfrag. rewrite <- !app_assoc. reflexivity.
Qed.

(** With the default allocator [NewDatagram] stores its arguments, the
    address in its wire form: a name keeps the length byte in front. *)
Lemma NewDatagram_Mem (aTyp : byte) (addr port data : list byte) :
  NewDatagram Mem aTyp addr port data
  = {| memCreater := Mem; Rsv := [x00; x00]; Frag := x00; ATyp := aTyp;
       DstAddr := wire_addr aTyp addr; DstPort := port; Data := data |}.
Proof.
  unfold NewDatagram. fold (wire_addr aTyp addr).
  rewrite Nat.add_0_l.
  rewrite !copy_slice_Mem by (simpl; lia).
  reflexivity.
Qed.

Lemma set_at_spec (buf pre : list byte) (idx : nat) (v : byte) :
  length pre = idx -> firstn idx buf = pre -> idx < length buf ->
  exists buf', set_at buf idx v = Some buf'
               /\ length buf' = length buf
               /\ firstn (S idx) buf' = pre ++ [v].
Proof.
  intros Hpre Htake Hlt. unfold set_at.
  destruct (Nat.ltb_spec idx (length buf)); [|lia].
  eexists. split; [reflexivity|]. split; [apply length_insert|].
  erewrite take_S_r by (apply list_lookup_insert_eq; lia).
  rewrite take_insert_ge by lia. now rewrite Htake.
Qed.

Lemma copy_at_spec (buf pre src : list byte) (idx : nat) :
  length pre = idx -> firstn idx buf = pre -> idx + length src <= length buf ->
  exists buf', copy_at buf idx src = Some buf'
               /\ length buf' = length buf
               /\ firstn (idx + length src) buf' = pre ++ src.
Proof.
  intros Hpre Htake Hle. unfold copy_at.
  destruct (Nat.leb_spec idx (length buf)); [|lia].
  eexists. split; [reflexivity|].
  rewrite Htake. unfold copy.
  rewrite length_drop, take_ge by lia.
  split.
  - rewrite !length_app, !length_drop. lia.
  - rewrite app_assoc, take_app_length'; [reflexivity|].
    rewrite length_app. lia.
Qed.

(** [toBytes] lays the fields out one after the other. *)
Lemma encode_spec (d : Datagram) (buf : list byte) :
  length (Rsv d) = 2 ->
  4 + length (DstAddr d) + length (DstPort d) + length (Data d) <= length buf ->
  encode d buf
  = Some (Rsv d ++ [Frag d; ATyp d] ++ DstAddr d ++ DstPort d ++ Data d).
Proof.
  intros Hrsv Hfit. unfold encode, toBytes.
  destruct (Nat.ltb_spec (length buf)
              (2 + 1 + 1 + length (DstAddr d) + length (DstPort d)
               + length (Data d))) as [|_]; [lia|].
  set (b0 := copy buf (Rsv d)).
  assert (L0 : length b0 = length buf) by apply length_copy.
  assert (T0 : firstn 2 b0 = Rsv d).
  { unfold b0, copy. rewrite (take_ge (Rsv d)) by lia.
    rewrite <- Hrsv at 1. apply take_app_length. }
  rewrite Nat.add_0_l, Hrsv.
  destruct (set_at_spec b0 (Rsv d) 2 (Frag d)) as (b1 & E1 & L1 & T1);
    [assumption | assumption | lia |].
  rewrite E1. simpl mbind.
  destruct (set_at_spec b1 (Rsv d ++ [Frag d]) 3 (ATyp d))
    as (b2 & E2 & L2 & T2); [list_len; lia | assumption | lia |].
  change (2 + 1) with 3. rewrite E2. simpl mbind.
  destruct (copy_at_spec b2 ((Rsv d ++ [Frag d]) ++ [ATyp d]) (DstAddr d) 4)
    as (b3 & E3 & L3 & T3); [list_len; lia | assumption | lia |].
  change (3 + 1) with 4. rewrite E3. simpl mbind.
  destruct (copy_at_spec b3 (((Rsv d ++ [Frag d]) ++ [ATyp d]) ++ DstAddr d)
              (DstPort d) (4 + length (DstAddr d)))
    as (b4 & E4 & L4 & T4); [list_len; lia | assumption | lia |].
  simpl in E4. rewrite E4. simpl mbind.
  destruct (copy_at_spec b4
              ((((Rsv d ++ [Frag d]) ++ [ATyp d]) ++ DstAddr d) ++ DstPort d)
              (Data d) (4 + length (DstAddr d) + length (DstPort d)))
    as (b5 & E5 & L5 & T5); [list_len; lia | assumption | lia |].
  simpl in E5. rewrite E5. simpl mbind.
  cbv beta iota.
  match goal with
  | |- context [(?z <=? 0)%Z] => destruct (Z.leb_spec z 0); [lia|]
  end.
  rewrite Nat2Z.id. f_equal.
  simpl in T5. rewrite T5, <- !app_assoc. reflexivity.
Qed.

(** ** Round trips *)

(** For an IPv4 or IPv6 destination, parsing the encoding of a datagram
    made by [NewDatagram] gives that datagram back. *)
Lemma datagram_roundtrip_ip (aTyp : byte) (addr port data buf : list byte) :
  aTyp = ipv4Address \/ aTyp = ipv6Address ->
  valid_addr aTyp addr = true ->
  length port = 2 -> port <> [x00; x00] -> data <> [] ->
  4 + length addr + length port + length data <= length buf ->
  exists bs,
    encode (NewDatagram Mem aTyp addr port data) buf = Some bs
    /\ NewDatagramFromByte Mem bs = Ok (NewDatagram Mem aTyp addr port data).
Proof.
  intros Hip Hvalid Hport Hnz Hdata Hfit.
  assert (Hw : wire_addr aTyp addr = addr).
  { unfold wire_addr. destruct Hip; subst; reflexivity. }
  rewrite NewDatagram_Mem, Hw.
  eexists. split.
  - apply encode_spec; simpl; [reflexivity | lia].
  - simpl. rewrite <- Hw at 1.
    apply (NewDatagramFromByte_wire [x00; x00]); auto.
Qed.

Lemma encode_Some_fits (d : Datagram) (buf bs : list byte) :
  encode d buf = Some bs ->
  4 + length (DstAddr d) + length (DstPort d) + length (Data d) <= length buf.
Proof.
  unfold encode, toBytes. intros Henc.
  destruct (Nat.ltb_spec (length buf)
              (2 + 1 + 1 + length (DstAddr d) + length (DstPort d)
               + length (Data d))) as [|Hfit]; [discriminate | lia].
Qed.

(** For a name the two constructors disagree on [DstAddr], whatever the
    name: the parsed copy never equals the datagram that was encoded. *)
Lemma datagram_roundtrip_fqdn_never (name port data buf bs : list byte) :
  encode (NewDatagram Mem fqdnAddress name port data) buf = Some bs ->
  NewDatagramFromByte Mem bs
  <> Ok (NewDatagram Mem fqdnAddress name port data).
Proof.
  intros Henc Hparse.
  pose proof (encode_Some_fits _ _ _ Henc) as Hfit.
  rewrite NewDatagram_Mem in *.
  rewrite encode_spec in Henc by (simpl; first [reflexivity | exact Hfit]).
  injection Henc as Hbs.
  apply NewDatagramFromByte_inv in Hparse as (_ & _ & _ & _ & _ & _ & _ & Hbs').
  rewrite <- Hbs in Hbs'. apply (f_equal length) in Hbs'.
  unfold wire_addr in Hbs'. simpl in Hbs'.
  rewrite ?length_app in Hbs'. simpl in Hbs'. rewrite ?length_app in Hbs'.
  lia.
Qed.

(** C2.  The round trip of the spec fails on the code for every name
    destination; here at the name [ab], port 8888 and payload [po], with
    the buffer of [udpBufSize] bytes that [readFromDst] encodes into.
    [NewDatagram] keeps the length byte in [DstAddr], the parser drops
    it, so the parsed datagram is not the one that was encoded. *)
Theorem datagram_roundtrip_fqdn_differs :
  exists d',
    encode exNameDatagram (repeat x00 udpBufSize)
    = Some [x00; x00; x00; x03; x02; x61; x62; x22; xb8; x70; x6f]
    /\ NewDatagramFromByte Mem
         [x00; x00; x00; x03; x02; x61; x62; x22; xb8; x70; x6f] = Ok d'
    /\ DstAddr exNameDatagram = [x02; x61; x62]
    /\ DstAddr d' = [x61; x62]
    /\ d' <> exNameDatagram.
Proof.
  assert (Henc : forall buf, 11 <= length buf ->
            encode exNameDatagram buf
            = Some [x00; x00; x00; x03; x02; x61; x62; x22; xb8; x70; x6f]).
  { intros buf Hbuf. unfold exNameDatagram. rewrite NewDatagram_Mem.
    rewrite encode_spec; [reflexivity | reflexivity | exact Hbuf]. }
  eexists. split; [|split; [vm_compute; reflexivity|]].
  - apply Henc. rewrite repeat_length. apply Nat.leb_le. vm_compute. reflexivity.
  - split; [reflexivity|]. split; [reflexivity|].
    intros Heq. apply (f_equal DstAddr) in Heq. discriminate Heq.
Qed.

(** ** Zero ports and zero addresses *)

(** C7.  On a frame with a well-sized DST.ADDR field the parser fails when
    both DST.PORT bytes are zero, whatever the other fields; and it
    succeeds on the all-zero address of that size (IPv4 0.0.0.0, IPv6 ::)
    when the fragment byte is zero, the port is not zero and there is
    payload. *)
Theorem NewDatagramFromByte_zero_port_zero_addr
    (rsv addr port data : list byte) (frag aTyp : byte) :
  length rsv = 2 ->
  valid_addr aTyp addr = true ->
  (exists e,
     NewDatagramFromByte Mem
       (rsv ++ [frag; aTyp] ++ wire_addr aTyp addr ++ [x00; x00] ++ data)
     = Err e)
  /\ (length port = 2 -> port <> [x00; x00] -> data <> [] ->
      let zero := repeat x00 (length addr) in
      NewDatagramFromByte Mem
        (rsv ++ [x00; aTyp] ++ wire_addr aTyp zero ++ port ++ data)
      = Ok {| memCreater := Mem; Rsv := rsv; Frag := x00; ATyp := aTyp;
              DstAddr := zero; DstPort := port; Data := data |}).
Proof.
  intros Hrsv Hvalid. split.
  - rewrite NewDatagramFromByte_frame by auto.
    destruct (negb (Byte.eqb frag x00)); eauto.
  - intros Hport Hnz Hdata zero.
    apply NewDatagramFromByte_wire; auto.
    unfold valid_addr in *. unfold zero. rewrite repeat_length. exact Hvalid.
Qed.

(** The port of a parsed datagram is never zero, on any input. *)
Lemma NewDatagramFromByte_port_nonzero (bs : list byte) (d : Datagram) :
  NewDatagramFromByte Mem bs = Ok d -> DstPort d <> [x00; x00].
Proof.
  intros Hparse.
  now apply NewDatagramFromByte_inv in Hparse as (_ & _ & _ & _ & _ & Hnz & _).
Qed.

(** ** The destination of a parsed datagram *)

(** C9.  A parsed datagram with a name destination holds the name in
    [DstAddr] without the length byte that precedes it on the wire, while
    [NewDatagram] stores the length byte first; [Address], which drops the
    first byte of [DstAddr] for a name, therefore gives the name of a
    parsed datagram without its first character. *)
Theorem parsed_fqdn_Address_drops_first_char `{NetLib}
    (bs : list byte) (d : Datagram) :
  NewDatagramFromByte Mem bs = Ok d ->
  ATyp d = fqdnAddress ->
  (exists lenb,
     bs = Rsv d ++ [x00; fqdnAddress; lenb] ++ DstAddr d ++ DstPort d ++ Data d
     /\ int_of_byte lenb = length (DstAddr d))
  /\ (forall name port data,
        DstAddr (NewDatagram Mem fqdnAddress name port data)
        = byte_of_int (length name) :: name)
  /\ (exists c rest p,
        DstAddr d = c :: rest
        /\ Uint16 (DstPort d) = Some p
        /\ Address d = Some (JoinHostPort (string_of_bytes rest) (Itoa p))).
Proof.
  intros Hparse Hfqdn.
  apply NewDatagramFromByte_inv in Hparse
    as (_ & _ & _ & Hvalid & Hport & _ & _ & Hbs).
  rewrite Hfqdn in Hvalid, Hbs. simpl in Hvalid.
  apply andb_true_iff in Hvalid as [Hlo Hhi].
  apply Nat.leb_le in Hlo, Hhi.
  split; [|split].
  - exists (byte_of_int (length (DstAddr d))). split.
    + exact Hbs.
    + now apply int_of_byte_of_int.
  - intros name port data. now rewrite NewDatagram_Mem.
  - unfold Address. rewrite Hfqdn. simpl.
    destruct (DstAddr d) as [|c rest]; [simpl in Hlo; lia|].
    destruct (DstPort d) as [|p0 [|p1 [|]]]; try discriminate.
    exists c, rest. eexists. repeat split.
Qed.


(* ===================================================================== *)
(** * Reads and writes on the connection                                   *)
(* ===================================================================== *)

Lemma ReadAtLeast_app (pre rest : list byte) (wr : nat) (tr : list event)
    (n : nat) :
  n = length pre ->
  ReadAtLeast n (mkConn (pre ++ rest) wr tr) = (mkConn rest wr tr, Ok pre).
Proof.
  intros ->. unfold ReadAtLeast. simpl.
  rewrite length_app.
  destruct (Nat.leb_spec (length pre) (length pre + length rest)); [|lia].
  now rewrite drop_app_length, take_app_length.
Qed.

Lemma Read1_cons (b : byte) (rest : list byte) (wr : nat) (tr : list event) :
  Read1 (mkConn (b :: rest) wr tr) = (mkConn rest wr tr, Ok b).
Proof. reflexivity. Qed.

Lemma Write_ok (p i : list byte) (wr : nat) (tr : list event) :
  Write p (mkConn i (S wr) tr) = (mkConn i wr (tr ++ [EvSend p]), None).
Proof. reflexivity. Qed.

Lemma Write_broken (p i : list byte) (tr : list event) :
  Write p (mkConn i 0 tr) = (mkConn i 0 tr, Some ErrBrokenPipe).
Proof. reflexivity. Qed.

Lemma bind_eq {A B} (m : IO A) (k : A -> IO B) (c c' : Conn) (a : A) :
  m c = (c', a) -> bind m k c = k a c'.
Proof. intros Hm. unfold bind. now rewrite Hm. Qed.

(* ===================================================================== *)
(** * Method negotiation                                                   *)
(* ===================================================================== *)

Lemma readMethods_frame (M rest : list byte) (wr : nat) (tr : list event) :
  length M <= 255 ->
  readMethods (mkConn ([byte_of_int (length M)] ++ M ++ rest) wr tr)
  = (mkConn rest wr tr, Ok M).
Proof.
  intros HM. unfold readMethods.
  erewrite bind_eq by apply Read1_cons. cbv beta iota.
  rewrite int_of_byte_of_int by exact HM.
  now apply ReadAtLeast_app.
Qed.

(** The loop skips the methods that are not registered. *)
Lemma selectMethod_skip (S : gmap byte Authenticator) (pre M : list byte) :
  Forall (fun x => S !! x = None) pre ->
  selectMethod S (pre ++ M) = selectMethod S M.
Proof.
  induction 1 as [|x pre Hx _ IH]; [reflexivity|].
  simpl. now rewrite Hx.
Qed.

(** After the offer is read the loop runs on the offered methods. *)
Lemma authenticate_select (s : Server) (M rest : list byte) (wr : nat)
    (tr : list event) :
  length M <= 255 ->
  authenticate s (mkConn ([byte_of_int (length M)] ++ M ++ rest) wr tr)
  = selectMethod (authMethods s) M (mkConn rest wr tr).
Proof.
  intros HM. unfold authenticate, authenticate_with.
  erewrite bind_eq by (apply readMethods_frame; exact HM). reflexivity.
Qed.

(** C3.  The client offers the methods [M] (after NMETHODS, before [rest]);
    [S] is the server's table.  Negotiation runs the handshake of the
    authenticator registered for the first offered method that is
    registered, on the connection positioned after the offer; when no
    offered method is registered it writes [5, 0xFF] and returns the
    no-supported-auth error. *)
Theorem authenticate_first_registered (s : Server) (M rest : list byte)
    (wr : nat) (tr : list event) :
  length M <= 255 ->
  let c := mkConn ([byte_of_int (length M)] ++ M ++ rest) wr tr in
  let c' := mkConn rest wr tr in
  (forall pre m post cator,
      M = pre ++ m :: post ->
      Forall (fun x => authMethods s !! x = None) pre ->
      authMethods s !! m = Some cator ->
      authenticate s c = Authenticate cator c')
  /\ (Forall (fun x => authMethods s !! x = None) M ->
      authenticate s c
      = (fst (Write [x05; xff] c'), (None, Some NoSupportedAuth))).
Proof.
  intros HM c c'. unfold c. rewrite authenticate_select by exact HM.
  split.
  - intros pre m post cator -> Hpre Hm.
    rewrite selectMethod_skip by exact Hpre.
    simpl. now rewrite Hm.
  - intros Hnone.
    rewrite <- (app_nil_r M), selectMethod_skip by exact Hnone.
    unfold c'. destruct wr; reflexivity.
Qed.

(* ===================================================================== *)
(** * The user/password sub-negotiation                                    *)
(* ===================================================================== *)

(** The sub-negotiation request of a client: VER=1, ULEN, UNAME, PLEN,
    PASSWD. *)
Lemma UserPass_Authenticate_frame (creds : CredentialStore)
    (user pass rest : list byte) (wr : nat) (tr : list event) :
  length user <= 255 ->
  length pass <= 255 ->
  UserPass_Authenticate creds
    (mkConn ([userAuthVersion; byte_of_int (length user)] ++ user
             ++ [byte_of_int (length pass)] ++ pass ++ rest) (S (S wr)) tr)
  = if Valid creds (string_of_bytes user) (string_of_bytes pass)
    then (mkConn rest wr
            (tr ++ [EvSend [socks5Version; UserPassAuth];
                    EvSend [userAuthVersion; authSuccess]]),
          (Some {| Method := UserPassAuth;
                   Payload := {[ "Username" := string_of_bytes user ]} |},
           None))
    else (mkConn rest wr
            (tr ++ [EvSend [socks5Version; UserPassAuth];
                    EvSend [userAuthVersion; authFailure]]),
          (None, Some UserAuthFailed)).
Proof.
  intros Hu Hp. unfold UserPass_Authenticate.
  erewrite bind_eq by apply Write_ok. cbv beta iota.
  erewrite bind_eq
    by (apply (ReadAtLeast_app [userAuthVersion; byte_of_int (length user)]);
        reflexivity).
  cbv beta iota. simpl nth.
  rewrite decide_False by (intros Hne; now apply Hne).
  change (nth 1 [userAuthVersion; byte_of_int (length user)] x00)
    with (byte_of_int (length user)).
  rewrite int_of_byte_of_int by exact Hu.
  erewrite bind_eq by (apply ReadAtLeast_app; reflexivity). cbv beta iota.
  erewrite bind_eq by apply Read1_cons. cbv beta iota.
  rewrite int_of_byte_of_int by exact Hp.
  erewrite bind_eq by (apply ReadAtLeast_app; reflexivity). cbv beta iota.
  destruct (Valid creds (string_of_bytes user) (string_of_bytes pass)).
  - erewrite bind_eq by apply Write_ok. cbv beta iota.
    unfold ret. now rewrite <- app_assoc.
  - erewrite bind_eq by apply Write_ok. cbv beta iota.
    unfold ret. now rewrite <- app_assoc.
Qed.

(* ===================================================================== *)
(** * The request parser                                                   *)
(* ===================================================================== *)

Lemma reads_only_ret {A} (a : A) : reads_only (ret a).
Proof. intros c. split; reflexivity. Qed.

Lemma reads_only_Read1 : reads_only Read1.
Proof. intros [[|b i] wr tr]; split; reflexivity. Qed.

Lemma reads_only_ReadAtLeast (n : nat) : reads_only (ReadAtLeast n).
Proof.
  intros c. unfold ReadAtLeast.
  destruct (n <=? length (c_in c)); split; reflexivity.
Qed.

Lemma reads_only_bind {A B} (m : IO A) (k : A -> IO B) :
  reads_only m -> (forall a, reads_only (k a)) -> reads_only (bind m k).
Proof.
  intros Hm Hk c. unfold bind.
  destruct (m c) as [c' a] eqn:E.
  destruct (Hm c) as [Ht Hw]. rewrite E in Ht, Hw. simpl in Ht, Hw.
  destruct (Hk a c') as [Ht' Hw'].
  split; congruence.
Qed.

Ltac reads_only_tac :=
  repeat first
    [ apply reads_only_ret | apply reads_only_Read1
    | apply reads_only_ReadAtLeast
    | apply reads_only_bind; [|intros ?]
    | match goal with
      | |- reads_only (match ?x with _ => _ end) => destruct x
      | |- reads_only (if ?x then _ else _) => destruct x
      end ].

Lemma reads_only_readAddrSpec (atyp : byte) : reads_only (readAddrSpec atyp).
Proof. unfold readAddrSpec. reads_only_tac. Qed.

Lemma reads_only_NewRequest : reads_only NewRequest.
Proof.
  unfold NewRequest. reads_only_tac.
Qed.

(** A request whose ATYP is none of IPv4, FQDN, IPv6 gives the
    distinguished error, after the four header bytes. *)
Lemma NewRequest_unrecognized (cmd rsv atyp : byte) (rest : list byte)
    (wr : nat) (tr : list event) :
  atyp <> ipv4Address -> atyp <> fqdnAddress -> atyp <> ipv6Address ->
  NewRequest (mkConn ([x05; cmd; rsv; atyp] ++ rest) wr tr)
  = (mkConn rest wr tr, Err errUnrecognizedAddrType).
Proof.
  intros H4 Hn H6. unfold NewRequest.
  erewrite bind_eq by (apply (ReadAtLeast_app [x05; cmd; rsv; atyp]); reflexivity).
  cbv beta iota. simpl nth.
  rewrite decide_False by (intros Hne; now apply Hne).
  unfold readAddrSpec.
  rewrite !decide_False by assumption.
  reflexivity.
Qed.

(** Reads fail with an end-of-stream error only. *)
Lemma ReadAtLeast_Err (n : nat) (c c' : Conn) (e : error) :
  ReadAtLeast n c = (c', Err e) -> e = EOF \/ e = ErrUnexpectedEOF.
Proof.
  unfold ReadAtLeast. destruct (n <=? length (c_in c)); [discriminate|].
  intros [= _ <-]. destruct (c_in c); auto.
Qed.

Lemma Read1_Err (c c' : Conn) (e : error) :
  Read1 c = (c', Err e) -> e = EOF.
Proof.
  unfold Read1. destruct (c_in c); [|discriminate]. now intros [= _ <-].
Qed.

Lemma ReadAtLeast_Ok (n : nat) (c c' : Conn) (bs : list byte) :
  ReadAtLeast n c = (c', Ok bs) ->
  c_in c = bs ++ c_in c' /\ length bs = n.
Proof.
  unfold ReadAtLeast.
  destruct (Nat.leb_spec n (length (c_in c))); [|discriminate].
  intros [= <- <-]. simpl. split.
  - symmetry. apply take_drop.
  - rewrite length_take. lia.
Qed.

(** The parser gives the distinguished error only for such a request. *)
Lemma NewRequest_unrecognized_inv (c c2 : Conn) :
  NewRequest c = (c2, Err errUnrecognizedAddrType) ->
  exists cmd rsv atyp,
    c_in c = [x05; cmd; rsv; atyp] ++ c_in c2
    /\ atyp <> ipv4Address /\ atyp <> fqdnAddress /\ atyp <> ipv6Address.
Proof.
  unfold NewRequest, bind.
  destruct (ReadAtLeast 4 c) as [c1 [header|e]] eqn:Hhdr; [|discriminate].
  apply ReadAtLeast_Ok in Hhdr as [Hin Hlen].
  destruct header as [|h0 [|h1 [|h2 [|h3 [|]]]]]; try discriminate.
  simpl nth. case_decide as Hv; [discriminate|].
  assert (h0 = x05) as -> by (destruct (decide (h0 = socks5Version)); tauto).
  unfold readAddrSpec, bind, ret.
  repeat case_decide;
    repeat match goal with
      | |- context [ReadAtLeast ?n ?x] =>
          let E := fresh "E" in
          destruct (ReadAtLeast n x) as [? [?|?]] eqn:E;
          [|apply ReadAtLeast_Err in E; destruct E; subst]
      | |- context [Read1 ?x] =>
          let E := fresh "E" in
          destruct (Read1 x) as [? [?|?]] eqn:E;
          [|apply Read1_Err in E; subst]
      end; try discriminate.
  intros [= <-]. exists h1, h2, h3. auto.
Qed.

(* ===================================================================== *)
(** * The connection driver                                                *)
(* ===================================================================== *)

Section Driver.
Context `{NetLib}.
Variable handleRequest : Server -> Request -> IO (option error).
Variable s : Server.
Variable remoteAddr : Addr.
Variables clientIP clientPort : string.

(** The client passes the allowlist. *)
Hypothesis Hsplit :
  SplitHostPort (addr_String remoteAddr) = Ok (clientIP, clientPort).
Hypothesis Hallowed : isIPAllowed s (ParseIP clientIP) = true.

(** An error of the authentication ends the connection: nothing more is
    read or written, the connection is closed. *)
Lemma ServeConn_auth_error (c c1 : Conn) (a : option AuthContext)
    (err : error) :
  authenticate s
    {| c_in := tail (c_in c); c_writes := c_writes c; c_trace := c_trace c |}
  = (c1, (a, Some err)) ->
  head (c_in c) = Some socks5Version ->
  ServeConn handleRequest s remoteAddr c
  = (log_event EvClose c1, Some (Errorf_v "failed to authenticate: %v" err)).
Proof.
  intros Hauth Hver. unfold ServeConn.
  rewrite Hsplit, Hallowed. simpl negb. cbv iota.
  destruct c as [[|v inp] wr tr]; [discriminate|].
  injection Hver as ->. simpl in Hauth.
  unfold bind at 1. unfold bind at 1. rewrite Read1_cons.
  rewrite decide_False by (intros Hne; now apply Hne).
  unfold bind at 1. rewrite Hauth. reflexivity.
Qed.

(** An error of the request parser ends the connection; the driver
    answers it only when it is the unrecognized-address-type error. *)
Lemma ServeConn_request_error (c c1 c2 : Conn) (a : option AuthContext)
    (e : error) :
  head (c_in c) = Some socks5Version ->
  authenticate s
    {| c_in := tail (c_in c); c_writes := c_writes c; c_trace := c_trace c |}
  = (c1, (a, None)) ->
  NewRequest c1 = (c2, Err e) ->
  ServeConn handleRequest s remoteAddr c
  = if decide (e = errUnrecognizedAddrType) then
      match c_writes c2 with
      | 0 => (log_event EvClose c2,
              Some (Errorf_v "failed to send reply: %v" ErrBrokenPipe))
      | S k =>
          ({| c_in := c_in c2; c_writes := k;
              c_trace := c_trace c2
                         ++ [EvSend [x05; x08; x00; x01;
                                     x00; x00; x00; x00; x00; x00];
                             EvClose] |},
           Some (Errorf_v "failed to read destination address: %v" e))
      end
    else
      (log_event EvClose c2,
       Some (Errorf_v "failed to read destination address: %v" e)).
Proof.
  intros Hver Hauth Hreq. unfold ServeConn.
  rewrite Hsplit, Hallowed. simpl negb. cbv iota.
  destruct c as [[|v inp] wr tr]; [discriminate|].
  injection Hver as ->. simpl in Hauth.
  unfold bind at 1. unfold bind at 1. rewrite Read1_cons.
  rewrite decide_False by (intros Hne; now apply Hne).
  unfold bind at 1. rewrite Hauth.
  unfold bind at 1. rewrite Hreq.
  case_decide as He; [|reflexivity].
  unfold sendReply. simpl replyFrame. cbv beta iota.
  destruct c2 as [i2 [|k] t2].
  - erewrite bind_eq by apply Write_broken. reflexivity.
  - erewrite bind_eq by apply Write_ok.
    unfold bind, Close, ret, log_event. simpl.
    now rewrite <- app_assoc.
Qed.

(** C4.  The connection has passed the allowlist, the version byte and
    the authentication, which leave the input [in1], [wr1] writes and
    the trace [tr1].  When the request has an ATYP other than 1, 3, 4,
    the driver sends one reply frame with REP=0x08 and closes; on every
    other error of the request parser it closes without a reply.  The
    parser gives the unrecognized-address-type error for such an ATYP
    only. *)
Theorem ServeConn_reply_on_parse_error (c : Conn) (a : option AuthContext)
    (in1 : list byte) (wr1 : nat) (tr1 : list event) :
  head (c_in c) = Some socks5Version ->
  authenticate s
    {| c_in := tail (c_in c); c_writes := c_writes c; c_trace := c_trace c |}
  = (mkConn in1 wr1 tr1, (a, None)) ->
  (forall cmd rsv atyp rest,
      atyp <> ipv4Address -> atyp <> fqdnAddress -> atyp <> ipv6Address ->
      in1 = [x05; cmd; rsv; atyp] ++ rest ->
      ServeConn handleRequest s remoteAddr c
      = match wr1 with
        | S k =>
            (mkConn rest k
               (tr1 ++ [EvSend [x05; x08; x00; x01;
                                x00; x00; x00; x00; x00; x00];
                        EvClose]),
             Some (Errorf_v "failed to read destination address: %v"
                            errUnrecognizedAddrType))
        | 0 =>
            (mkConn rest 0 (tr1 ++ [EvClose]),
             Some (Errorf_v "failed to send reply: %v" ErrBrokenPipe))
        end)
  /\ (forall c2 e,
        NewRequest (mkConn in1 wr1 tr1) = (c2, Err e) ->
        e <> errUnrecognizedAddrType ->
        ServeConn handleRequest s remoteAddr c
        = (mkConn (c_in c2) wr1 (tr1 ++ [EvClose]),
           Some (Errorf_v "failed to read destination address: %v" e)))
  /\ (forall c2,
        NewRequest (mkConn in1 wr1 tr1) = (c2, Err errUnrecognizedAddrType) ->
        exists cmd rsv atyp,
          in1 = [x05; cmd; rsv; atyp] ++ c_in c2
          /\ atyp <> ipv4Address /\ atyp <> fqdnAddress
          /\ atyp <> ipv6Address).
Proof.
  intros Hver Hauth. split; [|split].
  - intros cmd rsv atyp rest H4 Hn H6 ->.
    rewrite (ServeConn_request_error c _ _ a _ Hver Hauth
               (NewRequest_unrecognized cmd rsv atyp rest wr1 tr1 H4 Hn H6)).
    rewrite decide_True by reflexivity.
    destruct wr1; reflexivity.
  - intros c2 e Hreq Hne.
    rewrite (ServeConn_request_error c _ _ a _ Hver Hauth Hreq).
    rewrite decide_False by exact Hne.
    destruct (reads_only_NewRequest (mkConn in1 wr1 tr1)) as [Ht Hw].
    rewrite Hreq in Ht, Hw. simpl in Ht, Hw.
    unfold log_event. now rewrite Ht, Hw.
  - intros c2 Hreq.
    apply NewRequest_unrecognized_inv in Hreq. exact Hreq.
Qed.

(** C6.  After the username and the password are read, the server
    writes [1, 0x00] exactly when the credential store accepts the pair,
    and then returns the context with payload Username; otherwise it
    writes [1, 0x01] and returns the user-auth-failed error, on which
    the driver ends the connection without reading further.  (The
    connection takes two writes: the method reply and the status.) *)
Theorem UserPass_Authenticate_verdict (creds : CredentialStore)
    (user pass rest : list byte) (wr : nat) (tr : list event) :
  length user <= 255 ->
  length pass <= 255 ->
  let sub := [userAuthVersion; byte_of_int (length user)] ++ user
             ++ [byte_of_int (length pass)] ++ pass ++ rest in
  let u := string_of_bytes user in
  let p := string_of_bytes pass in
  (Valid creds u p = true ->
   UserPass_Authenticate creds (mkConn sub (S (S wr)) tr)
   = (mkConn rest wr (tr ++ [EvSend [x05; x02]; EvSend [x01; x00]]),
      (Some {| Method := UserPassAuth; Payload := {[ "Username" := u ]} |},
       None)))
  /\ (Valid creds u p = false ->
      UserPass_Authenticate creds (mkConn sub (S (S wr)) tr)
      = (mkConn rest wr (tr ++ [EvSend [x05; x02]; EvSend [x01; x01]]),
         (None, Some UserAuthFailed))
      /\ (authMethods s !! UserPassAuth = Some (UserPassAuthenticator creds) ->
          ServeConn handleRequest s remoteAddr
            (mkConn ([x05; x01; x02] ++ sub) (S (S wr)) tr)
          = (mkConn rest wr
               (tr ++ [EvSend [x05; x02]; EvSend [x01; x01]; EvClose]),
             Some (Errorf_v "failed to authenticate: %v" UserAuthFailed)))).
Proof.
  intros Hu Hp sub u p.
  pose proof (UserPass_Authenticate_frame creds user pass rest wr tr Hu Hp)
    as Hrun.
  fold sub u p in Hrun.
  split.
  - intros Hv. now rewrite Hrun, Hv.
  - intros Hv. rewrite Hv in Hrun. split; [exact Hrun|].
    intros Hreg.
    assert (Hauth :
      authenticate s (mkConn ([x01; x02] ++ sub) (S (S wr)) tr)
      = (mkConn rest wr (tr ++ [EvSend [x05; x02]; EvSend [x01; x01]]),
         (None, Some UserAuthFailed))).
    { change ([x01; x02] ++ sub)
        with ([byte_of_int (length [x02])] ++ [x02] ++ sub).
      rewrite (authenticate_select s [x02] sub (S (S wr)) tr)
        by (simpl; lia).
      cbn [selectMethod]. unfold UserPassAuth in Hreg.
      rewrite Hreg. exact Hrun. }
    rewrite (ServeConn_auth_error
               (mkConn ([x05; x01; x02] ++ sub) (S (S wr)) tr) _ _ _
               Hauth eq_refl).
    unfold log_event. simpl. rewrite <- app_assoc. reflexivity.
Qed.
End Driver.

(* ===================================================================== *)
(** * Server construction                                                  *)
(* ===================================================================== *)

(** The table maps a code to the last authenticator of the list that has
    this code. *)
Lemma indexAuthMethods_lookup (l : list Authenticator) (code : byte) :
  indexAuthMethods l !! code
  = last (filter (fun a => GetCode a = code) l).
Proof.
  unfold indexAuthMethods.
  induction l as [|a l IH] using rev_ind; [apply lookup_empty|].
  rewrite foldl_app, filter_app. simpl.
  destruct (decide (GetCode a = code)) as [Heq|Hne].
  - rewrite Heq, lookup_insert_eq.
    rewrite filter_cons_True by exact Heq.
    rewrite filter_nil. symmetry. apply last_snoc.
  - rewrite lookup_insert_ne by exact Hne.
    rewrite filter_cons_False by exact Hne.
    rewrite filter_nil, app_nil_r. exact IH.
Qed.

(** C10.  [New] returns no error.  The server it returns holds the
    configuration with the defaults filled in: when no authenticator is
    configured, user/password if there are credentials and no-auth
    otherwise; the DNS resolver; the permit-all rules; and it allows
    every IP.  Its table maps each code to the last configured
    authenticator with that code. *)
Theorem New_defaults `{NetLib} (conf : Config) :
  let s := fst (New conf) in
  snd (New conf) = None
  /\ AuthMethods (config s)
     = match AuthMethods conf, Credentials conf with
       | [], Some creds => [UserPassAuthenticator creds]
       | [], None => [NoAuthAuthenticator]
       | l, _ => l
       end
  /\ (forall code,
        authMethods s !! code
        = last (filter (fun a => GetCode a = code) (AuthMethods (config s))))
  /\ (forall a, In a (AuthMethods (config s)) ->
        exists a', authMethods s !! GetCode a = Some a'
                   /\ GetCode a' = GetCode a)
  /\ Resolver (config s) = Some (default DNSResolver (Resolver conf))
  /\ Rules (config s) = Some (default PermitAll (Rules conf))
  /\ (forall ip, isIPAllowed s ip = true).
Proof.
  intros s. unfold s, New. simpl.
  split; [reflexivity|]. split.
  { destruct (AuthMethods conf); [|reflexivity].
    destruct (Credentials conf); reflexivity. }
  split; [intros code; apply indexAuthMethods_lookup|].
  split.
  { intros a Ha. rewrite indexAuthMethods_lookup.
    set (l := if length (AuthMethods conf) =? 0 then _ else _) in *.
    assert (Hin : a ∈ filter (fun x => GetCode x = GetCode a) l).
    { apply list_elem_of_filter. split; [reflexivity|].
      now apply list_elem_of_In. }
    destruct (last (filter (fun x => GetCode x = GetCode a) l)) as [a'|] eqn:E.
    - exists a'. split; [reflexivity|].
      apply last_Some_elem_of in E.
      apply list_elem_of_filter in E. tauto.
    - apply last_None in E. rewrite E in Hin. inversion Hin. }
  split; [destruct (Resolver conf); reflexivity|].
  split; [destruct (Rules conf); reflexivity|].
  reflexivity.
Qed.

(* ===================================================================== *)
(** * The BIND handler                                                     *)
(* ===================================================================== *)

(** A reply frame starts with VER=5 and the REP code. *)
Lemma replyFrame_head (resp : byte) (addr : option AddrSpec) (msg : list byte) :
  replyFrame resp addr = Ok msg ->
  exists atyp body, msg = [x05; resp; x00; atyp] ++ body.
Proof.
  unfold replyFrame. intros Hmsg.
  destruct addr as [a|].
  - destruct (negb (String.eqb (FQDN a) EmptyString)).
    + injection Hmsg as <-. eauto.
    + destruct (To4 (IP a)).
      * injection Hmsg as <-. eauto.
      * destruct (length (IP a) =? 16); [|discriminate].
        injection Hmsg as <-. eauto.
  - injection Hmsg as <-. eauto.
Qed.

Lemma sendReply_ok (resp : byte) (addr : option AddrSpec) (msg i : list byte)
    (wr : nat) (tr : list event) :
  replyFrame resp addr = Ok msg ->
  sendReply resp addr (mkConn i (S wr) tr)
  = (mkConn i wr (tr ++ [EvSend msg]), None).
Proof. intros Hmsg. unfold sendReply. now rewrite Hmsg. Qed.

Lemma log_run (e : event) (i : list byte) (wr : nat) (tr : list event) :
  log e (mkConn i wr tr) = (mkConn i wr (tr ++ [e]), tt).
Proof. reflexivity. Qed.

Section BindProps.
Context `{NetLib}.
Variable BindCallBack : bool.

(** When the listener cannot be opened the handler answers with
    REP=0x01 and returns the error. *)
Lemma doBind_listen_error (s : Server) (env : BindEnv) (req : Request)
    (err : error) (c : Conn) :
  env_listen env = Err err ->
  doBind BindCallBack s env req c
  = (fst (sendReply serverFailure None c), Returned (Some err)).
Proof.
  intros Hlisten. unfold doBind. rewrite Hlisten.
  unfold bind, ret. now destruct (sendReply serverFailure None c).
Qed.

(** C5.  The listener opens on [listenAddr] and the first [Accept]
    returns a connection from [peer_remote tcpConn]; the control
    connection takes three writes.  Then the handler sends the first
    reply, REP=0x00 with the bind IP and the listener's port, accepts
    that one connection whatever its address and whatever the request's
    destination, sends the second reply, REP=0x00 with the peer's
    address, and only then relays bytes. *)
Theorem doBind_two_replies (s : Server) (env : BindEnv) (req : Request)
    (listenAddr host port remoteIp remotePort : string)
    (tcpConn : TCPPeer) (more : list (result TCPPeer))
    (reply1 reply2 i : list byte) (wr : nat) (tr : list event) :
  env_listen env = Ok listenAddr ->
  SplitHostPort listenAddr = Ok (host, port) ->
  env_accept env = Ok tcpConn :: more ->
  SplitHostPort (peer_remote tcpConn) = Ok (remoteIp, remotePort) ->
  replyFrame successReply
    (Some {| FQDN := EmptyString; IP := BindIP (config s); Port := Atoi port |})
  = Ok reply1 ->
  replyFrame successReply
    (Some {| FQDN := EmptyString; IP := ParseIP remoteIp; Port := Atoi remotePort |})
  = Ok reply2 ->
  doBind BindCallBack s env req (mkConn i (S (S (S wr))) tr)
  = (mkConn [] (match peer_in tcpConn with [] => S wr | _ => wr end)
       (tr ++ [EvListen listenAddr]
           ++ (if BindCallBack then [EvCallBack listenAddr] else [])
           ++ [EvSend reply1; EvAccept (peer_remote tcpConn); EvSend reply2]
           ++ relay_events i (peer_in tcpConn)
           ++ [EvPeerClose; EvListenerClose]),
     Returned None)
  /\ (exists atyp1 body1 atyp2 body2,
        reply1 = [x05; x00; x00; atyp1] ++ body1
        /\ reply2 = [x05; x00; x00; atyp2] ++ body2).
Proof.
  intros Hlisten Hsplit Haccept Hsplit2 Hr1 Hr2.
  split.
  - unfold doBind, defer, sendReply, bind, log, log_event, ret, Write.
    rewrite Hlisten.
    destruct BindCallBack;
      rewrite Hsplit, Hr1; simpl; rewrite Haccept; simpl;
      rewrite Hsplit2, Hr2; simpl;
      unfold relay_events, proxy_to_peer, proxy_to_client, ret, Write;
      destruct i as [|i0 i']; destruct (peer_in tcpConn) as [|p0 p'];
      simpl; rewrite <- ?app_assoc; simpl; reflexivity.
  - apply replyFrame_head in Hr1 as (a1 & b1 & ->).
    apply replyFrame_head in Hr2 as (a2 & b2 & ->).
    exists a1, b1, a2, b2. split; reflexivity.
Qed.
End BindProps.

(* ===================================================================== *)
(** * The UDP ASSOCIATE handler                                            *)
(* ===================================================================== *)

Section AssociateProps.
Context `{NetLib}.
Variable s : Server.
Variable memCreater : MemAllocation.

(** The task that discards the control connection's bytes touches
    neither the flow table nor a socket when it returns. *)
Lemma drainReturns_keeps (st : Relay) :
  peers (drainReturns st) = peers st
  /\ heap (drainReturns st) = heap st
  /\ tasks (drainReturns st) = tasks st
  /\ utrace (drainReturns st) = utrace st.
Proof. repeat split. Qed.

(** After the control connection has ended the handler still waits for
    the next datagram. *)
Lemma readFromSrc_loop_ctrl_blocked (st : Relay) :
  readFromSrc_loop s memCreater [InCtrl] st = RBlocked (drainReturns st).
Proof. reflexivity. Qed.

(** What does tear the handler down is an error of the read on the UDP
    socket: every socket of the table is closed before the handler
    returns. *)
Lemma readFromSrc_loop_read_error (st : Relay) (err : error)
    (dialErr writeErr : option error) (now : Z) (rest : list step_input)
    (key : string) (ptr : nat) :
  peers st !! key = Some ptr ->
  exists st',
    readFromSrc_loop s memCreater
      (InUdp (Err err) dialErr writeErr now :: rest) st
    = RReturned st' err
    /\ In (USockClose ptr) (utrace st').
Proof.
  intros Hkey. exists (CloseAll st). split; [reflexivity|].
  unfold CloseAll, ulog. simpl. apply in_or_app. right.
  apply list_elem_of_In, list_elem_of_fmap.
  exists ptr. split; [reflexivity|].
  apply list_elem_of_fmap. exists (key, ptr). split; [reflexivity|].
  now apply elem_of_map_to_list.
Qed.

(** C8.  A datagram from [from] arrives whose destination [Address]
    prints as [addr]; its flow is the entry of the table under the key
    of [from] and [addr], which is how the code tells flows apart.
    When the table has no such entry and the dial fails, the handler
    returns an error that the loop drops, its state, the flow table
    included, is unchanged, and the loop waits for the next datagram.
    When the entry exists and the write to its socket fails, exactly
    that socket is closed and exactly that entry removed; every other
    entry, the structs and the running tasks stay as they are, and the
    loop waits for the next datagram.  In both cases the steps that
    follow are run from that state. *)
Theorem flow_failure_is_local (st : Relay) (from : UDPAddr)
    (bs : list byte) (d : Datagram) (addr : string)
    (dialErr writeErr : option error) (now : Z) :
  NewDatagramFromByte memCreater (firstn udpBufSize bs) = Ok d ->
  Address d = Some addr ->
  let key := (from ++ "-" ++ addr)%string in
  let step := InUdp (Ok (from, bs)) dialErr writeErr now in
  (forall err,
      UA_Get key st = None ->
      match Dial (config s) with
      | Some dial => dial "udp" addr
      | None => dialErr
      end = Some err ->
      (exists e,
         handleDatagram s st from d dialErr writeErr now = Some (st, Some e))
      /\ readFromSrc_loop s memCreater [step] st = RBlocked st
      /\ forall rest,
           readFromSrc_loop s memCreater (step :: rest) st
           = readFromSrc_loop s memCreater rest st)
  /\ (forall ptr p err,
        UA_Get key st = Some ptr ->
        heap st !! ptr = Some p ->
        writeErr = Some err ->
        let st' :=
          {| peers := delete key (peers st); heap := heap st;
             tasks := tasks st; nsock := nsock st; drained := drained st;
             utrace := utrace st ++ [USockClose (dst p)] |} in
        handleDatagram s st from d dialErr writeErr now = Some (st', None)
        /\ readFromSrc_loop s memCreater [step] st = RBlocked st'
        /\ (forall rest,
              readFromSrc_loop s memCreater (step :: rest) st
              = readFromSrc_loop s memCreater rest st')
        /\ peers st' !! key = None
        /\ forall k, k <> key -> peers st' !! k = peers st !! k).
Proof.
  intros Hparse Haddr key step. split.
  - intros err Hnew Hdial.
    assert (Hstep : exists e,
               handleDatagram s st from d dialErr writeErr now
               = Some (st, Some e)).
    { unfold handleDatagram. rewrite Haddr. simpl. fold key. rewrite Hnew.
      destruct (Dial (config s)); rewrite Hdial; eexists; reflexivity. }
    destruct Hstep as [e Hstep]. split; [exists e; exact Hstep|].
    unfold step. cbn [readFromSrc_loop]. rewrite Hparse, Hstep.
    split; [reflexivity|]. intros rest. reflexivity.
  - intros ptr p err Hflow Hptr -> st'.
    assert (Hstep : handleDatagram s st from d dialErr (Some err) now
                    = Some (st', None)).
    { unfold handleDatagram. rewrite Haddr. simpl. fold key. rewrite Hflow.
      simpl. rewrite Hptr. reflexivity. }
    split; [exact Hstep|].
    unfold step. cbn [readFromSrc_loop]. rewrite Hparse, Hstep.
    split; [reflexivity|]. split; [intros rest; reflexivity|].
    unfold st'. cbn [peers]. split.
    + apply lookup_delete_eq.
    + intros k Hk. now apply lookup_delete_ne.
Qed.
End AssociateProps.

(* ===================================================================== *)
(** * The theorems at concrete inputs                                      *)
(* ===================================================================== *)

(** The client offers user/password and no-auth to the default server,
    which has no-auth only. *)
Lemma authenticate_first_registered_witness :
  length [x02; x00] <= 255
  /\ authenticate exServer
       (mkConn ([byte_of_int (length [x02; x00])] ++ [x02; x00] ++ [x05]) 1 [])
     = Authenticate NoAuthAuthenticator (mkConn [x05] 1 [])
  /\ Authenticate NoAuthAuthenticator (mkConn [x05] 1 [])
     = (mkConn [x05] 0 [EvSend [x05; x00]],
        (Some {| Method := NoAuth; Payload := ∅ |}, None)).
Proof.
  split; [simpl; lia|]. split; [|reflexivity].
  apply (proj1 (authenticate_first_registered exServer [x02; x00] [x05] 1 []
                  ltac:(simpl; lia)) [x02] x00 []);
    [reflexivity | repeat constructor | reflexivity].
Defined.

(** Scenario S4 of the spec: a request with ATYP=5 after a no-auth
    negotiation. *)
Lemma ServeConn_reply_on_parse_error_witness :
  @ServeConn exampleNet exHandleRequest exServer exClient
    (mkConn [x05; x01; x00;
             x05; x01; x00; x05; x00; x00; x00; x00; x00; x00] 2 [])
  = (mkConn [x00; x00; x00; x00; x00; x00] 0
       ([EvSend [x05; x00]]
        ++ [EvSend [x05; x08; x00; x01; x00; x00; x00; x00; x00; x00];
            EvClose]),
     Some (Errorf_v "failed to read destination address: %v"
                    errUnrecognizedAddrType)).
Proof.
  apply (proj1 (@ServeConn_reply_on_parse_error exampleNet exHandleRequest
                  exServer exClient "127.0.0.1" "5000" eq_refl eq_refl
                  (mkConn [x05; x01; x00;
                           x05; x01; x00; x05; x00; x00; x00; x00; x00; x00]
                          2 [])
                  (Some {| Method := NoAuth; Payload := ∅ |})
                  [x05; x01; x00; x05; x00; x00; x00; x00; x00; x00]
                  1 [EvSend [x05; x00]] eq_refl eq_refl)
         x01 x00 x05 [x00; x00; x00; x00; x00; x00]);
    [discriminate | discriminate | discriminate | reflexivity].
Defined.

(** Scenario S6 of the spec: the peer 10.0.0.5:54321 is not the
    destination 192.168.1.2:8080 of the request, and is accepted. *)
Lemma doBind_two_replies_witness :
  @doBind exampleNet false exServer exBindEnv exBindRequest (mkConn [] 3 [])
  = (mkConn [] 0
       ([] ++ [EvListen "0.0.0.0:40001"] ++ []
        ++ [EvSend [x05; x00; x00; x01; x7f; x00; x00; x01; x9c; x41];
            EvAccept "10.0.0.5:54321";
            EvSend [x05; x00; x00; x01; x0a; x00; x00; x05; xd4; x31]]
        ++ relay_events [] [x68; x69]
        ++ [EvPeerClose; EvListenerClose]),
     Returned None).
Proof.
  apply (proj1 (@doBind_two_replies exampleNet false exServer exBindEnv
                  exBindRequest "0.0.0.0:40001" "0.0.0.0" "40001"
                  "10.0.0.5" "54321" exPeer []
                  [x05; x00; x00; x01; x7f; x00; x00; x01; x9c; x41]
                  [x05; x00; x00; x01; x0a; x00; x00; x05; xd4; x31]
                  [] 0 []
                  eq_refl eq_refl eq_refl eq_refl
                  ltac:(vm_compute; reflexivity)
                  ltac:(vm_compute; reflexivity))).
Defined.

(** Scenario S2 of the spec, user [foo] with password [bar], and the same
    user with the password [baz]. *)
Lemma UserPass_Authenticate_verdict_witness :
  UserPass_Authenticate exCreds
    (mkConn ([userAuthVersion; byte_of_int (length [x66; x6f; x6f])]
             ++ [x66; x6f; x6f]
             ++ [byte_of_int (length [x62; x61; x72])] ++ [x62; x61; x72]
             ++ [x05]) 2 [])
  = (mkConn [x05] 0 ([] ++ [EvSend [x05; x02]; EvSend [x01; x00]]),
     (Some {| Method := UserPassAuth; Payload := {[ "Username" := "foo" ]} |},
      None))
  /\ @ServeConn exampleNet exHandleRequest exAuthServer exClient
       (mkConn ([x05; x01; x02]
                ++ [userAuthVersion; byte_of_int (length [x66; x6f; x6f])]
                ++ [x66; x6f; x6f]
                ++ [byte_of_int (length [x62; x61; x7a])] ++ [x62; x61; x7a]
                ++ [x05]) 2 [])
     = (mkConn [x05] 0
          ([] ++ [EvSend [x05; x02]; EvSend [x01; x01]; EvClose]),
        Some (Errorf_v "failed to authenticate: %v" UserAuthFailed)).
Proof.
  split.
  - apply (proj1 (@UserPass_Authenticate_verdict exampleNet exHandleRequest
                    exAuthServer exClient "127.0.0.1" "5000" eq_refl eq_refl
                    exCreds [x66; x6f; x6f] [x62; x61; x72] [x05] 0 []
                    ltac:(simpl; lia) ltac:(simpl; lia))).
    vm_compute. reflexivity.
  - apply (proj2 (@UserPass_Authenticate_verdict exampleNet exHandleRequest
                    exAuthServer exClient "127.0.0.1" "5000" eq_refl eq_refl
                    exCreds [x66; x6f; x6f] [x62; x61; x7a] [x05] 0 []
                    ltac:(simpl; lia) ltac:(simpl; lia))).
    + vm_compute. reflexivity.
    + vm_compute. reflexivity.
Defined.

(** A datagram for 127.0.0.1 with port 0, and one for 0.0.0.0:8888. *)
Lemma NewDatagramFromByte_zero_port_zero_addr_witness :
  (exists e,
     NewDatagramFromByte Mem
       ([x00; x00] ++ [x00; ipv4Address]
        ++ wire_addr ipv4Address [x7f; x00; x00; x01] ++ [x00; x00] ++ [x70])
     = Err e)
  /\ NewDatagramFromByte Mem
       ([x00; x00] ++ [x00; ipv4Address]
        ++ wire_addr ipv4Address [x00; x00; x00; x00] ++ [x22; xb8] ++ [x70])
     = Ok {| memCreater := Mem; Rsv := [x00; x00]; Frag := x00;
             ATyp := ipv4Address; DstAddr := [x00; x00; x00; x00];
             DstPort := [x22; xb8]; Data := [x70] |}.
Proof.
  destruct (NewDatagramFromByte_zero_port_zero_addr
              [x00; x00] [x7f; x00; x00; x01] [x22; xb8] [x70] x00 ipv4Address
              eq_refl eq_refl) as [Hzero Hok].
  split; [exact Hzero|].
  apply Hok; [reflexivity | discriminate | discriminate].
Defined.

(** With the flow to 127.0.0.1:8888 open, a datagram for 127.0.0.1:9999
    finds no flow and the dial fails.  With both flows open, the write of
    a datagram of the first flow fails: its socket 0 is closed and its
    entry removed, the entry of the second flow stays, and the datagram
    of the second flow that follows is handled from that state. *)
Lemma flow_failure_is_local_witness :
  @readFromSrc_loop exampleNet exServer Mem
    [InUdp (Ok (exFrom, exPing2)) (Some (ErrNet "unreachable")) None 4%Z]
    exOneFlow
  = RBlocked exOneFlow
  /\ @readFromSrc_loop exampleNet exServer Mem
       [InUdp (Ok (exFrom, exPing)) None (Some (ErrNet "refused")) 5%Z]
       exTwoFlows
     = RBlocked
         {| peers := delete "10.0.0.9:4000-127.0.0.1:8888" (peers exTwoFlows);
            heap := heap exTwoFlows; tasks := tasks exTwoFlows;
            nsock := nsock exTwoFlows; drained := drained exTwoFlows;
            utrace := utrace exTwoFlows ++ [USockClose 0] |}
  /\ delete "10.0.0.9:4000-127.0.0.1:8888" (peers exTwoFlows)
       !! "10.0.0.9:4000-127.0.0.1:9999"
     = peers exTwoFlows !! "10.0.0.9:4000-127.0.0.1:9999"
  /\ @readFromSrc_loop exampleNet exServer Mem
       [InUdp (Ok (exFrom, exPing)) None (Some (ErrNet "refused")) 5%Z;
        InUdp (Ok (exFrom, exPing2)) None None 6%Z]
       exTwoFlows
     = @readFromSrc_loop exampleNet exServer Mem
         [InUdp (Ok (exFrom, exPing2)) None None 6%Z]
         {| peers := delete "10.0.0.9:4000-127.0.0.1:8888" (peers exTwoFlows);
            heap := heap exTwoFlows; tasks := tasks exTwoFlows;
            nsock := nsock exTwoFlows; drained := drained exTwoFlows;
            utrace := utrace exTwoFlows ++ [USockClose 0] |}.
Proof.
  pose proof
    (proj1 (@flow_failure_is_local exampleNet exServer Mem exOneFlow
              exFrom exPing2 exPing2Datagram "127.0.0.1:9999"
              (Some (ErrNet "unreachable")) None 4%Z
              ltac:(vm_compute; reflexivity)
              ltac:(vm_compute; reflexivity))
       (ErrNet "unreachable")
       ltac:(vm_compute; reflexivity)
       ltac:(vm_compute; reflexivity)) as (_ & Hdial & _).
  pose proof
    (proj2 (@flow_failure_is_local exampleNet exServer Mem exTwoFlows
              exFrom exPing exPingDatagram "127.0.0.1:8888"
              None (Some (ErrNet "refused")) 5%Z
              ltac:(vm_compute; reflexivity)
              ltac:(vm_compute; reflexivity))
       0
       {| updateTime := 0; from := exFrom; dst := 0;
          atyp := ipv4Address; dstAddr := [x7f; x00; x00; x01];
          dstPort := [x22; xb8] |}
       (ErrNet "refused")
       ltac:(vm_compute; reflexivity)
       ltac:(vm_compute; reflexivity) eq_refl)
    as (_ & Hwrite & Hrest & _ & Hother).
  split; [exact Hdial|]. split; [exact Hwrite|].
  split; [apply Hother; discriminate|].
  exact (Hrest [InUdp (Ok (exFrom, exPing2)) None None 6%Z]).
Defined.

(** A datagram for the name [ab], port 8888: its address reads [b:8888]. *)
Lemma parsed_fqdn_Address_drops_first_char_witness :
  exists d,
    NewDatagramFromByte Mem exNameFrame = Ok d
    /\ ATyp d = fqdnAddress
    /\ DstAddr d = [x61; x62]
    /\ @Address exampleNet d = Some "b:8888"
    /\ exists c rest p,
         DstAddr d = c :: rest
         /\ Uint16 (DstPort d) = Some p
         /\ @Address exampleNet d
            = Some (JoinHostPort (string_of_bytes rest) (Itoa p)).
Proof.
  eexists. split; [vm_compute; reflexivity|].
  split; [reflexivity|]. split; [reflexivity|]. split; [vm_compute; reflexivity|].
  apply (@parsed_fqdn_Address_drops_first_char exampleNet exNameFrame);
    vm_compute; reflexivity.
Defined.

(* ===================================================================== *)
(** * The end of the control connection                                    *)
(* ===================================================================== *)

(** C1.  On the code the end of the control connection tears nothing
    down.  A client sends [ping] for 127.0.0.1:8888, which opens a flow,
    and then closes the TCP connection: the task that discards the
    connection's bytes returns, and the handler still waits for the next
    datagram, with the UDP socket and the flow's socket open. *)
Theorem control_eof_leaves_sockets_open :
  exists c st,
    @doAssociate exampleNet exServer (Ok "0.0.0.0:40000")
      [InUdp (Ok (exFrom, exPing)) None None 0%Z; InCtrl] (mkConn [] 1 [])
    = (c, RBlocked st)
    /\ drained st = true
    /\ peers st !! "10.0.0.9:4000-127.0.0.1:8888" = Some 0
    /\ utrace st = [UDial 0 "127.0.0.1:8888";
                    USockWrite 0 [x70; x69; x6e; x67]]
    /\ ~ In UServerClose (utrace st)
    /\ ~ In (USockClose 0) (utrace st).
Proof.
  eexists. eexists. split; [vm_compute; reflexivity|].
  split; [reflexivity|]. split; [vm_compute; reflexivity|].
  split; [reflexivity|].
  split; simpl; intros [Hf|[Hf|[]]]; discriminate Hf.
Qed.

(* ===================================================================== *)
(** * More on the datagram codec                                           *)
(* ===================================================================== *)

(** X1.  The parser accepts exactly the well-formed frames: a buffer
    parses to [d] if and only if it is the frame of [d]'s fields, with
    two RSV bytes, FRAG=0, an address of the size of its type, a
    two-byte port that is not zero and a payload that is not empty. *)
Theorem NewDatagramFromByte_iff_frame (bs : list byte) (d : Datagram) :
  NewDatagramFromByte Mem bs = Ok d
  <-> (memCreater d = Mem
       /\ Frag d = x00
       /\ length (Rsv d) = 2
       /\ valid_addr (ATyp d) (DstAddr d) = true
       /\ length (DstPort d) = 2
       /\ DstPort d <> [x00; x00]
       /\ Data d <> []
       /\ bs = frame (Rsv d) x00 (ATyp d) (DstAddr d) (DstPort d) (Data d)).
Proof.
  split.
  - apply NewDatagramFromByte_inv.
  - intros (Hm & Hf & Hrsv & Hvalid & Hport & Hnz & Hdata & ->).
    unfold frame. rewrite NewDatagramFromByte_wire by assumption.
    destruct d; simpl in *. now subst.
Qed.

(** X2.  What the parser refuses before it looks at the address, with
    any allocator: a buffer of at most four bytes; a fragment (FRAG not
    0) whatever follows; an address type other than 1, 3, 4; a name of
    length 0. *)
Theorem NewDatagramFromByte_rejects (m : MemAllocation) (bs : list byte) :
  (length bs <= 4 -> NewDatagramFromByte m bs = Err ErrDatagramIllegal)
  /\ (4 < length bs -> nth 2 bs x00 <> x00 ->
      NewDatagramFromByte m bs = Err ErrDatagramSlice)
  /\ (4 < length bs -> nth 2 bs x00 = x00 ->
      nth 3 bs x00 <> ipv4Address -> nth 3 bs x00 <> fqdnAddress ->
      nth 3 bs x00 <> ipv6Address ->
      NewDatagramFromByte m bs = Err ErrDatagramIllegal)
  /\ (4 < length bs -> nth 2 bs x00 = x00 ->
      nth 3 bs x00 = fqdnAddress -> nth 4 bs x00 = x00 ->
      NewDatagramFromByte m bs = Err ErrDatagramIllegal).
Proof.
  unfold NewDatagramFromByte. repeat split.
  - intros Hlen. destruct (Nat.leb_spec (length bs) 4); [reflexivity|lia].
  - intros Hlen Hfrag.
    destruct (Nat.leb_spec (length bs) 4); [lia|].
    apply byte_eqb_neq in Hfrag. now rewrite Hfrag.
  - intros Hlen Hfrag H4 Hn H6.
    destruct (Nat.leb_spec (length bs) 4); [lia|].
    rewrite Hfrag. simpl negb. cbv iota.
    unfold parseDstAddr. now rewrite !decide_False by assumption.
  - intros Hlen Hfrag Hn Hzero.
    destruct (Nat.leb_spec (length bs) 4); [lia|].
    rewrite Hfrag. simpl negb. cbv iota.
    unfold parseDstAddr. rewrite Hn.
    rewrite !decide_False by discriminate. rewrite decide_True by reflexivity.
    destruct (Nat.ltb_spec (length bs) (4 + 1)); [reflexivity|].
    change (4 + 1 - 1) with 4. now rewrite Hzero.
Qed.

(** A name of length 0. *)
Lemma NewDatagramFromByte_rejects_witness :
  NewDatagramFromByte Mem [x00; x00; x00; x03; x00; x22; xb8; x70]
  = Err ErrDatagramIllegal.
Proof.
  apply (proj2 (proj2 (proj2 (NewDatagramFromByte_rejects Mem
                                [x00; x00; x00; x03; x00; x22; xb8; x70])))).
  - simpl. lia.
  - reflexivity.
  - reflexivity.
  - reflexivity.
Defined.

Lemma int_of_byte_zero (b : byte) : int_of_byte b = 0 -> b = x00.
Proof.
  intros Hb. rewrite <- (byte_of_int_of_byte b), Hb. reflexivity.
Qed.

(** The size of the DST.ADDR field of a well-sized address is fixed by the
    type and, for a name, by the length byte. *)
Lemma valid_wire_length (aTyp : byte) (addr addr' : list byte) :
  valid_addr aTyp addr = true -> valid_addr aTyp addr' = true ->
  (aTyp = fqdnAddress ->
   byte_of_int (length addr) = byte_of_int (length addr')) ->
  length addr = length addr'.
Proof.
  unfold valid_addr. intros H1 H2 Hlen.
  repeat case_decide; try discriminate.
  - apply Nat.eqb_eq in H1, H2. lia.
  - apply Nat.eqb_eq in H1, H2. lia.
  - apply andb_true_iff in H1 as [_ H1], H2 as [_ H2].
    apply Nat.leb_le in H1, H2.
    specialize (Hlen ltac:(assumption)). apply (f_equal int_of_byte) in Hlen.
    now rewrite !int_of_byte_of_int in Hlen by assumption.
Qed.

(** X3.  A frame that is cut before its first payload byte is refused:
    no datagram is made of a header alone or of a part of it. *)
Theorem NewDatagramFromByte_truncated (rsv addr port data : list byte)
    (aTyp : byte) (k : nat) :
  length rsv = 2 ->
  valid_addr aTyp addr = true ->
  length port = 2 ->
  k <= 4 + length (wire_addr aTyp addr) + 2 ->
  exists e,
    NewDatagramFromByte Mem (firstn k (frame rsv x00 aTyp addr port data))
    = Err e.
Proof.
  intros Hrsv Hvalid Hport Hk.
  set (F := frame rsv x00 aTyp addr port data).
  destruct (NewDatagramFromByte Mem (firstn k F)) as [d|e] eqn:Hparse;
    [exfalso | eauto].
  apply NewDatagramFromByte_inv in Hparse
    as (_ & _ & Hrsv' & Hvalid' & Hport' & _ & Hdata' & HF).
  assert (Hd : 0 < length (Data d))
    by (destruct (Data d); [congruence | simpl; lia]).
  assert (Hlen : length (firstn k F)
                 = 4 + length (wire_addr (ATyp d) (DstAddr d)) + 2
                   + length (Data d)).
  { rewrite HF. list_len. lia. }
  assert (Hw : 0 < length (wire_addr (ATyp d) (DstAddr d))).
  { rewrite length_wire_addr. unfold valid_addr in Hvalid'.
    repeat case_decide; try discriminate; try lia;
      apply Nat.eqb_eq in Hvalid'; lia. }
  assert (Hk8 : 7 < k) by (rewrite length_take in Hlen; lia).
  assert (Hlr : length rsv = length (Rsv d)) by lia.
  destruct rsv as [|r0 [|r1 [|]]]; try discriminate.
  destruct (Rsv d) as [|s0 [|s1 [|]]]; try discriminate.
  assert (Ht : ATyp d = aTyp).
  { pose proof (f_equal (fun l => nth 3 l x00) HF) as H3.
    simpl in H3. rewrite nth_firstn in H3.
    destruct (Nat.ltb_spec 3 k); [|lia]. now rewrite <- H3. }
  rewrite Ht in *.
  assert (Hsame : length (DstAddr d) = length addr).
  { apply (valid_wire_length aTyp); [assumption | assumption |].
    intros ->.
    pose proof (f_equal (fun l => nth 4 l x00) HF) as H4.
    simpl in H4. rewrite nth_firstn in H4.
    destruct (Nat.ltb_spec 4 k); [|lia]. now rewrite <- H4. }
  rewrite length_take in Hlen.
  rewrite !length_wire_addr in *. rewrite Hsame in Hlen.
  case_decide; lia.
Qed.

Lemma NewDatagramFromByte_truncated_witness :
  exists e,
    NewDatagramFromByte Mem
      (firstn 10 (frame [x00; x00] x00 ipv4Address [x7f; x00; x00; x01]
                        [x22; xb8] [x70; x69; x6e; x67]))
    = Err e.
Proof.
  apply (NewDatagramFromByte_truncated [x00; x00] [x7f; x00; x00; x01]
           [x22; xb8] [x70; x69; x6e; x67] ipv4Address 10);
    first [reflexivity | vm_compute; lia].
Defined.

(** X4.  Decode, then encode: building a datagram again from the fields
    of a parsed one and encoding it gives the bytes that were parsed,
    with the two RSV bytes set to zero. *)
Theorem reencode_parsed (bs buf : list byte) (d : Datagram) :
  NewDatagramFromByte Mem bs = Ok d ->
  length bs <= length buf ->
  encode (NewDatagram Mem (ATyp d) (DstAddr d) (DstPort d) (Data d)) buf
  = Some ([x00; x00] ++ skipn 2 bs).
Proof.
  intros Hparse Hfit.
  apply NewDatagramFromByte_inv in Hparse
    as (_ & _ & Hrsv & _ & _ & _ & _ & Hbs).
  rewrite NewDatagram_Mem.
  rewrite encode_spec.
  - simpl. rewrite Hbs at 1.
    rewrite (skipn_mid (Rsv d)) by (symmetry; exact Hrsv). reflexivity.
  - reflexivity.
  - simpl. rewrite Hbs in Hfit. revert Hfit. list_len. lia.
Qed.

Lemma reencode_parsed_witness :
  NewDatagramFromByte Mem exPing = Ok exPingDatagram
  /\ encode (NewDatagram Mem (ATyp exPingDatagram) (DstAddr exPingDatagram)
               (DstPort exPingDatagram) (Data exPingDatagram))
            (repeat x00 20)
     = Some ([x00; x00] ++ skipn 2 exPing).
Proof.
  split; [vm_compute; reflexivity|].
  apply (reencode_parsed exPing (repeat x00 20) exPingDatagram);
    [vm_compute; reflexivity | vm_compute; lia].
Defined.

Lemma set_at_keeps (buf : list byte) (idx j : nat) (v : byte) (buf' : list byte) :
  set_at buf idx v = Some buf' -> idx < j -> skipn j buf' = skipn j buf.
Proof.
  unfold set_at. destruct (idx <? length buf); [|discriminate].
  intros [= <-] Hlt. now apply drop_insert_lt.
Qed.

Lemma copy_at_keeps (buf src : list byte) (idx j : nat) (buf' : list byte) :
  copy_at buf idx src = Some buf' ->
  idx + length src <= length buf -> idx + length src <= j ->
  skipn j buf' = skipn j buf.
Proof.
  unfold copy_at. destruct (Nat.leb_spec idx (length buf)); [|discriminate].
  intros [= <-] Hfit Hj. unfold copy.
  rewrite length_drop, (take_ge src) by lia.
  rewrite app_assoc.
  rewrite drop_app_ge by (rewrite length_app, length_take; lia).
  rewrite length_app, length_take, drop_drop, drop_drop.
  f_equal. lia.
Qed.

(** X5.  [toBytes] on a datagram with two RSV bytes, as both constructors
    make them: it does not panic; when the buffer is shorter than the
    datagram it returns -1 and leaves the buffer as it is; otherwise it
    returns the length of the datagram, writes the fields in order at the
    start of the buffer and leaves the bytes after them as they were. *)
Theorem toBytes_within_bounds (d : Datagram) (buf : list byte) :
  length (Rsv d) = 2 ->
  let total :=
    4 + length (DstAddr d) + length (DstPort d) + length (Data d) in
  (length buf < total -> toBytes d buf = Some ((-1)%Z, buf))
  /\ (total <= length buf ->
      exists buf',
        toBytes d buf = Some (Z.of_nat total, buf')
        /\ length buf' = length buf
        /\ firstn total buf'
           = Rsv d ++ [Frag d; ATyp d] ++ DstAddr d ++ DstPort d ++ Data d
        /\ skipn total buf' = skipn total buf).
Proof.
  intros Hrsv total. unfold toBytes. split.
  - intros Hshort.
    destruct (Nat.ltb_spec (length buf)
                (2 + 1 + 1 + length (DstAddr d) + length (DstPort d)
                 + length (Data d))) as [|Hge]; [reflexivity|].
    unfold total in Hshort. lia.
  - intros Hfit. unfold total in Hfit.
    destruct (Nat.ltb_spec (length buf)
                (2 + 1 + 1 + length (DstAddr d) + length (DstPort d)
                 + length (Data d))) as [|_]; [lia|].
    set (b0 := copy buf (Rsv d)).
    assert (L0 : length b0 = length buf) by apply length_copy.
    assert (T0 : firstn 2 b0 = Rsv d).
    { unfold b0, copy. rewrite (take_ge (Rsv d)) by lia.
      rewrite <- Hrsv at 1. apply take_app_length. }
    assert (K0 : skipn total b0 = skipn total buf).
    { unfold b0, copy. rewrite (take_ge (Rsv d)) by lia.
      rewrite drop_app_ge by (unfold total; lia).
      rewrite drop_drop. f_equal. unfold total. lia. }
    rewrite Nat.add_0_l, Hrsv.
    destruct (set_at_spec b0 (Rsv d) 2 (Frag d)) as (b1 & E1 & L1 & T1);
      [assumption | assumption | lia |].
    pose proof (set_at_keeps _ _ total _ _ E1 ltac:(unfold total; lia)) as K1.
    rewrite E1. simpl mbind.
    destruct (set_at_spec b1 (Rsv d ++ [Frag d]) 3 (ATyp d))
      as (b2 & E2 & L2 & T2); [list_len; lia | assumption | lia |].
    pose proof (set_at_keeps _ _ total _ _ E2 ltac:(unfold total; lia)) as K2.
    change (2 + 1) with 3. rewrite E2. simpl mbind.
    destruct (copy_at_spec b2 ((Rsv d ++ [Frag d]) ++ [ATyp d]) (DstAddr d) 4)
      as (b3 & E3 & L3 & T3); [list_len; lia | assumption | lia |].
    pose proof (copy_at_keeps _ _ _ total _ E3 ltac:(lia)
                  ltac:(unfold total; lia)) as K3.
    change (3 + 1) with 4. rewrite E3. simpl mbind.
    destruct (copy_at_spec b3 (((Rsv d ++ [Frag d]) ++ [ATyp d]) ++ DstAddr d)
                (DstPort d) (4 + length (DstAddr d)))
      as (b4 & E4 & L4 & T4); [list_len; lia | assumption | lia |].
    pose proof (copy_at_keeps _ _ _ total _ E4 ltac:(lia)
                  ltac:(unfold total; lia)) as K4.
    simpl in E4. rewrite E4. simpl mbind.
    destruct (copy_at_spec b4
                ((((Rsv d ++ [Frag d]) ++ [ATyp d]) ++ DstAddr d) ++ DstPort d)
                (Data d) (4 + length (DstAddr d) + length (DstPort d)))
      as (b5 & E5 & L5 & T5); [list_len; lia | assumption | lia |].
    pose proof (copy_at_keeps _ _ _ total _ E5 ltac:(lia)
                  ltac:(unfold total; lia)) as K5.
    simpl in E5. rewrite E5. simpl mbind.
    exists b5. split; [reflexivity|]. split; [lia|]. split.
    + unfold total. rewrite T5, <- !app_assoc. reflexivity.
    + congruence.
Qed.

Lemma toBytes_within_bounds_witness :
  toBytes exPingDatagram (repeat x00 8) = Some ((-1)%Z, repeat x00 8)
  /\ exists buf',
       toBytes exPingDatagram (repeat xff 16) = Some (14%Z, buf')
       /\ skipn 14 buf' = [xff; xff].
Proof.
  destruct (toBytes_within_bounds exPingDatagram (repeat x00 8) eq_refl)
    as [Hshort _].
  destruct (toBytes_within_bounds exPingDatagram (repeat xff 16) eq_refl)
    as [_ Hfit].
  split; [apply Hshort; vm_compute; lia|].
  destruct Hfit as (buf' & Hrun & _ & _ & Hkeep); [vm_compute; lia|].
  exists buf'. split; [exact Hrun | exact Hkeep].
Defined.

(** X6.  [Address] does not panic on a datagram that the parser returns:
    it is the host, the name without its first byte or the printed IP,
    joined with the port, a number between 1 and 65535. *)
Theorem Address_of_parsed `{NetLib} (bs : list byte) (d : Datagram) :
  NewDatagramFromByte Mem bs = Ok d ->
  exists p,
    Uint16 (DstPort d) = Some p
    /\ 0 < p < 65536
    /\ Address d
       = Some (JoinHostPort
                 (if decide (ATyp d = fqdnAddress)
                  then string_of_bytes (tail (DstAddr d))
                  else IP_String (DstAddr d))
                 (Itoa p)).
Proof.
  intros Hparse.
  apply NewDatagramFromByte_inv in Hparse
    as (_ & _ & _ & Hvalid & Hport & Hnz & _).
  destruct (DstPort d) as [|p0 [|p1 [|]]] eqn:Hp; try discriminate.
  exists (int_of_byte p1 + int_of_byte p0 * 256).
  split; [reflexivity|]. split.
  - pose proof (int_of_byte_bound p0) as Hb0.
    pose proof (int_of_byte_bound p1) as Hb1.
    split; [|change 65536 with (256 * 256); lia].
    destruct (Nat.eq_dec (int_of_byte p0) 0) as [Hz0|]; [|lia].
    destruct (Nat.eq_dec (int_of_byte p1) 0) as [Hz1|]; [|lia].
    apply int_of_byte_zero in Hz0, Hz1. subst. congruence.
  - unfold Address. rewrite Hp. simpl Uint16.
    case_decide as Hf.
    + rewrite Hf in Hvalid. simpl in Hvalid.
      destruct (DstAddr d); [discriminate|]. reflexivity.
    + reflexivity.
Qed.

Lemma Address_of_parsed_witness :
  NewDatagramFromByte Mem exPing = Ok exPingDatagram
  /\ @Address exampleNet exPingDatagram = Some "127.0.0.1:8888"
  /\ exists p,
       Uint16 (DstPort exPingDatagram) = Some p
       /\ 0 < p < 65536
       /\ @Address exampleNet exPingDatagram
          = Some (JoinHostPort
                    (if decide (ATyp exPingDatagram = fqdnAddress)
                     then string_of_bytes (tail (DstAddr exPingDatagram))
                     else @IP_String exampleNet (DstAddr exPingDatagram))
                    (Itoa p)).
Proof.
  split; [vm_compute; reflexivity|]. split; [vm_compute; reflexivity|].
  apply (@Address_of_parsed exampleNet exPing exPingDatagram).
  vm_compute. reflexivity.
Defined.

(* ===================================================================== *)
(** * The client's datagram codec                                          *)
(* ===================================================================== *)

Lemma slice_0 (n : nat) (bs : list byte) : slice 0 n bs = firstn n bs.
Proof. unfold slice. now rewrite Nat.sub_0_r. Qed.

(** The address branch of the client's parser on a well-sized field. *)
Lemma Client_parseAddr_wire (hdr tl addr : list byte) (aTyp : byte) :
  length hdr = 4 -> nth 3 hdr x00 = aTyp ->
  valid_addr aTyp addr = true ->
  Client.parseAddr (hdr ++ wire_addr aTyp addr ++ tl) 4
  = Some (4 + length (wire_addr aTyp addr), wire_addr aTyp addr).
Proof.
  intros Hhdr Ht Hvalid.
  destruct hdr as [|h0 [|h1 [|h2 [|h3 [|]]]]]; try discriminate.
  simpl in Ht. subst h3.
  unfold valid_addr in Hvalid. unfold Client.parseAddr, wire_addr.
  change (nth 3 ([h0; h1; h2; aTyp] ++ _) x00) with aTyp.
  unfold Client.ATYPIPv4, Client.ATYPIPv6, Client.ATYPDomain.
  unfold ipv4Address, ipv6Address, fqdnAddress in *.
  destruct (decide (aTyp = x01)) as [->|H1].
  { apply Nat.eqb_eq in Hvalid. simpl. list_len. rewrite Hvalid.
    nat_tests. f_equal. f_equal.
    apply (slice_mid [h0; h1; h2; x01]); simpl; lia. }
  destruct (decide (aTyp = x04)) as [->|H4].
  { apply Nat.eqb_eq in Hvalid. simpl. list_len. rewrite Hvalid.
    nat_tests. f_equal. f_equal.
    apply (slice_mid [h0; h1; h2; x04]); simpl; lia. }
  destruct (decide (aTyp = x03)) as [->|H3]; [|discriminate].
  apply andb_true_iff in Hvalid as [Hlo Hhi].
  apply Nat.leb_le in Hlo, Hhi.
  change (nth 4 ([h0; h1; h2; x03] ++ ([byte_of_int (length addr)] ++ addr)
                 ++ tl) x00)
    with (byte_of_int (length addr)).
  rewrite int_of_byte_of_int by lia.
  rewrite decide_False.
  2:{ intros Hz. apply (f_equal int_of_byte) in Hz.
      rewrite int_of_byte_of_int in Hz by lia. simpl in Hz. lia. }
  list_len. nat_tests.
  f_equal. f_equal; try lia. f_equal.
  change ([h0; h1; h2; x03] ++ ([byte_of_int (length addr)] ++ addr) ++ tl)
    with ([h0; h1; h2; x03; byte_of_int (length addr)] ++ addr ++ tl).
  apply slice_mid; simpl; lia.
Qed.

(** The client's parser on a frame with a well-sized address and at least
    one byte of payload: every FRAG and every port is taken. *)
Lemma Client_parse_frame (rsv addr port data : list byte) (frag aTyp : byte) :
  length rsv = 2 ->
  valid_addr aTyp addr = true ->
  length port = 2 ->
  data <> [] ->
  Client.NewDatagramFromBytes (frame rsv frag aTyp addr port data)
  = Some {| Client.Rsv := rsv; Client.Frag := frag; Client.Atyp := aTyp;
            Client.DstAddr := wire_addr aTyp addr; Client.DstPort := port;
            Client.Data := data |}.
Proof.
  intros Hrsv Hvalid Hport Hdata.
  destruct rsv as [|r0 [|r1 [|]]]; try discriminate.
  destruct port as [|p0 [|p1 [|]]]; try discriminate.
  assert (Hd : 0 < length data) by (destruct data; [congruence | simpl; lia]).
  unfold frame, Client.NewDatagramFromBytes.
  change ([r0; r1] ++ [frag; aTyp] ++ wire_addr aTyp addr ++ [p0; p1] ++ data)
    with ([r0; r1; frag; aTyp] ++ wire_addr aTyp addr ++ [p0; p1] ++ data).
  rewrite (Client_parseAddr_wire [r0; r1; frag; aTyp]) by auto.
  set (W := wire_addr aTyp addr). clearbody W.
  remember ([r0; r1; frag; aTyp] ++ W ++ [p0; p1] ++ data) as bb eqn:Hbb.
  assert (Hlen : length bb = 4 + length W + 2 + length data).
  { rewrite Hbb. list_len. lia. }
  destruct (Nat.ltb_spec (length bb) 4); [lia|].
  destruct (Nat.leb_spec (length bb) (4 + length W + 2)); [lia|].
  f_equal.
  replace (slice 0 2 bb) with [r0; r1] by (rewrite Hbb; reflexivity).
  replace (nth 2 bb x00) with frag by (rewrite Hbb; reflexivity).
  replace (nth 3 bb x00) with aTyp by (rewrite Hbb; reflexivity).
  f_equal.
  - rewrite Hbb, (app_assoc _ W).
    apply slice_mid; rewrite ?length_app; simpl; lia.
  - rewrite Hbb, (app_assoc _ W), (app_assoc _ [p0; p1]).
    apply skipn_mid. rewrite !length_app. simpl. lia.
Qed.

Lemma Client_Bytes_NewDatagramC (aTyp : byte) (addr port data : list byte) :
  Client.Bytes (Client.NewDatagramC aTyp addr port data)
  = frame [x00; x00] x00 aTyp addr port data.
Proof.
  unfold Client.Bytes, Client.NewDatagramC, frame, wire_addr. simpl.
  unfold Client.ATYPDomain, fqdnAddress.
  case_decide; simpl; rewrite <- ?app_assoc; reflexivity.
Qed.

(** X7.  Decode, then encode, on the client: the bytes of a datagram
    that [NewDatagramFromBytes] returns are the bytes it was given. *)
Theorem Client_Bytes_of_parsed (bb : list byte) (d : Client.DatagramC) :
  Client.NewDatagramFromBytes bb = Some d -> Client.Bytes d = bb.
Proof.
  unfold Client.NewDatagramFromBytes.
  destruct (Nat.ltb_spec (length bb) 4) as [|H4]; [discriminate|].
  destruct (Client.parseAddr bb 4) as [[m addr]|] eqn:Haddr; [|discriminate].
  destruct (Nat.leb_spec (length bb) (m + 2)) as [|Hm]; [discriminate|].
  intros [= <-]. unfold Client.Bytes. simpl.
  assert (Htake : firstn m bb = firstn 4 bb ++ addr).
  { unfold Client.parseAddr in Haddr.
    destruct (decide (nth 3 bb x00 = Client.ATYPIPv4)).
    { destruct (Nat.ltb_spec (length bb) (4 + 4)); [discriminate|].
      injection Haddr as <- <-. apply (take_slice 4 (4 + 4)). lia. }
    destruct (decide (nth 3 bb x00 = Client.ATYPIPv6)).
    { destruct (Nat.ltb_spec (length bb) (4 + 16)); [discriminate|].
      injection Haddr as <- <-. apply (take_slice 4 (4 + 16)). lia. }
    destruct (decide (nth 3 bb x00 = Client.ATYPDomain)); [|discriminate].
    destruct (Nat.ltb_spec (length bb) (4 + 1)); [discriminate|].
    destruct (decide (nth 4 bb x00 = x00)); [discriminate|].
    destruct (Nat.ltb_spec (length bb)
                (4 + 1 + int_of_byte (nth 4 bb x00))); [discriminate|].
    set (L := int_of_byte (nth 4 bb x00)) in *.
    injection Haddr as <- <-. simpl.
    replace (S (S (S (S (S L)))) - L) with 5 by lia.
    rewrite (take_slice 5 (S (S (S (S (S L)))))) by lia.
    rewrite (take_S_nth 4) by lia.
    now rewrite <- app_assoc. }
  rewrite slice_0.
  replace (m + 2 - 2) with m by lia.
  rewrite <- (take_drop (m + 2) bb) at 6.
  rewrite (take_slice m (m + 2)) by lia.
  rewrite Htake, (take_S_nth 3), (take_S_nth 2) by lia.
  rewrite <- !app_assoc. reflexivity.
Qed.

Lemma Client_Bytes_of_parsed_witness :
  exists d,
    Client.NewDatagramFromBytes exNameFrame = Some d
    /\ Client.DstAddr d = [x02; x61; x62]
    /\ Client.Bytes d = exNameFrame.
Proof.
  eexists. split; [vm_compute; reflexivity|]. split; [reflexivity|].
  apply (Client_Bytes_of_parsed exNameFrame). vm_compute. reflexivity.
Defined.

(** X8.  Encode, then decode, on the client: the datagram that
    [NewDatagramC] builds for an address of the size of its type, a
    two-byte port and a payload that is not empty is parsed back from
    its bytes, for a name too: this parser keeps the length byte in
    [DstAddr]. *)
Theorem Client_roundtrip (aTyp : byte) (addr port data : list byte) :
  valid_addr aTyp addr = true ->
  length port = 2 ->
  data <> [] ->
  Client.NewDatagramFromBytes
    (Client.Bytes (Client.NewDatagramC aTyp addr port data))
  = Some (Client.NewDatagramC aTyp addr port data).
Proof.
  intros Hvalid Hport Hdata.
  rewrite Client_Bytes_NewDatagramC.
  rewrite Client_parse_frame by auto.
  unfold Client.NewDatagramC, wire_addr, Client.ATYPDomain, fqdnAddress.
  reflexivity.
Qed.

Lemma Client_roundtrip_witness :
  Client.NewDatagramFromBytes
    (Client.Bytes (Client.NewDatagramC fqdnAddress [x61; x62] [x22; xb8]
                     [x70; x6f]))
  = Some (Client.NewDatagramC fqdnAddress [x61; x62] [x22; xb8] [x70; x6f]).
Proof.
  apply (Client_roundtrip fqdnAddress [x61; x62] [x22; xb8] [x70; x6f]);
    [reflexivity | reflexivity | discriminate].
Defined.

(** X9.  The two codecs agree on the wire.  The server parses what the
    client builds, when the port is not zero, to the address without the
    length byte; the client parses what the server encodes to the
    datagram that its own constructor builds from the same arguments. *)
Theorem client_server_interop (aTyp : byte) (addr port data buf : list byte) :
  valid_addr aTyp addr = true ->
  length port = 2 ->
  data <> [] ->
  (port <> [x00; x00] ->
   NewDatagramFromByte Mem
     (Client.Bytes (Client.NewDatagramC aTyp addr port data))
   = Ok {| memCreater := Mem; Rsv := [x00; x00]; Frag := x00; ATyp := aTyp;
           DstAddr := addr; DstPort := port; Data := data |})
  /\ (4 + length (wire_addr aTyp addr) + length port + length data
      <= length buf ->
      exists bs,
        encode (NewDatagram Mem aTyp addr port data) buf = Some bs
        /\ Client.NewDatagramFromBytes bs
           = Some (Client.NewDatagramC aTyp addr port data)).
Proof.
  intros Hvalid Hport Hdata. split.
  - intros Hnz. rewrite Client_Bytes_NewDatagramC. unfold frame.
    now apply NewDatagramFromByte_wire.
  - intros Hfit. rewrite NewDatagram_Mem.
    eexists. split.
    + apply encode_spec; [reflexivity | exact Hfit].
    + etransitivity;
        [apply (Client_parse_frame [x00; x00] addr port data x00 aTyp); auto|].
      unfold Client.NewDatagramC, wire_addr, Client.ATYPDomain, fqdnAddress.
      reflexivity.
Qed.

Lemma client_server_interop_witness :
  NewDatagramFromByte Mem
    (Client.Bytes (Client.NewDatagramC fqdnAddress [x61; x62] [x22; xb8]
                     [x70; x6f]))
  = Ok {| memCreater := Mem; Rsv := [x00; x00]; Frag := x00;
          ATyp := fqdnAddress; DstAddr := [x61; x62]; DstPort := [x22; xb8];
          Data := [x70; x6f] |}
  /\ exists bs,
       encode (NewDatagram Mem fqdnAddress [x61; x62] [x22; xb8] [x70; x6f])
              (repeat x00 16) = Some bs
       /\ Client.NewDatagramFromBytes bs
          = Some (Client.NewDatagramC fqdnAddress [x61; x62] [x22; xb8]
                    [x70; x6f]).
Proof.
  destruct (client_server_interop fqdnAddress [x61; x62] [x22; xb8]
              [x70; x6f] (repeat x00 16) eq_refl eq_refl ltac:(discriminate))
    as [Hs Hc].
  split; [apply Hs; discriminate | apply Hc; vm_compute; lia].
Defined.

(* ===================================================================== *)
(** * More on the authentication                                           *)
(* ===================================================================== *)

Lemma ReadAtLeast_Ok_conn (n : nat) (c c' : Conn) (bs : list byte) :
  ReadAtLeast n c = (c', Ok bs) ->
  c_in c = bs ++ c_in c' /\ length bs = n
  /\ c_trace c' = c_trace c /\ c_writes c' = c_writes c.
Proof.
  unfold ReadAtLeast.
  destruct (Nat.leb_spec n (length (c_in c))); [|discriminate].
  intros [= <- <-]. simpl. repeat split.
  - symmetry. apply take_drop.
  - rewrite length_take. lia.
Qed.

Lemma Read1_Ok_conn (c c' : Conn) (b : byte) :
  Read1 c = (c', Ok b) ->
  c_in c = b :: c_in c'
  /\ c_trace c' = c_trace c /\ c_writes c' = c_writes c.
Proof.
  unfold Read1. destruct (c_in c); [discriminate|].
  intros [= <- <-]. simpl. repeat split.
Qed.

Lemma Write_None_conn (p : list byte) (c c' : Conn) :
  Write p c = (c', None) ->
  c_in c' = c_in c /\ c_trace c' = c_trace c ++ [EvSend p]
  /\ c_writes c = S (c_writes c').
Proof.
  unfold Write. destruct (c_writes c); [discriminate|].
  intros [= <-]. simpl. repeat split.
Qed.

Lemma Write_Some_conn (p : list byte) (c c' : Conn) (e : error) :
  Write p c = (c', Some e) ->
  c' = c /\ e = ErrBrokenPipe /\ c_writes c = 0.
Proof.
  unfold Write. destruct (c_writes c); [|discriminate].
  intros [= <- <-]. repeat split.
Qed.

(** X10.  The user/password authenticator returns a context only after
    the credential store has accepted the pair that the client sent, on
    every input and whatever the state of the connection: then there is
    no error, the method is user/password, the payload holds that user,
    the pair is what was read after the header [1, ULEN], and the writes
    are the method selection and then the status [1, 0x00]. *)
Theorem UserPass_Authenticate_sound (creds : CredentialStore)
    (c c' : Conn) (ctx : AuthContext) (e : option error) :
  UserPass_Authenticate creds c = (c', (Some ctx, e)) ->
  e = None
  /\ Method ctx = UserPassAuth
  /\ exists user pass,
       Valid creds (string_of_bytes user) (string_of_bytes pass) = true
       /\ Payload ctx = {[ "Username" := string_of_bytes user ]}
       /\ c_in c = [userAuthVersion; byte_of_int (length user)] ++ user
                   ++ [byte_of_int (length pass)] ++ pass ++ c_in c'
       /\ c_trace c' = c_trace c ++ [EvSend [x05; x02]; EvSend [x01; x00]].
Proof.
  unfold UserPass_Authenticate, bind, ret.
  destruct (Write [socks5Version; UserPassAuth] c) as [c1 [w1|]] eqn:Hw1;
    [discriminate|].
  destruct (ReadAtLeast 2 c1) as [c2 [header|e2]] eqn:Hr2; [|discriminate].
  case_decide as Hver; [discriminate|].
  destruct (ReadAtLeast (int_of_byte (nth 1 header x00)) c2)
    as [c3 [user|e3]] eqn:Hr3; [|discriminate].
  destruct (Read1 c3) as [c4 [plen|e4]] eqn:Hr4; [|discriminate].
  destruct (ReadAtLeast (int_of_byte plen) c4) as [c5 [pass|e5]] eqn:Hr5;
    [|discriminate].
  destruct (Valid creds (string_of_bytes user) (string_of_bytes pass)) eqn:Hv.
  2:{ destruct (Write [userAuthVersion; authFailure] c5) as [? [?|]];
      discriminate. }
  destruct (Write [userAuthVersion; authSuccess] c5) as [c6 [w6|]] eqn:Hw6;
    [discriminate|].
  intros [= <- <- <-].
  split; [reflexivity|]. split; [reflexivity|].
  exists user, pass. split; [exact Hv|]. split; [reflexivity|].
  apply Write_None_conn in Hw1 as (Hi1 & Ht1 & _).
  apply ReadAtLeast_Ok_conn in Hr2 as (Hi2 & Hl2 & Ht2 & _).
  apply ReadAtLeast_Ok_conn in Hr3 as (Hi3 & Hl3 & Ht3 & _).
  apply Read1_Ok_conn in Hr4 as (Hi4 & Ht4 & _).
  apply ReadAtLeast_Ok_conn in Hr5 as (Hi5 & Hl5 & Ht5 & _).
  apply Write_None_conn in Hw6 as (Hi6 & Ht6 & _).
  destruct header as [|h0 [|h1 [|]]]; try discriminate.
  simpl in Hver, Hl3.
  assert (h0 = userAuthVersion) as ->
    by (destruct (decide (h0 = userAuthVersion)); tauto).
  split.
  - rewrite <- Hi1, Hi2, Hi3, Hi4, Hi5, Hi6.
    rewrite Hl3, Hl5, !byte_of_int_of_byte. reflexivity.
  - rewrite Ht6, Ht5, Ht4, Ht3, Ht2, Ht1, <- app_assoc. reflexivity.
Qed.

(** X11.  A user/password request whose version byte is not 1 is refused
    after the two header bytes: the error names the byte, the credential
    store is not consulted, no status is written (the only write is the
    method selection) and the rest of the stream is left unread. *)
Theorem UserPass_Authenticate_bad_version (creds : CredentialStore)
    (v ulen : byte) (rest : list byte) (wr : nat) (tr : list event) :
  v <> userAuthVersion ->
  UserPass_Authenticate creds (mkConn (v :: ulen :: rest) (S wr) tr)
  = (mkConn rest wr (tr ++ [EvSend [x05; x02]]),
     (None, Some (Errorf_b "Unsupported auth version: %v" v))).
Proof.
  intros Hv. unfold UserPass_Authenticate, bind, ret, Write, ReadAtLeast.
  simpl. case_decide as Hd; [reflexivity|].
  exfalso. apply Hv. destruct (decide (v = userAuthVersion)); tauto.
Qed.

Lemma UserPass_Authenticate_bad_version_witness :
  UserPass_Authenticate exCreds
    (mkConn [x05; x02; x61; x62] 1 [])
  = (mkConn [x61; x62] 0 [EvSend [x05; x02]],
     (None, Some (Errorf_b "Unsupported auth version: %v" x05))).
Proof.
  apply (UserPass_Authenticate_bad_version exCreds x05 x02 [x61; x62] 0 []).
  discriminate.
Defined.

(** X12.  A method offer that ends before its NMETHODS methods are there
    is refused with the wrapped read error, end of file when no method
    byte came and unexpected end of file otherwise; the same holds on an
    empty stream.  No server writes anything then, whatever it has
    registered. *)
Theorem authenticate_truncated_offer (s : Server) (wr : nat)
    (tr : list event) :
  authenticate s (mkConn [] wr tr)
  = (mkConn [] wr tr,
     (None, Some (Errorf_v "Failed to get auth methods: %v" EOF)))
  /\ forall (nb : byte) (ms : list byte),
       length ms < int_of_byte nb ->
       authenticate s (mkConn (nb :: ms) wr tr)
       = (mkConn [] wr tr,
          (None, Some (Errorf_v "Failed to get auth methods: %v"
                         (match ms with
                          | [] => EOF
                          | _ => ErrUnexpectedEOF
                          end)))).
Proof.
  split; [reflexivity|].
  intros nb ms Hlen.
  unfold authenticate, authenticate_with, readMethods, bind, ret.
  rewrite Read1_cons. unfold ReadAtLeast. simpl c_in.
  destruct (Nat.leb_spec (int_of_byte nb) (length ms)); [lia|].
  reflexivity.
Qed.

Lemma authenticate_truncated_offer_witness :
  authenticate exAuthServer (mkConn [x02; x00] 5 [])
  = (mkConn [] 5 [],
     (None, Some (Errorf_v "Failed to get auth methods: %v" ErrUnexpectedEOF))).
Proof.
  apply (proj2 (authenticate_truncated_offer exAuthServer 5 []) x02 [x00]).
  vm_compute. lia.
Defined.

Lemma selectMethod_singleton (code : byte) (cator : Authenticator)
    (M : list byte) :
  selectMethod {[ code := cator ]} M
  = if decide (code ∈ M) then Authenticate cator
    else (err <- noAcceptableAuth ;; ret (None, Some err))%io.
Proof.
  induction M as [|x M IH].
  - cbn [selectMethod]. rewrite decide_False by apply not_elem_of_nil.
    reflexivity.
  - cbn [selectMethod]. destruct (decide (x = code)) as [->|Hne].
    + rewrite lookup_singleton_eq.
      rewrite decide_True by apply list_elem_of_here. reflexivity.
    + rewrite lookup_singleton_ne by (intros Heq; now apply Hne). rewrite IH.
      destruct (decide (code ∈ M)) as [Hin|Hnin].
      * rewrite decide_True by (now apply list_elem_of_further). reflexivity.
      * rewrite decide_False; [reflexivity|].
        intros Hin. apply elem_of_cons in Hin as [->|Hin]; tauto.
Qed.

(** X13.  A server made by [New] from a configuration without
    authenticators registers one method: user/password when credentials
    are configured, no-auth otherwise.  It runs the handshake of that
    method when the client's offer contains its code, wherever in the
    offer, and otherwise writes [5, 0xFF] and fails with the
    no-supported-auth error; so configured credentials turn no-auth off. *)
Theorem default_server_negotiation `{NetLib} (conf : Config)
    (M rest : list byte) (wr : nat) (tr : list event) :
  AuthMethods conf = [] ->
  length M <= 255 ->
  let cator := match Credentials conf with
               | Some creds => UserPassAuthenticator creds
               | None => NoAuthAuthenticator
               end in
  let c := mkConn ([byte_of_int (length M)] ++ M ++ rest) wr tr in
  let c' := mkConn rest wr tr in
  (GetCode cator ∈ M ->
     authenticate (fst (New conf)) c = Authenticate cator c')
  /\ (GetCode cator ∉ M ->
        authenticate (fst (New conf)) c
        = (fst (Write [x05; xff] c'), (None, Some NoSupportedAuth))).
Proof.
  intros Hnil HM cator c c'.
  assert (Htable : authMethods (fst (New conf)) = {[ GetCode cator := cator ]}).
  { unfold New. simpl. rewrite Hnil. simpl. subst cator.
    destruct (Credentials conf); reflexivity. }
  subst c c'. rewrite authenticate_select by exact HM.
  rewrite Htable, selectMethod_singleton.
  split; intros Hin.
  - rewrite decide_True by exact Hin. reflexivity.
  - rewrite decide_False by exact Hin.
    unfold noAcceptableAuth, bind, ret.
    destruct (Write _ _) as [c1 e1]. reflexivity.
Qed.

Lemma default_server_negotiation_witness :
  authenticate
    (fst (@New exampleNet
            (mkConfig [] (Some exCreds) None None None [x7f; x00; x00; x01]
                      None None None)))
    (mkConn [x01; x00; x05] 1 [])
  = (mkConn [x05] 0 [EvSend [x05; xff]], (None, Some NoSupportedAuth)).
Proof.
  apply (proj2 (@default_server_negotiation exampleNet
                  (mkConfig [] (Some exCreds) None None None
                            [x7f; x00; x00; x01] None None None)
                  [x00] [x05] 1 [] eq_refl ltac:(simpl; lia))).
  intros Hin. apply list_elem_of_singleton in Hin. discriminate.
Defined.

(** X14.  A server made by [New] from static credentials alone, a client
    that offers user/password among its methods and then sends a user and
    a password: the client is authenticated exactly when the map has the
    user with that password.  The status byte and the result follow, and
    the bytes after the password are left on the stream. *)
Theorem credentials_server_login `{NetLib} (conf : Config)
    (m : gmap string string) (M user pass rest : list byte) (wr : nat)
    (tr : list event) :
  AuthMethods conf = [] ->
  Credentials conf = Some (StaticCredentials m) ->
  length M <= 255 -> UserPassAuth ∈ M ->
  length user <= 255 -> length pass <= 255 ->
  authenticate (fst (New conf))
    (mkConn ([byte_of_int (length M)] ++ M
             ++ [userAuthVersion; byte_of_int (length user)] ++ user
             ++ [byte_of_int (length pass)] ++ pass ++ rest) (S (S wr)) tr)
  = if decide (m !! string_of_bytes user = Some (string_of_bytes pass))
    then (mkConn rest wr (tr ++ [EvSend [x05; x02]; EvSend [x01; x00]]),
          (Some {| Method := UserPassAuth;
                   Payload := {[ "Username" := string_of_bytes user ]} |},
           None))
    else (mkConn rest wr (tr ++ [EvSend [x05; x02]; EvSend [x01; x01]]),
          (None, Some UserAuthFailed)).
Proof.
  intros Hnil Hcreds HM Hin Hu Hp.
  assert (Htable : authMethods (fst (New conf))
                   = {[ UserPassAuth := UserPassAuthenticator (StaticCredentials m) ]}).
  { unfold New. simpl. rewrite Hnil, Hcreds. reflexivity. }
  rewrite authenticate_select by exact HM.
  rewrite Htable, selectMethod_singleton, decide_True by exact Hin.
  cbn [Authenticate UserPassAuthenticator].
  rewrite UserPass_Authenticate_frame by assumption.
  unfold StaticCredentials. cbn [Valid].
  destruct (m !! string_of_bytes user) as [p|] eqn:Hm.
  - case_bool_decide as Hb.
    + rewrite decide_True by congruence. reflexivity.
    + rewrite decide_False by congruence. reflexivity.
  - rewrite decide_False by discriminate. reflexivity.
Qed.

Lemma credentials_server_login_witness :
  authenticate
    (fst (@New exampleNet
            (mkConfig [] (Some exCreds) None None None [x7f; x00; x00; x01]
                      None None None)))
    (mkConn [x02; x00; x02; x01; x03; x66; x6f; x6f; x03; x62; x61; x7a; x05]
            2 [])
  = (mkConn [x05] 0 [EvSend [x05; x02]; EvSend [x01; x01]],
     (None, Some UserAuthFailed)).
Proof.
  apply (@credentials_server_login exampleNet
           (mkConfig [] (Some exCreds) None None None [x7f; x00; x00; x01]
                     None None None)
           {[ "foo" := "bar" ]} [x00; x02] [x66; x6f; x6f] [x62; x61; x7a]
           [x05] 0 [] eq_refl eq_refl).
  - simpl. lia.
  - apply list_elem_of_further, list_elem_of_here.
  - simpl. lia.
  - simpl. lia.
Defined.

(** User [foo] with password [bar], then the first byte of a request. *)
Lemma UserPass_Authenticate_sound_witness :
  (None : option error) = None
  /\ Method {| Method := UserPassAuth; Payload := {[ "Username" := "foo" ]} |}
     = UserPassAuth
  /\ exists user pass,
       Valid exCreds (string_of_bytes user) (string_of_bytes pass) = true
       /\ Payload {| Method := UserPassAuth;
                     Payload := {[ "Username" := "foo" ]} |}
          = {[ "Username" := string_of_bytes user ]}
       /\ c_in (mkConn [x01; x03; x66; x6f; x6f; x03; x62; x61; x72; x05] 2 [])
          = [userAuthVersion; byte_of_int (length user)] ++ user
            ++ [byte_of_int (length pass)] ++ pass
            ++ c_in (mkConn [x05] 0 [EvSend [x05; x02]; EvSend [x01; x00]])
       /\ c_trace (mkConn [x05] 0 [EvSend [x05; x02]; EvSend [x01; x00]])
          = c_trace (mkConn [x01; x03; x66; x6f; x6f; x03; x62; x61; x72; x05]
                            2 [])
            ++ [EvSend [x05; x02]; EvSend [x01; x00]].
Proof.
  apply (UserPass_Authenticate_sound exCreds
           (mkConn [x01; x03; x66; x6f; x6f; x03; x62; x61; x72; x05] 2 [])
           (mkConn [x05] 0 [EvSend [x05; x02]; EvSend [x01; x00]])
           {| Method := UserPassAuth; Payload := {[ "Username" := "foo" ]} |}
           None).
  vm_compute. reflexivity.
Defined.

(* ===================================================================== *)
(** * More on the connection driver                                        *)
(* ===================================================================== *)

(** X15.  After [SetIPAllowlist], a client whose address equals none of
    the listed ones is turned away before anything is read from the
    connection or written to it: the connection is closed and the error
    returned, whatever the client has sent and whatever the list was
    before.  With the empty list that is every client. *)
Theorem allowlist_blocks `{NetLib}
    (handleRequest : Server -> Request -> IO (option error))
    (s : Server) (allowedIPs : list (list byte)) (remoteAddr : Addr)
    (clientIP clientPort : string) (c : Conn) :
  SplitHostPort (addr_String remoteAddr) = Ok (clientIP, clientPort) ->
  (forall a, a ∈ allowedIPs -> IP_Equal (ParseIP clientIP) a = false) ->
  ServeConn handleRequest (SetIPAllowlist s allowedIPs) remoteAddr c
  = (log_event EvClose c,
     Some (Errorf "connection from not allowed IP address")).
Proof.
  intros Hsplit Hnone. unfold ServeConn. rewrite Hsplit.
  assert (Hfalse : isIPAllowed (SetIPAllowlist s allowedIPs) (ParseIP clientIP)
                   = false).
  { unfold SetIPAllowlist. cbn [isIPAllowed].
    induction allowedIPs as [|a l IH]; [reflexivity|].
    cbn [existsb]. rewrite Hnone by apply list_elem_of_here.
    apply IH. intros a' Ha'. apply Hnone. now apply list_elem_of_further. }
  rewrite Hfalse. reflexivity.
Qed.

Lemma allowlist_blocks_witness :
  @ServeConn exampleNet exHandleRequest
    (SetIPAllowlist exServer [[x0a; x00; x00; x01]]) exClient
    (mkConn [x05; x01; x00] 3 [])
  = (mkConn [x05; x01; x00] 3 [EvClose],
     Some (Errorf "connection from not allowed IP address")).
Proof.
  apply (@allowlist_blocks exampleNet exHandleRequest exServer
           [[x0a; x00; x00; x01]] exClient "127.0.0.1" "5000"
           (mkConn [x05; x01; x00] 3 [])).
  - vm_compute. reflexivity.
  - intros a Ha. apply list_elem_of_singleton in Ha. subst a.
    vm_compute. reflexivity.
Defined.

(** X16.  An allowed client whose first byte is not 5 is not answered:
    the connection is closed after that one byte, no method offer is read
    and nothing is written; the error is made from the format and the
    one-byte slice that holds the byte read.  On an empty stream the
    error is end of file. *)
Theorem ServeConn_bad_version `{NetLib}
    (handleRequest : Server -> Request -> IO (option error))
    (s : Server) (remoteAddr : Addr) (clientIP clientPort : string)
    (wr : nat) (tr : list event) :
  SplitHostPort (addr_String remoteAddr) = Ok (clientIP, clientPort) ->
  isIPAllowed s (ParseIP clientIP) = true ->
  ServeConn handleRequest s remoteAddr (mkConn [] wr tr)
  = (mkConn [] wr (tr ++ [EvClose]), Some EOF)
  /\ forall (version : byte) (rest : list byte),
       version <> socks5Version ->
       ServeConn handleRequest s remoteAddr (mkConn (version :: rest) wr tr)
       = (mkConn rest wr (tr ++ [EvClose]),
          Some (Errorf_bs "unsupported SOCKS version: %v" [version])).
Proof.
  intros Hsplit Hallowed. unfold ServeConn. rewrite Hsplit, Hallowed.
  split; [reflexivity|].
  intros version rest Hv. simpl negb. cbv iota.
  unfold bind at 1. unfold bind at 1. rewrite Read1_cons.
  rewrite decide_True by exact Hv. reflexivity.
Qed.

Lemma ServeConn_bad_version_witness :
  @ServeConn exampleNet exHandleRequest exServer exClient
    (mkConn [x04; x01; x00] 3 [])
  = (mkConn [x01; x00] 3 [EvClose],
     Some (Errorf_bs "unsupported SOCKS version: %v" [x04])).
Proof.
  apply (proj2 (@ServeConn_bad_version exampleNet exHandleRequest exServer
                  exClient "127.0.0.1" "5000" 3 []
                  ltac:(vm_compute; reflexivity) eq_refl)).
  discriminate.
Defined.

(** X17.  When the negotiation and the request parser succeed, the
    handler gets the parsed request with the negotiated context and, for
    a TCP client, the client's IP and port as the remote address; it runs
    on the connection as the parser left it, the connection is closed
    after it, and its error is returned wrapped. *)
Theorem ServeConn_dispatch `{NetLib}
    (handleRequest : Server -> Request -> IO (option error))
    (s : Server) (remoteAddr : Addr) (clientIP clientPort : string)
    (rest : list byte) (wr : nat) (tr : list event)
    (c1 c2 : Conn) (authContext : option AuthContext) (request : Request) :
  SplitHostPort (addr_String remoteAddr) = Ok (clientIP, clientPort) ->
  isIPAllowed s (ParseIP clientIP) = true ->
  authenticate s (mkConn rest wr tr) = (c1, (authContext, None)) ->
  NewRequest c1 = (c2, Ok request) ->
  let request' :=
    {| Version := Version request; Command := Command request;
       ReqAuthContext := authContext;
       RemoteAddr := match addr_TCP remoteAddr with
                     | Some (ip, port) =>
                         Some {| FQDN := EmptyString; IP := ip; Port := port |}
                     | None => RemoteAddr request
                     end;
       DestAddr := DestAddr request |} in
  ServeConn handleRequest s remoteAddr (mkConn (socks5Version :: rest) wr tr)
  = (log_event EvClose (fst (handleRequest s request' c2)),
     match snd (handleRequest s request' c2) with
     | Some err => Some (Errorf_v "failed to handle request: %v" err)
     | None => None
     end).
Proof.
  intros Hsplit Hallowed Hauth Hreq request'. unfold ServeConn.
  rewrite Hsplit, Hallowed. simpl negb. cbv iota.
  unfold bind at 1. unfold bind at 1. rewrite Read1_cons.
  rewrite decide_False by (intros Hne; now apply Hne).
  unfold bind at 1. rewrite Hauth.
  unfold bind at 1. rewrite Hreq.
  fold request'. unfold bind at 1.
  destruct (handleRequest s request' c2) as [c3 [e|]]; reflexivity.
Qed.

Lemma ServeConn_dispatch_witness :
  @ServeConn exampleNet exHandleRequest exServer exClient
    (mkConn [x05; x01; x00; x05; x01; x00; x01; x7f; x00; x00; x01; x00; x50]
            3 [])
  = (mkConn [] 2 [EvSend [x05; x00]; EvClose], None).
Proof.
  apply (@ServeConn_dispatch exampleNet exHandleRequest exServer exClient
           "127.0.0.1" "5000"
           [x01; x00; x05; x01; x00; x01; x7f; x00; x00; x01; x00; x50] 3 []
           (mkConn [x05; x01; x00; x01; x7f; x00; x00; x01; x00; x50] 2
                   [EvSend [x05; x00]])
           (mkConn [] 2 [EvSend [x05; x00]])
           (Some {| Method := NoAuth; Payload := ∅ |})
           {| Version := x05; Command := ConnectCommand;
              ReqAuthContext := None; RemoteAddr := None;
              DestAddr := {| FQDN := EmptyString;
                             IP := [x7f; x00; x00; x01]; Port := 80 |} |}
           ltac:(vm_compute; reflexivity) eq_refl
           ltac:(vm_compute; reflexivity) ltac:(vm_compute; reflexivity)).
Defined.

(* ===================================================================== *)
(** * The rule sets                                                        *)
(* ===================================================================== *)

(** X28.  A [PermitCommand] rule set decides by the command of the
    request alone, and no rule set of this kind permits a command other
    than CONNECT, BIND and ASSOCIATE: [PermitAll] permits exactly these
    three, [PermitNone] permits no request. *)
Theorem PermitCommand_Allow_commands
    (EnableConnect EnableBind EnableAssociate : bool) (req : Request) :
  let p := PermitCommand EnableConnect EnableBind EnableAssociate in
  (forall req', Command req' = Command req -> Allow p req' = Allow p req)
  /\ (Allow p req = true ->
      Command req ∈ [ConnectCommand; BindCommand; AssociateCommand])
  /\ (Allow PermitAll req = true
      <-> Command req ∈ [ConnectCommand; BindCommand; AssociateCommand])
  /\ Allow PermitNone req = false.
Proof.
  unfold PermitAll, PermitNone, PermitCommand. cbn [Allow].
  split; [|split; [|split]].
  - intros req' ->. reflexivity.
  - repeat case_decide; intros Hallow; try discriminate.
    + rewrite H. apply list_elem_of_here.
    + rewrite H0. apply list_elem_of_further, list_elem_of_here.
    + rewrite H1. do 2 apply list_elem_of_further. apply list_elem_of_here.
  - split.
    + repeat case_decide; intros Hallow; try discriminate.
      * rewrite H. apply list_elem_of_here.
      * rewrite H0. apply list_elem_of_further, list_elem_of_here.
      * rewrite H1. do 2 apply list_elem_of_further. apply list_elem_of_here.
    + intros Hin. repeat case_decide; try reflexivity.
      exfalso.
      repeat (apply elem_of_cons in Hin as [Hin|Hin]; [contradiction|]).
      now apply elem_of_nil in Hin.
  - repeat case_decide; reflexivity.
Qed.

(** A request with the command 9 under the permit-all rules. *)
Lemma PermitCommand_Allow_commands_witness :
  Allow PermitAll
    {| Version := x05; Command := x09; ReqAuthContext := None;
       RemoteAddr := None;
       DestAddr := {| FQDN := EmptyString; IP := []; Port := 0 |} |}
  = false.
Proof.
  destruct (Allow PermitAll
              {| Version := x05; Command := x09; ReqAuthContext := None;
                 RemoteAddr := None;
                 DestAddr := {| FQDN := EmptyString; IP := []; Port := 0 |} |})
    eqn:Hallow; [|reflexivity].
  exfalso.
  apply (proj1 (proj2 (PermitCommand_Allow_commands true true true
                         {| Version := x05; Command := x09;
                            ReqAuthContext := None; RemoteAddr := None;
                            DestAddr := {| FQDN := EmptyString; IP := [];
                                           Port := 0 |} |}))) in Hallow.
  repeat (apply elem_of_cons in Hallow as [Hallow|Hallow]; [discriminate|]).
  now apply elem_of_nil in Hallow.
Defined.

(* ===================================================================== *)
(** * More on the BIND handler                                             *)
(* ===================================================================== *)

(** Membership of an event in an explicit list of events. *)
Ltac no_such_event H :=
  exfalso;
  repeat (apply elem_of_cons in H as [H|H]; [discriminate H|]);
  now apply elem_of_nil in H.

Ltac has_event :=
  solve [repeat first [apply list_elem_of_here | apply list_elem_of_further]].

Section BindMore.
Context `{NetLib}.
Variable BindCallBack : bool.

(** X18.  When [Accept] fails after the first reply, the handler
    answers with REP=0x01 and a zero address if the connection still
    takes a write, drops the error of that write otherwise, closes the
    listener and returns the error of [Accept]; no connection is
    accepted and nothing is relayed. *)
Theorem doBind_accept_error (s : Server) (env : BindEnv) (req : Request)
    (listenAddr host port : string) (err : error)
    (more : list (result TCPPeer))
    (reply1 i : list byte) (wr : nat) (tr : list event) :
  env_listen env = Ok listenAddr ->
  SplitHostPort listenAddr = Ok (host, port) ->
  env_accept env = Err err :: more ->
  replyFrame successReply
    (Some {| FQDN := EmptyString; IP := BindIP (config s); Port := Atoi port |})
  = Ok reply1 ->
  doBind BindCallBack s env req (mkConn i (S wr) tr)
  = (mkConn i (pred wr)
       (tr ++ [EvListen listenAddr]
           ++ (if BindCallBack then [EvCallBack listenAddr] else [])
           ++ [EvSend reply1]
           ++ match wr with
              | 0 => []
              | S _ => [EvSend [x05; x01; x00; x01;
                                x00; x00; x00; x00; x00; x00]]
              end
           ++ [EvListenerClose]),
     Returned (Some err)).
Proof.
  intros Hlisten Hsplit Haccept Hr1.
  unfold doBind, defer, sendReply, bind, log, log_event, ret, Write.
  rewrite Hlisten.
  destruct BindCallBack;
    rewrite Hsplit, Hr1; simpl; rewrite Haccept; simpl;
    destruct wr as [|wr']; simpl; rewrite <- ?app_assoc; reflexivity.
Qed.

(** X19.  Whenever the handler returns, with or without an error, it
    has closed what it opened: if the listener was opened, closing it is
    the last event, and if a connection was accepted, it has been
    closed.  At most one connection is accepted. *)
Theorem doBind_closes_what_it_opened (s : Server) (env : BindEnv)
    (req : Request) (c c' : Conn) (err : option error) :
  doBind BindCallBack s env req c = (c', Returned err) ->
  exists evs,
    c_trace c' = c_trace c ++ evs
    /\ (forall a, EvListen a ∈ evs -> last evs = Some EvListenerClose)
    /\ (forall p, EvAccept p ∈ evs -> EvPeerClose ∈ evs)
    /\ length (List.filter is_accept evs) <= 1.
Proof.
  intros Hrun.
  unfold doBind, defer, sendReply, bind, log, log_event, ret,
    proxy_to_peer, proxy_to_client, Write in Hrun.
  simpl in Hrun.
  repeat match type of Hrun with
         | context [match ?x with _ => _ end] =>
             lazymatch x with
             | context [match _ with _ => _ end] => fail
             | _ => destruct x eqn:?; simpl in Hrun
             end
         end;
    try discriminate.
  all: injection Hrun as <- <-; simpl.
  all: eexists; split;
     [first [ rewrite <- ?app_assoc; simpl; reflexivity
            | symmetry; apply app_nil_r ]|].
  all: split; [intros a' Ha; first [reflexivity | no_such_event Ha]|].
  all: split; [intros p' Hp; first [has_event | no_such_event Hp]|].
  all: simpl; lia.
Qed.
End BindMore.

Lemma doBind_accept_error_witness :
  @doBind exampleNet true exServer
    {| env_listen := Ok "0.0.0.0:40001";
       env_accept := [Err (Errorf "accept tcp: use of closed network connection")] |}
    exBindRequest (mkConn [x68] 2 [])
  = (mkConn [x68] 0
       ([] ++ [EvListen "0.0.0.0:40001"] ++ [EvCallBack "0.0.0.0:40001"]
        ++ [EvSend [x05; x00; x00; x01; x7f; x00; x00; x01; x9c; x41]]
        ++ [EvSend [x05; x01; x00; x01; x00; x00; x00; x00; x00; x00]]
        ++ [EvListenerClose]),
     Returned (Some (Errorf "accept tcp: use of closed network connection"))).
Proof.
  apply (@doBind_accept_error exampleNet true exServer
           {| env_listen := Ok "0.0.0.0:40001";
              env_accept := [Err (Errorf "accept tcp: use of closed network connection")] |}
           exBindRequest "0.0.0.0:40001" "0.0.0.0" "40001"
           (Errorf "accept tcp: use of closed network connection") []
           [x05; x00; x00; x01; x7f; x00; x00; x01; x9c; x41]
           [x68] 1 []
           eq_refl eq_refl eq_refl ltac:(vm_compute; reflexivity)).
Defined.

Lemma doBind_closes_what_it_opened_witness :
  exists evs,
    [EvListen "0.0.0.0:40001";
     EvSend [x05; x00; x00; x01; x7f; x00; x00; x01; x9c; x41];
     EvAccept "10.0.0.5:54321";
     EvSend [x05; x00; x00; x01; x0a; x00; x00; x05; xd4; x31];
     EvSend [x68; x69]; EvPeerClose; EvListenerClose]
    = [] ++ evs
    /\ (forall a, EvListen a ∈ evs -> last evs = Some EvListenerClose)
    /\ (forall p, EvAccept p ∈ evs -> EvPeerClose ∈ evs)
    /\ length (List.filter is_accept evs) <= 1.
Proof.
  apply (@doBind_closes_what_it_opened exampleNet false exServer exBindEnv
           exBindRequest (mkConn [] 3 [])
           (mkConn [] 0
              [EvListen "0.0.0.0:40001";
               EvSend [x05; x00; x00; x01; x7f; x00; x00; x01; x9c; x41];
               EvAccept "10.0.0.5:54321";
               EvSend [x05; x00; x00; x01; x0a; x00; x00; x05; xd4; x31];
               EvSend [x68; x69]; EvPeerClose; EvListenerClose])
           None).
  vm_compute. reflexivity.
Defined.

(* ===================================================================== *)
(** * More on the UDP ASSOCIATE handler                                    *)
(* ===================================================================== *)

Lemma trace_ok_nil : trace_ok [].
Proof. intros pre post sock data Heq. now destruct pre. Qed.

(** Events other than writes keep [trace_ok]. *)
Lemma trace_ok_app_other (tr es : list uevent) :
  trace_ok tr ->
  (forall sock data, USockWrite sock data ∉ es) ->
  trace_ok (tr ++ es).
Proof.
  intros Hok Hes pre post sock data Heq.
  apply app_eq_app in Heq as [l0 [[Htr Hpost]|[Hpre Hes']]].
  - destruct l0 as [|e l0].
    + simpl in Hpost. exfalso. apply (Hes sock data).
      rewrite <- Hpost. apply list_elem_of_here.
    + injection Hpost as <- Hpost. apply (Hok pre l0 sock data). exact Htr.
  - exfalso. apply (Hes sock data). rewrite Hes'.
    apply elem_of_app. right. apply list_elem_of_here.
Qed.

(** A write to a socket that is dialled and not closed keeps it. *)
Lemma trace_ok_write (tr : list uevent) (sock : nat) (data : list byte) :
  trace_ok tr ->
  USockClose sock ∉ tr ->
  (exists addr, UDial sock addr ∈ tr) ->
  trace_ok (tr ++ [USockWrite sock data]).
Proof.
  intros Hok Hopen Hdial pre post sock' data' Heq.
  apply app_eq_app in Heq as [l0 [[Htr Hpost]|[Hpre Hes']]].
  - destruct l0 as [|e l0].
    + simpl in Hpost. injection Hpost as Hs Hd Hp. subst sock' data' post.
      rewrite app_nil_r in Htr. subst pre. auto.
    + injection Hpost as <- Hpost. apply (Hok pre l0 sock' data'). exact Htr.
  - destruct l0 as [|e l0].
    + simpl in Hes'. injection Hes' as Hs Hd Hp. subst sock' data' post.
      rewrite app_nil_r in Hpre. subst pre. auto.
    + injection Hes' as _ Hes'. now destruct l0.
Qed.

Lemma relay_inv_new : relay_inv NewUdpAssociate.
Proof.
  unfold relay_inv, NewUdpAssociate. simpl. split; [|split; [|split]].
  - intros key sock Hk. rewrite lookup_empty in Hk. discriminate.
  - intros k1 k2 sock Hk. rewrite lookup_empty in Hk. discriminate.
  - intros sock Hc. now apply elem_of_nil in Hc.
  - apply trace_ok_nil.
Qed.

Lemma uevent_in_snoc (e e' : uevent) (tr : list uevent) :
  e ∈ tr ++ [e'] <-> e ∈ tr \/ e = e'.
Proof. rewrite elem_of_app, list_elem_of_singleton. tauto. Qed.

(** Time stamps and events for the client change nothing that the
    invariant looks at. *)
Lemma relay_inv_send (st : Relay) (sock : nat) (now : Z) (to : UDPAddr)
    (out : list byte) :
  relay_inv st ->
  relay_inv (setUpdateTime sock now (ulog [UClientSend to out] st)).
Proof.
  intros (Hflow & Hinj & Hclosed & Hok).
  unfold relay_inv, setUpdateTime, ulog. simpl. split; [|split; [|split]].
  - intros key sk Hk. destruct (Hflow key sk Hk) as (Hlt & Hopen & [a Ha] & p & Hp & Hd).
    split; [exact Hlt|]. split.
    + rewrite uevent_in_snoc. intros [?|?]; [tauto|discriminate].
    + split; [exists a; apply uevent_in_snoc; auto|].
      destruct (decide (sock = sk)) as [->|Hne].
      * exists (touch now p). rewrite lookup_alter_eq, Hp. split; [reflexivity|exact Hd].
      * exists p. rewrite lookup_alter_ne by exact Hne. auto.
  - exact Hinj.
  - intros sk Hc. apply uevent_in_snoc in Hc as [Hc|Hc]; [auto|discriminate].
  - apply trace_ok_app_other; [exact Hok|].
    intros sk data Hin. apply list_elem_of_singleton in Hin. discriminate.
Qed.

(** A task that ends changes only the set of tasks. *)
Lemma relay_inv_tasks (st : Relay) (ts : gset nat) :
  relay_inv st ->
  relay_inv {| peers := peers st; heap := heap st; tasks := ts;
               nsock := nsock st; drained := drained st;
               utrace := utrace st |}.
Proof. intros Hinv. exact Hinv. Qed.

(** [toBytes] does not panic on a datagram with two RSV bytes. *)
Lemma toBytes_no_panic (d : Datagram) (buf : list byte) :
  length (Rsv d) = 2 -> is_Some (toBytes d buf).
Proof.
  intros Hrsv.
  destruct (Nat.ltb_spec (length buf)
              (2 + 1 + 1 + length (DstAddr d) + length (DstPort d)
               + length (Data d))) as [Hshort|Hfit].
  - unfold toBytes.
    destruct (Nat.ltb_spec (length buf)
                (2 + 1 + 1 + length (DstAddr d) + length (DstPort d)
                 + length (Data d))); [eexists; reflexivity | lia].
  - assert (Henc : is_Some (encode d buf))
      by (rewrite encode_spec by (assumption || lia); eexists; reflexivity).
    unfold encode in Henc.
    destruct (toBytes d buf) as [[n buf']|]; [eexists; reflexivity|].
    destruct Henc as [x Hx]. discriminate.
Qed.

(** A round of a reader does not panic and keeps the invariant. *)
Lemma relay_inv_readFromDst (st : Relay) (sock : nat) (r : result (list byte))
    (sendErr : option error) (now : Z) :
  relay_inv st ->
  exists st',
    readFromDst Mem st sock r sendErr now = Some st' /\ relay_inv st'.
Proof.
  intros Hinv. unfold readFromDst.
  destruct (negb _); [eauto|].
  destruct (heap st !! sock) as [udpPeer|]; [|eauto].
  destruct r as [data|err]; [|eauto].
  destruct (toBytes_no_panic
              (NewDatagram Mem (atyp udpPeer) (dstAddr udpPeer)
                 (dstPort udpPeer)
                 (firstn (Nat.min (length data) udpBufSize)
                    (copy (repeat x00 udpBufSize) data)))
              (copy (repeat x00 udpBufSize) data)) as [[n bs] Hto].
  { rewrite NewDatagram_Mem. reflexivity. }
  rewrite Hto.
  destruct (n <=? 0)%Z; [eauto|].
  destruct sendErr; [eauto|].
  eexists. split; [reflexivity|]. now apply relay_inv_send.
Qed.

(** The write to the target of a flow of the table. *)
Lemma relay_inv_writeToDst (st : Relay) (key : string) (p : UdpPeer)
    (data : list byte) (writeErr : option error) (now : Z) :
  relay_inv st ->
  peers st !! key = Some (dst p) ->
  relay_inv (writeToDst st key p data writeErr now).
Proof.
  intros (Hflow & Hinj & Hclosed & Hok) Hkey.
  destruct (Hflow key (dst p) Hkey) as (Hlt0 & Hopen0 & Hdial0 & _).
  unfold writeToDst. destruct writeErr as [err|].
  - unfold relay_inv, UA_Del, ulog. simpl. split; [|split; [|split]].
    + intros k sk Hk. apply lookup_delete_Some in Hk as [Hne Hk].
      destruct (Hflow k sk Hk) as (Hlt & Hopen & [a Ha] & q & Hq & Hd).
      split; [exact Hlt|]. split.
      * rewrite uevent_in_snoc. intros [?|Heq]; [tauto|].
        injection Heq as ->. apply Hne. now apply (Hinj key k (dst p)).
      * split; [exists a; apply uevent_in_snoc; auto|]. eauto.
    + intros k1 k2 sk Hk1 Hk2.
      apply lookup_delete_Some in Hk1 as [_ Hk1], Hk2 as [_ Hk2]. eauto.
    + intros sk Hc. apply uevent_in_snoc in Hc as [Hc|Hc]; [auto|].
      injection Hc as ->. exact Hlt0.
    + apply trace_ok_app_other; [exact Hok|].
      intros sk d Hin. apply list_elem_of_singleton in Hin. discriminate.
  - unfold relay_inv, setUpdateTime, ulog. simpl. split; [|split; [|split]].
    + intros k sk Hk.
      destruct (Hflow k sk Hk) as (Hlt & Hopen & [a Ha] & q & Hq & Hd).
      split; [exact Hlt|]. split.
      * rewrite uevent_in_snoc. intros [?|?]; [tauto|discriminate].
      * split; [exists a; apply uevent_in_snoc; auto|].
        destruct (decide (dst p = sk)) as [Heq|Hne].
        -- exists (touch now q). rewrite Heq, lookup_alter_eq, Hq.
           split; [reflexivity|exact Hd].
        -- exists q. rewrite lookup_alter_ne by exact Hne. auto.
    + exact Hinj.
    + intros sk Hc. apply uevent_in_snoc in Hc as [Hc|Hc]; [auto|discriminate].
    + now apply trace_ok_write.
Qed.

Section RelayInvariant.
Context `{NetLib}.
Variable s : Server.

(** [Address] prints every datagram that the parser returns. *)
Lemma Address_parsed_is_Some (bs : list byte) (d : Datagram) :
  NewDatagramFromByte Mem bs = Ok d -> is_Some (Address d).
Proof.
  intros Hparse.
  apply NewDatagramFromByte_inv in Hparse
    as (_ & _ & _ & Hvalid & Hport & _).
  destruct (DstPort d) as [|p0 [|p1 [|]]] eqn:Hp; try discriminate.
  unfold Address. rewrite Hp. simpl Uint16.
  case_decide as Hf; [|eexists; reflexivity].
  rewrite Hf in Hvalid. simpl in Hvalid.
  destruct (DstAddr d); [discriminate|]. eexists; reflexivity.
Qed.

Lemma relay_inv_handleDatagram (st : Relay) (from : UDPAddr) (d : Datagram)
    (dialErr writeErr : option error) (now : Z) :
  relay_inv st ->
  is_Some (Address d) ->
  exists st' e,
    handleDatagram s st from d dialErr writeErr now = Some (st', e)
    /\ relay_inv st'.
Proof.
  intros Hinv [addr Haddr]. unfold handleDatagram. rewrite Haddr. simpl.
  set (key := (from ++ "-" ++ addr)%string).
  unfold UA_Get. destruct (peers st !! key) as [ptr|] eqn:Hkey.
  - pose proof Hinv as (Hflow & _).
    destruct (Hflow key ptr Hkey) as (_ & _ & _ & p & Hp & Hd).
    rewrite Hp. simpl. do 2 eexists. split; [reflexivity|].
    apply relay_inv_writeToDst; [exact Hinv|]. now rewrite Hd.
  - destruct (match Dial (config s) with
              | Some dial => dial
              | None => fun _ _ => dialErr
              end "udp" addr) as [err|].
    + do 2 eexists. split; [reflexivity|exact Hinv].
    + do 2 eexists. split; [reflexivity|].
      apply relay_inv_writeToDst; [|simpl; apply lookup_insert_eq].
      destruct Hinv as (Hflow & Hinj & Hclosed & Hok).
      unfold relay_inv, UA_Set. simpl. split; [|split; [|split]].
      * intros k sk Hk. apply lookup_insert_Some in Hk as [[<- <-]|[Hne Hk]].
        -- split; [lia|]. split.
           ++ rewrite uevent_in_snoc. intros [Hc|?]; [|discriminate].
              apply Hclosed in Hc. lia.
           ++ split; [exists addr; apply uevent_in_snoc; auto|].
              eexists. rewrite lookup_insert_eq. split; reflexivity.
        -- destruct (Hflow k sk Hk) as (Hlt & Hopen & [a Ha] & q & Hq & Hd).
           split; [lia|]. split.
           ++ rewrite uevent_in_snoc. intros [?|?]; [tauto|discriminate].
           ++ split; [exists a; apply uevent_in_snoc; auto|].
              exists q. rewrite lookup_insert_ne by lia. auto.
      * intros k1 k2 sk Hk1 Hk2.
        apply lookup_insert_Some in Hk1 as [[<- <-]|[Hne1 Hk1]];
          apply lookup_insert_Some in Hk2 as [[<- Heq]|[Hne2 Hk2]];
          try reflexivity.
        -- destruct (Hflow k2 _ Hk2) as (Hlt & _). lia.
        -- subst sk. destruct (Hflow k1 _ Hk1) as (Hlt & _). lia.
        -- eauto.
      * intros sk Hc. apply uevent_in_snoc in Hc as [Hc|Hc]; [|discriminate].
        apply Hclosed in Hc. lia.
      * apply trace_ok_app_other; [exact Hok|].
        intros sk dt Hin. apply list_elem_of_singleton in Hin. discriminate.
Qed.

Lemma trace_ok_CloseAll (st : Relay) :
  trace_ok (utrace st) -> trace_ok (utrace (CloseAll st)).
Proof.
  intros Hok. unfold CloseAll, ulog. simpl.
  apply trace_ok_app_other; [exact Hok|].
  intros sk dt Hin. apply list_elem_of_fmap in Hin as (x & Hx & _).
  discriminate.
Qed.

(** The loop keeps the invariant up to the state it stops or waits in,
    and does not panic. *)
Lemma readFromSrc_loop_inv (script : list step_input) (st : Relay) :
  relay_inv st ->
  match readFromSrc_loop s Mem script st with
  | RPanic => False
  | RBlocked st' => relay_inv st'
  | RReturned st' _ => trace_ok (utrace st')
  end.
Proof.
  revert st. induction script as [|i script IH]; intros st Hinv.
  - exact Hinv.
  - destruct i as [|r dialErr writeErr now|sock r sendErr now];
      cbn [readFromSrc_loop].
    + apply IH. exact Hinv.
    + destruct r as [[from bs]|err].
      * destruct (NewDatagramFromByte Mem (firstn udpBufSize bs))
          as [d|err] eqn:Hparse.
        -- apply Address_parsed_is_Some in Hparse.
           destruct (relay_inv_handleDatagram st from d dialErr writeErr now
                       Hinv Hparse) as (st' & e & -> & Hinv').
           apply IH. exact Hinv'.
        -- apply trace_ok_CloseAll. apply Hinv.
      * apply trace_ok_CloseAll. apply Hinv.
    + destruct (relay_inv_readFromDst st sock r sendErr now Hinv)
        as (st' & -> & Hinv').
      apply IH. exact Hinv'.
Qed.

(** X20.  With the default allocator the relay never panics, whatever
    arrives in whatever order, neither in the loop that handles the
    client's datagrams nor in a reader task: the parser returns only
    datagrams whose address and port [Address] can print, every entry
    of the flow table points to a struct, and [toBytes] stays inside
    the buffer on every datagram that a reader builds. *)
Theorem readFromSrc_never_panics (script : list step_input) :
  readFromSrc s Mem script <> RPanic
  /\ forall st sock r sendErr now,
       is_Some (readFromDst Mem st sock r sendErr now).
Proof.
  split.
  - unfold readFromSrc. intros Hp.
    pose proof (readFromSrc_loop_inv script NewUdpAssociate relay_inv_new)
      as Hinv.
    now rewrite Hp in Hinv.
  - intros st sock r sendErr now. unfold readFromDst.
    destruct (negb _); [eexists; reflexivity|].
    destruct (heap st !! sock) as [udpPeer|]; [|eexists; reflexivity].
    destruct r as [data|err]; [|eexists; reflexivity].
    destruct (toBytes_no_panic
                (NewDatagram Mem (atyp udpPeer) (dstAddr udpPeer)
                   (dstPort udpPeer)
                   (firstn (Nat.min (length data) udpBufSize)
                      (copy (repeat x00 udpBufSize) data)))
                (copy (repeat x00 udpBufSize) data)) as [[n bs] Hto].
    { rewrite NewDatagram_Mem. reflexivity. }
    rewrite Hto.
    destruct (n <=? 0)%Z; [eexists; reflexivity|].
    destruct sendErr; eexists; reflexivity.
Qed.

(** X21.  The relay writes to a socket only after it has dialled it and
    never after it has closed it: in the trace of a run, whether the
    handler has returned or waits for the next datagram, no write
    follows a close of its socket and every write follows a dial of its
    socket. *)
Theorem readFromSrc_no_write_after_close (script : list step_input)
    (st' : Relay) (pre post : list uevent) (sock : nat) (data : list byte) :
  (readFromSrc s Mem script = RBlocked st'
   \/ exists err, readFromSrc s Mem script = RReturned st' err) ->
  utrace st' = pre ++ USockWrite sock data :: post ->
  (USockClose sock ∉ pre) /\ exists addr, UDial sock addr ∈ pre.
Proof.
  unfold readFromSrc. intros Hrun Htr.
  pose proof (readFromSrc_loop_inv script NewUdpAssociate relay_inv_new) as Hinv.
  destruct Hrun as [Hrun|[err Hrun]]; rewrite Hrun in Hinv.
  - destruct Hinv as (_ & _ & _ & Hok). exact (Hok _ _ _ _ Htr).
  - exact (Hinv _ _ _ _ Htr).
Qed.
End RelayInvariant.

(** A read of [data] into a zeroed buffer of [n] bytes, and the slice of
    what was read. *)
Lemma take_copy (n : nat) (data : list byte) :
  length data <= n ->
  firstn (Nat.min (length data) n) (copy (repeat x00 n) data) = data.
Proof.
  intros Hle. unfold copy. rewrite repeat_length.
  rewrite Nat.min_l by exact Hle.
  rewrite (take_ge data) by exact Hle.
  apply take_app_length.
Qed.

(** What [encode] returns is what [toBytes] wrote, and its length is
    positive. *)
Lemma toBytes_of_encode (d : Datagram) (buf out : list byte) :
  encode d buf = Some out ->
  exists n buf',
    toBytes d buf = Some (n, buf')
    /\ (n <=? 0)%Z = false
    /\ firstn (Z.to_nat n) buf' = out.
Proof.
  unfold encode. destruct (toBytes d buf) as [[n buf']|]; [|discriminate].
  destruct (n <=? 0)%Z eqn:Hn; [discriminate|].
  intros [= <-]. eauto.
Qed.

Section RelaySteps.
Context `{NetLib}.
Variable s : Server.

(** One round of a flow's reader on a reply of [data]: the datagram
    that goes to the client. *)
Lemma readFromDst_reply (st : Relay) (sock : nat) (p : UdpPeer)
    (data : list byte) (now : Z) :
  sock ∈ tasks st ->
  heap st !! sock = Some p ->
  4 + length (wire_addr (atyp p) (dstAddr p)) + length (dstPort p)
    + length data <= udpBufSize ->
  readFromDst Mem st sock (Ok data) None now
  = Some (setUpdateTime sock now
            (ulog [UClientSend (from p)
                     ([x00; x00; x00; atyp p]
                      ++ wire_addr (atyp p) (dstAddr p)
                      ++ dstPort p ++ data)] st)).
Proof.
  intros Htask Hp Hfit. unfold readFromDst.
  rewrite bool_decide_eq_true_2 by exact Htask. simpl negb. cbv iota.
  rewrite Hp.
  rewrite take_copy by lia.
  rewrite NewDatagram_Mem.
  destruct (toBytes_of_encode
              {| memCreater := Mem; Rsv := [x00; x00]; Frag := x00;
                 ATyp := atyp p; DstAddr := wire_addr (atyp p) (dstAddr p);
                 DstPort := dstPort p; Data := data |}
              (copy (repeat x00 udpBufSize) data)
              ([x00; x00] ++ [x00; atyp p]
               ++ wire_addr (atyp p) (dstAddr p) ++ dstPort p ++ data))
    as (n & buf' & -> & -> & ->).
  { rewrite encode_spec; [reflexivity | reflexivity |].
    cbn [DstAddr DstPort Data]. rewrite length_copy, repeat_length. lia. }
  reflexivity.
Qed.

(** A reader whose read fails ends: nothing is closed, the table keeps
    the flow. *)
Lemma readFromDst_read_error (st : Relay) (sock : nat) (p : UdpPeer)
    (err : error) (sendErr : option error) (now : Z) :
  sock ∈ tasks st ->
  heap st !! sock = Some p ->
  readFromDst Mem st sock (Err err) sendErr now
  = Some {| peers := peers st; heap := heap st;
            tasks := tasks st ∖ {[sock]}; nsock := nsock st;
            drained := drained st; utrace := utrace st |}.
Proof.
  intros Htask Hp. unfold readFromDst.
  rewrite bool_decide_eq_true_2 by exact Htask. simpl negb. cbv iota.
  now rewrite Hp.
Qed.

(** A step for a socket whose reader has ended does nothing. *)
Lemma readFromDst_no_task (st : Relay) (sock : nat) (r : result (list byte))
    (sendErr : option error) (now : Z) :
  sock ∉ tasks st ->
  readFromDst Mem st sock r sendErr now = Some st.
Proof.
  intros Hnt. unfold readFromDst.
  now rewrite bool_decide_eq_false_2 by exact Hnt.
Qed.

(** The first datagram of a flow: the socket is dialled and takes the
    payload, the flow is entered in the table and its reader starts. *)
Lemma handleDatagram_new_flow (st : Relay) (from : UDPAddr) (d : Datagram)
    (addr : string) (dialErr : option error) (now : Z) :
  Address d = Some addr ->
  UA_Get (from ++ "-" ++ addr)%string st = None ->
  match Dial (config s) with
  | Some dial => dial "udp" addr
  | None => dialErr
  end = None ->
  handleDatagram s st from d dialErr None now
  = Some
      ({| peers := <[(from ++ "-" ++ addr)%string := nsock st]> (peers st);
          heap := <[nsock st :=
                      {| updateTime := now; from := from; dst := nsock st;
                         atyp := ATyp d; dstAddr := DstAddr d;
                         dstPort := DstPort d |}]> (heap st);
          tasks := {[nsock st]} ∪ tasks st;
          nsock := S (nsock st);
          drained := drained st;
          utrace := utrace st ++ [UDial (nsock st) addr;
                                  USockWrite (nsock st) (Data d)] |},
       None).
Proof.
  intros Haddr Hnew Hdial. unfold handleDatagram. rewrite Haddr. simpl.
  rewrite Hnew.
  assert (Hd : match Dial (config s) with
               | Some dial => dial
               | None => fun _ _ => dialErr
               end "udp" addr = None)
    by (destruct (Dial (config s)); exact Hdial).
  rewrite Hd.
  rewrite !copy_same_length by apply repeat_length.
  unfold writeToDst, setUpdateTime, ulog, UA_Set. simpl.
  rewrite alter_insert_eq, <- app_assoc. reflexivity.
Qed.

(** A later datagram of a flow of the table goes to the flow's socket. *)
Lemma handleDatagram_known_flow (st : Relay) (from : UDPAddr) (d : Datagram)
    (addr : string) (sock : nat) (p : UdpPeer) (dialErr : option error)
    (now : Z) :
  Address d = Some addr ->
  UA_Get (from ++ "-" ++ addr)%string st = Some sock ->
  heap st !! sock = Some p ->
  handleDatagram s st from d dialErr None now
  = Some (setUpdateTime (dst p) now (ulog [USockWrite (dst p) (Data d)] st),
          None).
Proof.
  intros Haddr Hkey Hp. unfold handleDatagram. rewrite Haddr. simpl.
  rewrite Hkey. simpl. rewrite Hp. reflexivity.
Qed.

(** X22.  Two datagrams from one source whose destinations print alike
    make one flow.  The first dials a socket, writes its payload to
    it, enters the flow under the key of source and destination and
    starts one reader; the second is written to that same socket, and
    no second dial is made, whatever it would return.  The loop then
    waits for the next datagram in the state that is given here in
    full, and the steps that follow are run from it. *)
Theorem flow_is_reused (st : Relay) (from : UDPAddr) (bs1 bs2 : list byte)
    (d1 d2 : Datagram) (addr : string) (dialErr1 dialErr2 : option error)
    (t1 t2 : Z) :
  NewDatagramFromByte Mem (firstn udpBufSize bs1) = Ok d1 ->
  NewDatagramFromByte Mem (firstn udpBufSize bs2) = Ok d2 ->
  Address d1 = Some addr ->
  Address d2 = Some addr ->
  UA_Get (from ++ "-" ++ addr)%string st = None ->
  match Dial (config s) with
  | Some dial => dial "udp" addr
  | None => dialErr1
  end = None ->
  let key := (from ++ "-" ++ addr)%string in
  let sock := nsock st in
  let flow (t : Z) :=
    {| updateTime := t; from := from; dst := sock; atyp := ATyp d1;
       dstAddr := DstAddr d1; dstPort := DstPort d1 |} in
  let st1 :=
    {| peers := <[key := sock]> (peers st);
       heap := <[sock := flow t1]> (heap st);
       tasks := {[sock]} ∪ tasks st; nsock := S sock;
       drained := drained st;
       utrace := utrace st ++ [UDial sock addr;
                               USockWrite sock (Data d1)] |} in
  let st2 :=
    {| peers := <[key := sock]> (peers st);
       heap := <[sock := flow t2]> (heap st);
       tasks := {[sock]} ∪ tasks st; nsock := S sock;
       drained := drained st;
       utrace := utrace st ++ [UDial sock addr;
                               USockWrite sock (Data d1);
                               USockWrite sock (Data d2)] |} in
  let step1 := InUdp (Ok (from, bs1)) dialErr1 None t1 in
  let step2 := InUdp (Ok (from, bs2)) dialErr2 None t2 in
  handleDatagram s st from d1 dialErr1 None t1 = Some (st1, None)
  /\ handleDatagram s st1 from d2 dialErr2 None t2 = Some (st2, None)
  /\ readFromSrc_loop s Mem [step1; step2] st = RBlocked st2
  /\ forall rest,
       readFromSrc_loop s Mem (step1 :: step2 :: rest) st
       = readFromSrc_loop s Mem rest st2.
Proof.
  intros Hp1 Hp2 Ha1 Ha2 Hnew Hdial key sock flow st1 st2 step1 step2.
  assert (H1 : handleDatagram s st from d1 dialErr1 None t1
               = Some (st1, None))
    by (apply handleDatagram_new_flow; assumption).
  assert (H2 : handleDatagram s st1 from d2 dialErr2 None t2
               = Some (st2, None)).
  { rewrite (handleDatagram_known_flow st1 from d2 addr sock (flow t1));
      [| exact Ha2 | apply lookup_insert_eq | apply lookup_insert_eq].
    unfold st1, st2, setUpdateTime, ulog. simpl.
    rewrite alter_insert_eq, <- app_assoc. reflexivity. }
  split; [exact H1|]. split; [exact H2|].
  unfold step1, step2. cbn [readFromSrc_loop].
  rewrite Hp1, H1, Hp2, H2. split; [reflexivity|].
  intros rest. reflexivity.
Qed.

(** X23.  When the read on a flow's socket fails, the flow's reader
    ends, but the socket is not closed and the flow stays in the table:
    the next datagram of the flow is still written to that socket, no
    new reader is started, and what the target answers from then on is
    not relayed to the client.  The state in which the loop then waits
    is given in full: the only new event is the write. *)
Theorem reply_lost_after_reader_exit (st : Relay) (from : UDPAddr)
    (bs reply : list byte) (d : Datagram) (addr : string) (sock : nat)
    (p : UdpPeer) (err : error) (sendErr sendErr' dialErr : option error)
    (t0 t1 t2 : Z) :
  NewDatagramFromByte Mem (firstn udpBufSize bs) = Ok d ->
  Address d = Some addr ->
  UA_Get (from ++ "-" ++ addr)%string st = Some sock ->
  heap st !! sock = Some p ->
  dst p = sock ->
  sock ∈ tasks st ->
  let st1 :=
    {| peers := peers st; heap := heap st; tasks := tasks st ∖ {[sock]};
       nsock := nsock st; drained := drained st; utrace := utrace st |} in
  let st2 :=
    {| peers := peers st; heap := alter (touch t1) sock (heap st);
       tasks := tasks st ∖ {[sock]}; nsock := nsock st;
       drained := drained st;
       utrace := utrace st ++ [USockWrite sock (Data d)] |} in
  let step0 := InDst sock (Err err) sendErr t0 in
  let step1 := InUdp (Ok (from, bs)) dialErr None t1 in
  let step2 := InDst sock (Ok reply) sendErr' t2 in
  readFromDst Mem st sock (Err err) sendErr t0 = Some st1
  /\ handleDatagram s st1 from d dialErr None t1 = Some (st2, None)
  /\ readFromDst Mem st2 sock (Ok reply) sendErr' t2 = Some st2
  /\ readFromSrc_loop s Mem [step0; step1; step2] st = RBlocked st2
  /\ forall rest,
       readFromSrc_loop s Mem (step0 :: step1 :: step2 :: rest) st
       = readFromSrc_loop s Mem rest st2.
Proof.
  intros Hparse Haddr Hkey Hp Hdst Htask st1 st2 step0 step1 step2.
  assert (H0 : readFromDst Mem st sock (Err err) sendErr t0 = Some st1)
    by (now apply readFromDst_read_error with (p := p)).
  assert (H1 : handleDatagram s st1 from d dialErr None t1
               = Some (st2, None)).
  { rewrite (handleDatagram_known_flow st1 from d addr sock p);
      [| exact Haddr | exact Hkey | exact Hp].
    rewrite Hdst. reflexivity. }
  assert (H2 : readFromDst Mem st2 sock (Ok reply) sendErr' t2 = Some st2).
  { apply readFromDst_no_task. unfold st2. cbn [tasks]. intros Hin.
    apply elem_of_difference in Hin as [_ Hn].
    apply Hn, elem_of_singleton. reflexivity. }
  split; [exact H0|]. split; [exact H1|]. split; [exact H2|].
  unfold step0, step1, step2. cbn [readFromSrc_loop].
  rewrite H0, Hparse, H1, H2. split; [reflexivity|].
  intros rest. reflexivity.
Qed.

(** X24.  The answer of a target goes back to the source of the flow
    under the header of the request: RSV and FRAG zero, then the ATYP,
    the address field (for a name, with its length byte), the port of
    the request, and the answer.  When it fits the buffer of 65536
    bytes the reader sends it in one datagram, the only event of its
    round, and the loop waits in the state that is given here in full;
    a non-empty answer parses to the request's destination again. *)
Theorem reply_carries_request_header (st : Relay) (from : UDPAddr)
    (bs data : list byte) (d : Datagram) (addr : string)
    (dialErr : option error) (t1 t2 : Z) :
  NewDatagramFromByte Mem (firstn udpBufSize bs) = Ok d ->
  Address d = Some addr ->
  UA_Get (from ++ "-" ++ addr)%string st = None ->
  match Dial (config s) with
  | Some dial => dial "udp" addr
  | None => dialErr
  end = None ->
  4 + length (wire_addr (ATyp d) (DstAddr d)) + 2 + length data
    <= udpBufSize ->
  let key := (from ++ "-" ++ addr)%string in
  let sock := nsock st in
  let out := frame [x00; x00] x00 (ATyp d) (DstAddr d) (DstPort d) data in
  let flow (t : Z) :=
    {| updateTime := t; from := from; dst := sock; atyp := ATyp d;
       dstAddr := DstAddr d; dstPort := DstPort d |} in
  let st1 :=
    {| peers := <[key := sock]> (peers st);
       heap := <[sock := flow t1]> (heap st);
       tasks := {[sock]} ∪ tasks st; nsock := S sock;
       drained := drained st;
       utrace := utrace st ++ [UDial sock addr;
                               USockWrite sock (Data d)] |} in
  let st2 :=
    {| peers := <[key := sock]> (peers st);
       heap := <[sock := flow t2]> (heap st);
       tasks := {[sock]} ∪ tasks st; nsock := S sock;
       drained := drained st;
       utrace := utrace st ++ [UDial sock addr;
                               USockWrite sock (Data d);
                               UClientSend from out] |} in
  let step1 := InUdp (Ok (from, bs)) dialErr None t1 in
  let step2 := InDst sock (Ok data) None t2 in
  handleDatagram s st from d dialErr None t1 = Some (st1, None)
  /\ readFromDst Mem st1 sock (Ok data) None t2 = Some st2
  /\ readFromSrc_loop s Mem [step1; step2] st = RBlocked st2
  /\ (forall rest,
        readFromSrc_loop s Mem (step1 :: step2 :: rest) st
        = readFromSrc_loop s Mem rest st2)
  /\ (data <> [] ->
      NewDatagramFromByte Mem out
      = Ok {| memCreater := Mem; Rsv := [x00; x00]; Frag := x00;
              ATyp := ATyp d; DstAddr := DstAddr d; DstPort := DstPort d;
              Data := data |}).
Proof.
  intros Hparse Haddr Hnew Hdial Hfit key sock out flow st1 st2 step1 step2.
  pose proof (NewDatagramFromByte_inv _ _ Hparse)
    as (_ & _ & _ & Hvalid & Hport & Hnz & _ & _).
  assert (H1 : handleDatagram s st from d dialErr None t1
               = Some (st1, None))
    by (apply handleDatagram_new_flow; assumption).
  assert (H2 : readFromDst Mem st1 sock (Ok data) None t2 = Some st2).
  { rewrite (readFromDst_reply st1 sock (flow t1));
      [| unfold st1; cbn [tasks]; apply elem_of_union_l, elem_of_singleton;
         reflexivity
       | apply lookup_insert_eq
       | cbn [atyp dstAddr dstPort flow]; rewrite Hport; lia].
    unfold st1, st2, setUpdateTime, ulog, out, frame. simpl.
    rewrite alter_insert_eq, <- app_assoc. reflexivity. }
  split; [exact H1|]. split; [exact H2|].
  unfold step1, step2. cbn [readFromSrc_loop].
  rewrite Hparse, H1, H2. split; [reflexivity|].
  split; [intros rest; reflexivity|].
  intros Hdata. unfold out, frame. now apply NewDatagramFromByte_wire.
Qed.

(** X25.  An answer that does not fit the buffer together with its
    header, which takes at least ten bytes, is not relayed: nothing is
    sent to the client, and the flow's reader ends. *)
Theorem oversize_reply_ends_reader (st : Relay) (sock : nat) (p : UdpPeer)
    (data : list byte) (sendErr : option error) (now : Z) :
  sock ∈ tasks st ->
  heap st !! sock = Some p ->
  length data <= udpBufSize ->
  udpBufSize < 4 + length (wire_addr (atyp p) (dstAddr p))
                 + length (dstPort p) + length data ->
  readFromDst Mem st sock (Ok data) sendErr now
  = Some {| peers := peers st; heap := heap st;
            tasks := tasks st ∖ {[sock]}; nsock := nsock st;
            drained := drained st; utrace := utrace st |}.
Proof.
  intros Htask Hp Hle Hbig. unfold readFromDst.
  rewrite bool_decide_eq_true_2 by exact Htask. simpl negb. cbv iota.
  rewrite Hp. rewrite take_copy by exact Hle.
  rewrite NewDatagram_Mem. unfold toBytes.
  cbn [DstAddr DstPort Data]. rewrite length_copy, repeat_length.
  destruct (Nat.ltb_spec udpBufSize
              (2 + 1 + 1 + length (wire_addr (atyp p) (dstAddr p))
               + length (dstPort p) + length data)); [reflexivity|lia].
Qed.

(** X26.  A datagram with a non-zero FRAG byte, from whatever source,
    ends the whole association: the loop returns the no-fragments
    error, the later steps are not looked at, and the socket of every
    flow of the table is closed. *)
Theorem fragment_ends_association (st : Relay) (from : UDPAddr)
    (bs : list byte) (dialErr writeErr : option error) (now : Z)
    (rest : list step_input) :
  4 < length bs ->
  nth 2 bs x00 <> x00 ->
  readFromSrc_loop s Mem (InUdp (Ok (from, bs)) dialErr writeErr now :: rest) st
  = RReturned (CloseAll st) ErrDatagramSlice
  /\ peers (CloseAll st) = peers st
  /\ forall key sock,
       peers st !! key = Some sock -> USockClose sock ∈ utrace (CloseAll st).
Proof.
  intros Hlen Hfrag. split; [|split; [reflexivity|]].
  - cbn [readFromSrc_loop]. unfold NewDatagramFromByte.
    assert (Hbuf : 4 < udpBufSize)
      by (apply Nat.ltb_lt; vm_compute; reflexivity).
    assert (Hl : 4 < length (firstn udpBufSize bs))
      by (rewrite length_take; lia).
    destruct (Nat.leb_spec (length (firstn udpBufSize bs)) 4); [lia|].
    assert (Hn : nth 2 (firstn udpBufSize bs) x00 = nth 2 bs x00).
    { apply nth_firstn. }
    rewrite Hn.
    apply byte_eqb_neq in Hfrag. rewrite Hfrag. reflexivity.
  - intros key sock Hkey. unfold CloseAll, ulog. simpl.
    apply elem_of_app. right.
    apply list_elem_of_fmap. exists sock. split; [reflexivity|].
    apply list_elem_of_fmap. exists (key, sock). split; [reflexivity|].
    now apply elem_of_map_to_list.
Qed.
End RelaySteps.

Section AssociateFailures.
Context `{NetLib}.

(** X27.  What the handler does when it fails before the relay runs.
    If the UDP socket cannot be bound, or its address does not split,
    the handler returns the wrapped error and the client gets no reply;
    in the second case the UDP socket, which is open, is not closed.
    If the success reply cannot be written, the UDP socket is closed
    and no datagram is read. *)
Theorem doAssociate_early_failures (s : Server) (script : list step_input)
    (c : Conn) :
  (forall err,
      doAssociate s (Err err) script c
      = (c, RReturned NewUdpAssociate
              (Errorf_v "doAssociate Failed to bind UDP server: %v" err)))
  /\ (forall localAddr err,
        SplitHostPort localAddr = Err err ->
        doAssociate s (Ok localAddr) script c
        = (c, RReturned NewUdpAssociate
                (Errorf_v "doAssociate Failed to SplitHostPort: %v" err)))
  /\ (forall localAddr host port err,
        SplitHostPort localAddr = Ok (host, port) ->
        snd (sendReply successReply
               (Some {| FQDN := EmptyString; IP := BindIP (config s);
                        Port := Atoi port |}) c) = Some err ->
        snd (doAssociate s (Ok localAddr) script c)
        = RReturned (ulog [UServerClose] NewUdpAssociate)
            (Errorf_v "doAssociate Failed to send reply: %v" err)).
Proof.
  split; [reflexivity|]. split.
  - intros localAddr err Hsplit. unfold doAssociate. now rewrite Hsplit.
  - intros localAddr host port err Hsplit Hreply.
    unfold doAssociate. rewrite Hsplit. unfold bind.
    destruct (sendReply _ _ c) as [c' e]. simpl in Hreply. subst e.
    reflexivity.
Qed.
End AssociateFailures.

(* ===================================================================== *)
(** * The further theorems at concrete inputs                              *)
(* ===================================================================== *)

Lemma doAssociate_early_failures_witness :
  snd (@doAssociate exampleNet exServer (Ok "0.0.0.0:40000")
         [InUdp (Ok (exFrom, exPing)) None None 0%Z] (mkConn [] 0 []))
  = RReturned (ulog [UServerClose] NewUdpAssociate)
      (Errorf_v "doAssociate Failed to send reply: %v" ErrBrokenPipe).
Proof.
  apply (proj2 (proj2 (@doAssociate_early_failures exampleNet exServer
                         [InUdp (Ok (exFrom, exPing)) None None 0%Z]
                         (mkConn [] 0 [])))
           "0.0.0.0:40000" "0.0.0.0" "40000" ErrBrokenPipe).
  - vm_compute. reflexivity.
  - vm_compute. reflexivity.
Defined.

(** One [ping]: the write to socket 0 follows its dial. *)
Lemma readFromSrc_no_write_after_close_witness :
  (USockClose 0 ∉ [UDial 0 "127.0.0.1:8888"])
  /\ exists addr, UDial 0 addr ∈ [UDial 0 "127.0.0.1:8888"].
Proof.
  apply (@readFromSrc_no_write_after_close exampleNet exServer
           [InUdp (Ok (exFrom, exPing)) None None 0%Z]
           exOneFlow [UDial 0 "127.0.0.1:8888"] [] 0 [x70; x69; x6e; x67]).
  - left. vm_compute. reflexivity.
  - reflexivity.
Defined.

(** [ping] and then [pong] from one source to 127.0.0.1:8888, the dial
    for the second being bound to fail: one dial, both payloads on
    socket 0. *)
Lemma flow_is_reused_witness :
  @readFromSrc_loop exampleNet exServer Mem
    [InUdp (Ok (exFrom, exPing)) None None 1%Z;
     InUdp (Ok (exFrom, [x00; x00; x00; x01; x7f; x00; x00; x01; x22; xb8;
                         x70; x6f; x6e; x67]))
           (Some (ErrNet "unreachable")) None 2%Z]
    NewUdpAssociate
  = RBlocked
      {| peers := <[ "10.0.0.9:4000-127.0.0.1:8888" := 0 ]> ∅;
         heap := <[ 0 := {| updateTime := 2; from := exFrom; dst := 0;
                            atyp := ipv4Address;
                            dstAddr := [x7f; x00; x00; x01];
                            dstPort := [x22; xb8] |} ]> ∅;
         tasks := {[0]} ∪ ∅; nsock := 1; drained := false;
         utrace := [] ++ [UDial 0 "127.0.0.1:8888";
                          USockWrite 0 [x70; x69; x6e; x67];
                          USockWrite 0 [x70; x6f; x6e; x67]] |}.
Proof.
  exact (proj1 (proj2 (proj2
    (@flow_is_reused exampleNet exServer NewUdpAssociate exFrom exPing
       [x00; x00; x00; x01; x7f; x00; x00; x01; x22; xb8;
        x70; x6f; x6e; x67]
       exPingDatagram
       {| memCreater := Mem; Rsv := [x00; x00]; Frag := x00;
          ATyp := ipv4Address; DstAddr := [x7f; x00; x00; x01];
          DstPort := [x22; xb8]; Data := [x70; x6f; x6e; x67] |}
       "127.0.0.1:8888" None (Some (ErrNet "unreachable")) 1%Z 2%Z
       ltac:(vm_compute; reflexivity) ltac:(vm_compute; reflexivity)
       ltac:(vm_compute; reflexivity) ltac:(vm_compute; reflexivity)
       ltac:(vm_compute; reflexivity) ltac:(vm_compute; reflexivity))))).
Defined.

(** The reader of the one flow fails, then [ping] and an answer: the
    only new event is the write of [ping] to socket 0. *)
Lemma reply_lost_after_reader_exit_witness :
  @readFromSrc_loop exampleNet exServer Mem
    [InDst 0 (Err (ErrNet "refused")) None 1%Z;
     InUdp (Ok (exFrom, exPing)) None None 2%Z;
     InDst 0 (Ok [x70; x6f; x6e; x67]) None 3%Z]
    exOneFlow
  = RBlocked
      {| peers := peers exOneFlow;
         heap := alter (touch 2) 0 (heap exOneFlow);
         tasks := tasks exOneFlow ∖ {[0]}; nsock := nsock exOneFlow;
         drained := drained exOneFlow;
         utrace := utrace exOneFlow ++ [USockWrite 0 [x70; x69; x6e; x67]] |}.
Proof.
  exact (proj1 (proj2 (proj2 (proj2
    (@reply_lost_after_reader_exit exampleNet exServer exOneFlow exFrom
       exPing [x70; x6f; x6e; x67] exPingDatagram "127.0.0.1:8888" 0
       {| updateTime := 0; from := exFrom; dst := 0;
          atyp := ipv4Address; dstAddr := [x7f; x00; x00; x01];
          dstPort := [x22; xb8] |}
       (ErrNet "refused") None None None 1%Z 2%Z 3%Z
       ltac:(vm_compute; reflexivity) ltac:(vm_compute; reflexivity)
       ltac:(vm_compute; reflexivity) ltac:(vm_compute; reflexivity)
       eq_refl ltac:(vm_compute; reflexivity)))))).
Defined.

(** [ping] to 127.0.0.1:8888 and the answer [pong]. *)
Lemma reply_carries_request_header_witness :
  @readFromSrc_loop exampleNet exServer Mem
    [InUdp (Ok (exFrom, exPing)) None None 1%Z;
     InDst 0 (Ok [x70; x6f; x6e; x67]) None 2%Z]
    NewUdpAssociate
  = RBlocked
      {| peers := <[ "10.0.0.9:4000-127.0.0.1:8888" := 0 ]> ∅;
         heap := <[ 0 := {| updateTime := 2; from := exFrom; dst := 0;
                            atyp := ipv4Address;
                            dstAddr := [x7f; x00; x00; x01];
                            dstPort := [x22; xb8] |} ]> ∅;
         tasks := {[0]} ∪ ∅; nsock := 1; drained := false;
         utrace := [] ++ [UDial 0 "127.0.0.1:8888";
                          USockWrite 0 [x70; x69; x6e; x67];
                          UClientSend exFrom
                            (frame [x00; x00] x00 ipv4Address
                                   [x7f; x00; x00; x01] [x22; xb8]
                                   [x70; x6f; x6e; x67])] |}.
Proof.
  exact (proj1 (proj2 (proj2
    (@reply_carries_request_header exampleNet exServer NewUdpAssociate
       exFrom exPing [x70; x6f; x6e; x67] exPingDatagram
       "127.0.0.1:8888" None 1%Z 2%Z
       ltac:(vm_compute; reflexivity) ltac:(vm_compute; reflexivity)
       ltac:(vm_compute; reflexivity) ltac:(vm_compute; reflexivity)
       ltac:(apply Nat.leb_le; vm_compute; reflexivity))))).
Defined.

(** An answer of 65530 bytes on the one flow: with the ten bytes of the
    header it does not fit. *)
Lemma oversize_reply_ends_reader_witness :
  readFromDst Mem exOneFlow 0 (Ok (repeat x00 65530)) None 9%Z
  = Some {| peers := peers exOneFlow; heap := heap exOneFlow;
            tasks := tasks exOneFlow ∖ {[0]}; nsock := nsock exOneFlow;
            drained := drained exOneFlow; utrace := utrace exOneFlow |}.
Proof.
  apply (oversize_reply_ends_reader exOneFlow 0
           {| updateTime := 0; from := exFrom; dst := 0;
              atyp := ipv4Address; dstAddr := [x7f; x00; x00; x01];
              dstPort := [x22; xb8] |}
           (repeat x00 65530) None 9%Z).
  - vm_compute. reflexivity.
  - vm_compute. reflexivity.
  - apply Nat.leb_le. vm_compute. reflexivity.
  - apply Nat.ltb_lt. vm_compute. reflexivity.
Defined.

(** A datagram with FRAG=1 while the one flow is open. *)
Lemma fragment_ends_association_witness :
  @readFromSrc_loop exampleNet exServer Mem
    [InUdp (Ok ("10.9.9.9:1", [x00; x00; x01; x01; x7f; x00; x00; x01;
                               x22; xb8; x70])) None None 7%Z;
     InUdp (Ok (exFrom, exPing)) None None 8%Z]
    exOneFlow
  = RReturned (CloseAll exOneFlow) ErrDatagramSlice
  /\ peers (CloseAll exOneFlow) = peers exOneFlow
  /\ forall key sock,
       peers exOneFlow !! key = Some sock ->
       USockClose sock ∈ utrace (CloseAll exOneFlow).
Proof.
  apply (@fragment_ends_association exampleNet exServer exOneFlow
           "10.9.9.9:1"
           [x00; x00; x01; x01; x7f; x00; x00; x01; x22; xb8; x70]
           None None 7%Z [InUdp (Ok (exFrom, exPing)) None None 8%Z]).
  - simpl. lia.
  - discriminate.
Defined.
